(** * StudyBot: a shallow embedding of the dialogue orchestrator

    The development follows the Python sources module by module:
    [services/field_manager.py], [agent/conversation_manager.py],
    [models/], [agent/confirmation_handler.py], [agent/decision_maker.py],
    [llm_service_session.py], [services/rag_service.py],
    [agent/action_executor.py] and [core/studybot_agent.py].

    Modelling conventions.
    - A Python [dict] is an insertion-ordered association list with
      pairwise distinct keys ([dict_wf]); the order is observable through
      [get_empty_fields] and the payloads built from [items()].
    - A field value is [None] or a [str]: [option string].
    - A Python [float] that the code only compares with decimal literals
      or rounds to one decimal is a rational ([Q]) computed exactly.
    - An exception is a value of [exn], threaded through the [result]
      monad.
    - The language model and the clock are outside the core; their
      answers are inputs of the functions that call them. The retrieval
      service is the one of [rag_service.py], mock included.
    - The Decision Engine and the Confirmation Classifier come twice:
      as functions of the model call's outcome ([DecisionMaker],
      [ConfirmationHandler]), which is what the orchestrator needs, and
      with the language-model session they write to ([InSession]). *)

From Stdlib Require Import ZArith QArith Qround Lqa Lia Ascii String DecimalString.
From stdpp Require Import base decidable option list strings.

Local Open Scope string_scope.
Local Open Scope list_scope.

(** ** Python prelude *)

Module Py.

(** *** Exceptions

    The exceptions that the modelled code meets; all are subclasses of
    [Exception], so [except Exception] catches each of them. *)

Inductive exn : Type :=
| ZeroDivisionError
| AttributeError
| KeyError
| ValueError
| TimeoutError.

Inductive result (A : Type) : Type :=
| Ok (a : A)
| Raise (e : exn).
Arguments Ok {A} a.
Arguments Raise {A} e.

Definition bind {A B} (m : result A) (k : A -> result B) : result B :=
  match m with
  | Ok a => k a
  | Raise e => Raise e
  end.

(** [try: m except Exception: h] *)
Definition try_except {A} (m : result A) (h : A) : A :=
  match m with
  | Ok a => a
  | Raise _ => h
  end.

(** *** Values and truthiness *)

(** [None] or a [str]. *)
Definition pyval : Type := option string.

Definition str_truthy (s : string) : bool :=
  negb (String.eqb s "").

(** [bool(v)]: [None] and the empty string are falsy. *)
Definition truthy (v : pyval) : bool :=
  match v with
  | None => false
  | Some s => str_truthy s
  end.

(** *** Insertion-ordered dictionaries *)

Definition dict (V : Type) : Type := list (string * V).

Definition dict_keys {V} (d : dict V) : list string := map fst d.
Definition dict_values {V} (d : dict V) : list V := map snd d.

(** The keys of a dictionary are pairwise distinct. *)
Definition dict_wf {V} (d : dict V) : Prop := NoDup (dict_keys d).

(** [d.get(k)] *)
Fixpoint dict_get {V} (d : dict V) (k : string) : option V :=
  match d with
  | [] => None
  | (k', v) :: d' => if String.eqb k' k then Some v else dict_get d' k
  end.

(** [k in d] *)
Definition dict_contains {V} (d : dict V) (k : string) : bool :=
  match dict_get d k with
  | Some _ => true
  | None => false
  end.

(** [d[k] = v]: an existing key keeps its position, a new key goes last. *)
Fixpoint dict_set {V} (d : dict V) (k : string) (v : V) : dict V :=
  match d with
  | [] => [(k, v)]
  | (k', v') :: d' =>
      if String.eqb k' k then (k, v) :: d' else (k', v') :: dict_set d' k v
  end.

(** [bool(d)]: a dictionary is truthy when it is not empty. *)
Definition dict_truthy {V} (d : dict V) : bool :=
  match d with
  | [] => false
  | _ :: _ => true
  end.

(** *** Sequences *)

(** [l[-n:]] for a count [n]: since [-0 = 0], [l[-0:]] is the whole
    list; otherwise the last [n] elements (all of them when the list is
    shorter). *)
Definition slice_last {A} (n : nat) (l : list A) : list A :=
  match n with
  | O => l
  | S _ => skipn (length l - n) l
  end.

(** [l[:n]] *)
Definition slice_first {A} (n : nat) (l : list A) : list A := firstn n l.

(** *** Strings

    Texts are modelled on ASCII: a string stands for the [str] with the
    same characters when all of them are ASCII ([isascii]), and on such
    texts [lower] and [strip] are [str.lower] and [str.strip]. On other
    characters Python does more, which is not modelled: [str.lower] maps
    U+212A to [k] and U+0130 to [i] followed by U+0307, and [str.strip]
    also removes U+00A0, U+0085, U+2028 and the other Unicode white
    space. A property stated for every message or answer therefore
    assumes [isascii]. *)

(** [s.isascii()] *)
Fixpoint isascii (s : string) : bool :=
  match s with
  | EmptyString => true
  | String c s' => Nat.ltb (nat_of_ascii c) 128 && isascii s'
  end.

Definition ascii_lower (c : ascii) : ascii :=
  let n := nat_of_ascii c in
  if Nat.leb 65 n && Nat.leb n 90 then ascii_of_nat (n + 32) else c.

(** [s.lower()], for an ASCII text. *)
Fixpoint lower (s : string) : string :=
  match s with
  | EmptyString => EmptyString
  | String c s' => String (ascii_lower c) (lower s')
  end.

(** [c.isspace()] on ASCII: TAB, LF, VT, FF, CR, FS, GS, RS, US, SPACE. *)
Definition ascii_isspace (c : ascii) : bool :=
  let n := nat_of_ascii c in
  (Nat.leb 9 n && Nat.leb n 13) || (Nat.leb 28 n && Nat.leb n 32).

Fixpoint lstrip (s : string) : string :=
  match s with
  | EmptyString => EmptyString
  | String c s' => if ascii_isspace c then lstrip s' else s
  end.

Fixpoint rstrip (s : string) : string :=
  match s with
  | EmptyString => EmptyString
  | String c s' =>
      match rstrip s' with
      | EmptyString => if ascii_isspace c then EmptyString else String c EmptyString
      | r => String c r
      end
  end.

(** [s.strip()], for an ASCII text. *)
Definition strip (s : string) : string := rstrip (lstrip s).

(** Whether a word begins, and ends, with a character that is not white
    space. *)
Definition starts_solid (w : string) : bool :=
  match w with
  | EmptyString => false
  | String a _ => negb (ascii_isspace a)
  end.

Fixpoint ends_solid (w : string) : bool :=
  match w with
  | EmptyString => false
  | String a EmptyString => negb (ascii_isspace a)
  | String _ w' => ends_solid w'
  end.

(** [needle in hay] *)
Fixpoint str_in (needle hay : string) : bool :=
  String.prefix needle hay ||
  match hay with
  | EmptyString => false
  | String _ hay' => str_in needle hay'
  end.

(** [any(w in s for w in words)] *)
Definition any_in (words : list string) (s : string) : bool :=
  existsb (fun w => str_in w s) words.

(** [str(n)] for a non-negative integer. *)
Definition str_of_nat (n : nat) : string :=
  NilEmpty.string_of_uint (Nat.to_uint n).

(** The line feed of a ["\n"] escape. *)
Definition nl : string := String (ascii_of_nat 10) EmptyString.

(** [sep.join(l)] *)
Fixpoint join (sep : string) (l : list string) : string :=
  match l with
  | [] => ""
  | [x] => x
  | x :: l' => x +:+ sep +:+ join sep l'
  end.

(** [str(v)] as an f-string renders a field value. *)
Definition str_of_pyval (v : pyval) : string :=
  match v with
  | Some s => s
  | None => "None"
  end.

(** *** Floats, as exact rationals *)

(** [round(q, 1)]: the nearest multiple of one tenth, ties to the even
    one. *)
Definition round1_tenths (q : Q) : Z :=
  let x := (q * 10)%Q in
  let f := Qfloor x in
  let r := (x - inject_Z f)%Q in
  match (r ?= 1 # 2)%Q with
  | Lt => f
  | Gt => (f + 1)%Z
  | Eq => if Z.even f then f else (f + 1)%Z
  end.

Definition round1 (q : Q) : Q := (round1_tenths q # 10)%Q.

(** [str(q)] for a non-negative float with one decimal, such as a
    progress percentage: ["8.3"], ["100.0"]. *)
Definition str_of_float1 (q : Q) : string :=
  let t := Z.to_nat (Qfloor (q * 10)%Q) in
  str_of_nat (t / 10) +:+ "." +:+ str_of_nat (t mod 10).

End Py.

Import Py.

#[global] Instance result_ret : MRet result := fun _ a => Ok a.
#[global] Instance result_bind : MBind result := fun _ _ k m => Py.bind m k.

(** ** services/field_manager.py *)

Module FieldManager.

Record schema_entry : Type := SchemaEntry {
  Field_Name : string;
  Description : string
}.

(** [FieldManager.FORM_SCHEMA] *)
Definition FORM_SCHEMA : list schema_entry :=
  [ SchemaEntry "Client" "Name of requester";
    SchemaEntry "Problem" "What needs to be studied";
    SchemaEntry "Discipline" "Scientific area";
    SchemaEntry "Technique Area" "Specific technique";
    SchemaEntry "Study Director" "Director name";
    SchemaEntry "Study Director Site" "Lab location";
    SchemaEntry "Priority" "Urgency level";
    SchemaEntry "Date Results Required" "Deadline for results";
    SchemaEntry "Sample Type" "Type of sample";
    SchemaEntry "Sample ID" "Unique sample identifier";
    SchemaEntry "Project Code" "Project or cost center code";
    SchemaEntry "Special Instructions" "Special handling instructions" ].

(** The field names of the schema, in schema order. *)
Definition schema_names : list string := map Field_Name FORM_SCHEMA.

(** The object state: [self.fields]. *)
Record t : Type := Make {
  fields : dict pyval
}.

(** [{field["Field Name"]: None for field in self.FORM_SCHEMA}] *)
Definition empty_fields_dict : dict pyval :=
  fold_left (fun d e => dict_set d (Field_Name e) None) FORM_SCHEMA [].

(** [__init__] *)
Definition init : t := Make empty_fields_dict.

(** One iteration of the loop of [update_fields]. *)
Definition update_step (acc : t * dict string) (item : string * string)
  : t * dict string :=
  let '(fm, updated) := acc in
  let '(field_name, value) := item in
  if dict_contains (fields fm) field_name
  then (Make (dict_set (fields fm) field_name (Some value)),
        dict_set updated field_name value)
  else acc.

(** [update_fields]: the new state and the dictionary of the fields that
    were actually updated. *)
Definition update_fields (fm : t) (updates : dict string) : t * dict string :=
  fold_left update_step updates (fm, []).

(** [get_field] *)
Definition get_field (fm : t) (field_name : string) : pyval :=
  match dict_get (fields fm) field_name with
  | Some v => v
  | None => None
  end.

(** [get_filled_fields] *)
Definition get_filled_fields (fm : t) : dict pyval :=
  List.filter (fun kv => truthy (snd kv)) (fields fm).

(** [get_empty_fields] *)
Definition get_empty_fields (fm : t) : list string :=
  map fst (List.filter (fun kv => negb (truthy (snd kv))) (fields fm)).

(** [sum(1 for v in self.fields.values() if v)] *)
Definition filled_count (fm : t) : nat :=
  length (List.filter truthy (dict_values (fields fm))).

(** [calculate_progress]: [round((filled / total) * 100, 1)]; the
    division raises on an empty [fields]. *)
Definition calculate_progress (fm : t) : result Q :=
  let total := length (fields fm) in
  let filled := filled_count fm in
  match total with
  | O => Raise ZeroDivisionError
  | S _ =>
      Ok (round1 ((inject_Z (Z.of_nat filled) / inject_Z (Z.of_nat total)) * 100)%Q)
  end.

(** [is_complete]: [all(self.fields.values())] *)
Definition is_complete (fm : t) : bool :=
  forallb truthy (dict_values (fields fm)).

(** [validate_field] *)
Definition validate_field (field_name value : string) : bool :=
  if String.eqb field_name "Priority" &&
     negb (existsb (String.eqb value) ["Low"; "Medium"; "High"; "Critical"])
  then false
  else if negb (str_truthy value) || negb (str_truthy (strip value))
  then false
  else true.

(** [get_schema] *)
Definition get_schema (fm : t) : list schema_entry := FORM_SCHEMA.

(** [reset] *)
Definition reset (fm : t) : t := Make empty_fields_dict.

(** [to_dict]: a copy of [self.fields]. *)
Definition to_dict (fm : t) : dict pyval := fields fm.

(** One iteration of the loop of [from_dict]. *)
Definition from_step (fm : t) (item : string * pyval) : t :=
  let '(field_name, value) := item in
  if dict_contains (fields fm) field_name
  then Make (dict_set (fields fm) field_name value)
  else fm.

(** [from_dict] *)
Definition from_dict (fm : t) (data : dict pyval) : t :=
  fold_left from_step data fm.

(** The invariant of the class: the keys of [fields] are the schema's
    field names, in schema order. *)
Definition schema_keyed (fm : t) : Prop :=
  dict_keys (fields fm) = schema_names.

(** The states a tracker can be in: built by the constructor and changed
    by the methods that write [self.fields]. *)
Inductive reachable : t -> Prop :=
| reach_init : reachable init
| reach_update fm updates : reachable fm -> reachable (fst (update_fields fm updates))
| reach_reset fm : reachable fm -> reachable (reset fm)
| reach_from_dict fm data : reachable fm -> reachable (from_dict fm data).

(** The number of schema fields whose current value is filled, read
    through [get_field]. *)
Definition filled_schema_keys (fm : t) : nat :=
  length (List.filter (fun k => truthy (get_field fm k)) schema_names).

(** [p] is [x] rounded to one decimal place: a whole number of tenths at
    distance at most one twentieth from [x]. *)
Definition rounded_to_tenth (x p : Q) : Prop :=
  (exists t : Z, p = (t # 10)%Q) /\ (x - (1 # 20) <= p <= x + (1 # 20))%Q.

End FieldManager.

(** ** agent/conversation_manager.py *)

Module ConversationManager.

(** One entry of [self.history]. *)
Record entry : Type := Entry {
  role : string;
  content : string;
  timestamp : string;
  action : option string
}.

(** The object state. [max_history] is a number of messages. *)
Record t : Type := Make {
  history : list entry;
  max_history : nat
}.

(** [__init__] *)
Definition init (max_history : nat) : t := Make [] max_history.

(** The default of the constructor's [max_history] argument. *)
Definition default_max_history : nat := 50.

(** [add_message]; [now] is [datetime.now().isoformat()]. *)
Definition add_message (cm : t) (now : string)
    (role content : string) (action : option string) : t :=
  let entry := Entry role content now action in
  let history := history cm ++ [entry] in
  if Nat.ltb (max_history cm) (length history)
  then Make (slice_last (max_history cm) history) (max_history cm)
  else Make history (max_history cm).

(** [get_history] *)
Definition get_history (cm : t) : list entry := history cm.

(** [get_recent] *)
Definition get_recent (cm : t) (n : nat) : list entry :=
  slice_last n (history cm).

(** [clear] *)
Definition clear (cm : t) : t := Make [] (max_history cm).

(** [to_dict] *)
Definition to_dict (cm : t) : list entry := history cm.

(** [from_dict] *)
Definition from_dict (cm : t) (history : list entry) : t :=
  Make (slice_last (max_history cm) history) (max_history cm).

(** An append request: the clock reading and the arguments of
    [add_message]. *)
Record append : Type := Append {
  a_now : string;
  a_role : string;
  a_content : string;
  a_action : option string
}.

(** The entry that an append request adds. *)
Definition entry_of (a : append) : entry :=
  Entry (a_role a) (a_content a) (a_now a) (a_action a).

Definition add (cm : t) (a : append) : t :=
  add_message cm (a_now a) (a_role a) (a_content a) (a_action a).

(** A sequence of appends. *)
Definition add_all (cm : t) (appends : list append) : t :=
  fold_left add appends cm.

(** The states a log can be in: built by the constructor and changed by
    the methods that write [self.history]. *)
Inductive reachable : t -> Prop :=
| reach_init m : reachable (init m)
| reach_add cm now r c a : reachable cm -> reachable (add_message cm now r c a)
| reach_clear cm : reachable cm -> reachable (clear cm)
| reach_from_dict cm h : reachable cm -> reachable (from_dict cm h).

End ConversationManager.

(** ** models/ *)

Module Models.

(** [ActionType] *)
Inductive ActionType : Type :=
| SUGGEST_FIELDS
| UPDATE_FIELD
| SEARCH_RAG
| APPLY_SUGGESTIONS
| SUBMIT_FORM
| CLARIFY
| GENERIC_RESPONSE.

(** [ActionType.value] *)
Definition value (a : ActionType) : string :=
  match a with
  | SUGGEST_FIELDS => "suggest_fields"
  | UPDATE_FIELD => "update_field"
  | SEARCH_RAG => "search_rag"
  | APPLY_SUGGESTIONS => "apply_suggestions"
  | SUBMIT_FORM => "submit_form"
  | CLARIFY => "clarify"
  | GENERIC_RESPONSE => "generic_response"
  end.

(** [ActionType.name] *)
Definition name (a : ActionType) : string :=
  match a with
  | SUGGEST_FIELDS => "SUGGEST_FIELDS"
  | UPDATE_FIELD => "UPDATE_FIELD"
  | SEARCH_RAG => "SEARCH_RAG"
  | APPLY_SUGGESTIONS => "APPLY_SUGGESTIONS"
  | SUBMIT_FORM => "SUBMIT_FORM"
  | CLARIFY => "CLARIFY"
  | GENERIC_RESPONSE => "GENERIC_RESPONSE"
  end.

(** A member inside an f-string. Since Python 3.11 the member of an
    enumeration that mixes in [str] is formatted as the class and member
    name; Python 3.10 and earlier format it as its value. *)
Definition format (a : ActionType) : string := "ActionType." +:+ name a.

(** [AgentDecision] *)
Record AgentDecision : Type := Decision {
  action : ActionType;
  reasoning : string;
  field_name : option string;
  field_value : option string;
  search_query : option string;
  suggested_fields : option (dict string);
  message_to_user : string;
  requires_user_input : bool;
  confidence : Q
}.

(** [ConfirmationDetection] *)
Record ConfirmationDetection : Type := Detection {
  is_confirmation : bool;
  is_rejection : bool;
  is_modification_request : bool;
  cd_confidence : Q;
  cd_reasoning : string;
  extracted_modifications : option (dict string)
}.

End Models.

(** ** The language-model collaborator, at its interface *)

Module Llm.

(** What [call_llm] returns: the texts found at
    [response["candidates"][i]["content"]["parts"][0]["text"]]; a lookup
    that fails on a malformed candidate is a raised exception. A response
    without the ["candidates"] key is the empty list. *)
Definition response : Type := list (result string).

(** One [s.replace(old, new)] scan; [skip] counts the characters of a
    match that are still to be skipped. *)
Fixpoint replace_from (old new : string) (skip : nat) (s : string) : string :=
  match s with
  | EmptyString => EmptyString
  | String c s' =>
      match skip with
      | S k => replace_from old new k s'
      | O =>
          if String.prefix old s
          then new +:+ replace_from old new (String.length old - 1) s'
          else String c (replace_from old new 0 s')
      end
  end.

(** [s.replace(old, new)] for a non-empty [old]. *)
Definition replace (old new s : string) : string := replace_from old new 0 s.

(** [_extract_json], up to [json.loads]: the cleaned text of the first
    candidate. Both classes define it the same way. *)
Definition extract_text (r : response) : result string :=
  match r with
  | c :: _ =>
      text ← c;
      mret (strip (replace "```" "" (replace "```json" "" text)))
  | [] => Raise ValueError
  end.

(** Whether a text is free of backquotes. *)
Fixpoint fence_free (s : string) : bool :=
  match s with
  | EmptyString => true
  | String c s' => negb (Ascii.eqb c "`") && fence_free s'
  end.

End Llm.

(** ** agent/confirmation_handler.py *)

Module ConfirmationHandler.
Import Models.

Section WithParser.

(** [json.loads] of the text followed by the [ConfirmationDetection]
    constructor: parsing and validation of the model's answer, which
    raise on malformed input. *)
Variable parse_detection : string -> result ConfirmationDetection.

(** [_fallback_detection] *)
Definition _fallback_detection (message : string) : ConfirmationDetection :=
  let msg_lower := strip (lower message) in
  let is_conf :=
    any_in ["ok"; "yes"; "yeah"; "sure"; "looks good"; "apply"; "correct"]
           msg_lower in
  let is_rej :=
    any_in ["no"; "nope"; "wrong"; "incorrect"; "don't"; "cancel"]
           msg_lower in
  Detection is_conf is_rej false (7 # 10) "Fallback rule-based detection" None.

(** [detect_confirmation]; [llm] is the outcome of [call_llm]. Any
    exception raised in the [try] block selects the fallback. *)
Definition detect_confirmation (llm : result Llm.response)
    (user_message : string) (pending_suggestions : option (dict string))
  : ConfirmationDetection :=
  try_except
    (response ← llm;
     text ← Llm.extract_text response;
     parse_detection text)
    (_fallback_detection user_message).

End WithParser.

End ConfirmationHandler.

(** ** agent/decision_maker.py *)

Module DecisionMaker.
Import Models.

(** The aggregate state passed to [decide_action]
    ([StudyBotAgent._get_agent_state]). *)
Record agent_state : Type := AgentState {
  st_progress_pct : Q;
  st_filled_fields : dict pyval;
  st_empty_fields : list string;
  st_awaiting_confirmation : bool;
  st_pending_suggestions : option (dict string);
  st_rag_search_performed : bool;
  st_initial_extraction_done : bool
}.

Section WithParser.

(** [json.loads] of the text followed by the [AgentDecision]
    constructor. *)
Variable parse_decision : string -> result AgentDecision.

(** [_fallback_decision] *)
Definition _fallback_decision (message : string) : AgentDecision :=
  Decision CLARIFY "Error processing request" None None None None
    "I'm having trouble understanding. Could you rephrase that?"
    true (3 # 10).

(** [decide_action]; [llm] is the outcome of [call_llm]. *)
Definition decide_action (llm : result Llm.response)
    (user_message : string) (state : agent_state) : AgentDecision :=
  try_except
    (response ← llm;
     text ← Llm.extract_text response;
     parse_decision text)
    (_fallback_decision user_message).

End WithParser.

End DecisionMaker.

(** ** llm_service_session.py *)

Module LLMServiceSession.

(** The data of a bean: the request context that the Decision Engine
    and the Confirmation Classifier attach. *)
Inductive bean : Type :=
| AgentStateBean (agent_state : DecisionMaker.agent_state)
| ConfirmationContextBean (pending_suggestions : option (dict string)).

(** One entry of [self.history]. *)
Record message : Type := Message {
  sender : string;
  content : string;
  m_metadata : dict string;
  timestamp : Q
}.

(** [self.metadata]: the three keys that [__init__] writes and, while a
    bean is attached, the key ["beans"]. *)
Record metadata : Type := Metadata {
  created_at : Q;
  last_updated : Q;
  turn_count : nat;
  beans : option (dict bean)
}.

(** The object state. *)
Record t : Type := Make {
  api_key : string;
  session_id : string;
  history : list message;
  self_metadata : metadata
}.

(** The readings of [time.time()] taken by one [add_message]: for the
    message's timestamp and for ["last_updated"]. *)
Record clock : Type := Clock {
  c_timestamp : Q;
  c_updated : Q
}.

(** [__init__]; [uuid] is [str(uuid.uuid4())], and [now] holds the two
    readings for ["created_at"] and ["last_updated"]. *)
Definition init (api_key : string) (session_id : pyval) (uuid : string)
    (now : clock) : t :=
  let session_id :=
    match session_id with
    | Some s => if str_truthy s then s else uuid
    | None => uuid
    end in
  Make api_key session_id [] (Metadata (c_timestamp now) (c_updated now) 0 None).

(** [add_message] *)
Definition add_message (s : t) (now : clock) (sender content : string)
    (metadata : option (dict string)) : t :=
  let message :=
    Message sender content
      (match metadata with
       | Some d => if dict_truthy d then d else []
       | None => []
       end)
      (c_timestamp now) in
  Make (api_key s) (session_id s) (history s ++ [message])
    (Metadata (created_at (self_metadata s)) (c_updated now)
       (S (turn_count (self_metadata s))) (beans (self_metadata s))).

(** [get_latest_user_message] *)
Definition get_latest_user_message (s : t) : option string :=
  match List.find (fun msg => String.eqb (sender msg) "user") (rev (history s)) with
  | Some msg => Some (content msg)
  | None => None
  end.

(** [attach_bean] *)
Definition attach_bean (s : t) (name : string) (data : bean) : t :=
  let existing :=
    match beans (self_metadata s) with
    | Some b => b
    | None => []
    end in
  Make (api_key s) (session_id s) (history s)
    (Metadata (created_at (self_metadata s)) (last_updated (self_metadata s))
       (turn_count (self_metadata s)) (Some (dict_set existing name data))).

(** [clear_beans] *)
Definition clear_beans (s : t) : t :=
  Make (api_key s) (session_id s) (history s)
    (Metadata (created_at (self_metadata s)) (last_updated (self_metadata s))
       (turn_count (self_metadata s)) None).

(** What one [call_llm] receives from outside: the clock readings of its
    two [add_message] calls, and the outcome of building and calling the
    client, which is the text of the model's answer or an exception. *)
Record call : Type := Call {
  k_sent : clock;
  k_client : result string;
  k_received : clock
}.

(** [call_llm]: the session it leaves and what it returns or raises. The
    request sent to the client is not modelled. *)
Definition call_llm (s : t) (prompt agent : string) (k : call)
  : t * result Llm.response :=
  let s := add_message s (k_sent k) "user" prompt None in
  match k_client k with
  | Ok response_text =>
      let s :=
        add_message s (k_received k) "assistant" response_text
          (Some [("agent", agent); ("model", "gemini-2.5-flash")]) in
      (s, Ok [Ok response_text])
  | Raise e => (s, Raise e)
  end.

(** The dictionary built by [to_checkpoint_dict], by its values; its
    metadata has no ["beans"] key. *)
Record checkpoint : Type := Checkpoint {
  cp_session_id : string;
  cp_history : list message;
  cp_metadata : metadata
}.

(** [to_checkpoint_dict], by the values the dictionary holds when it is
    built. Its ["history"] is the session's own list, not a copy:
    [SessionHeap] below models the sharing. *)
Definition to_checkpoint_dict (s : t) : checkpoint :=
  Checkpoint (session_id s) (history s)
    (Metadata (created_at (self_metadata s)) (last_updated (self_metadata s))
       (turn_count (self_metadata s)) None).

(** [from_checkpoint_dict], by what the new session reads as when it is
    built; the constructor it calls takes a fresh identifier and clock
    readings. The session keeps the checkpoint's own list and
    dictionary, see [SessionHeap]. *)
Definition from_checkpoint_dict (cp : checkpoint) (api_key uuid : string)
    (now : clock) : t :=
  let instance := init api_key (Some (cp_session_id cp)) uuid now in
  Make (LLMServiceSession.api_key instance) (session_id instance)
    (cp_history cp) (cp_metadata cp).

End LLMServiceSession.

(** ** llm_service_session.py, with the objects it shares

    [to_checkpoint_dict] returns [self.history] itself, not a copy, and
    [from_checkpoint_dict] stores the list and the metadata dictionary
    of the checkpoint it is given. Sessions and checkpoints are
    therefore modelled once more as objects that refer to lists and
    dictionaries in a heap; [LLMServiceSession] above describes what one
    such object reads as. *)

Module SessionHeap.
Import LLMServiceSession.

(** The mutable objects: the history lists and the metadata
    dictionaries. A reference is an index. *)
Record heap : Type := Heap {
  lists : list (list message);
  dicts : list metadata
}.

(** A session object: its attributes [history] and [metadata] are
    references. *)
Record session : Type := Session {
  o_api_key : string;
  o_session_id : string;
  o_history : nat;
  o_metadata : nat
}.

(** A checkpoint dictionary in memory. *)
Record checkpoint_dict : Type := CheckpointDict {
  d_session_id : string;
  d_history : nat;
  d_metadata : nat
}.

(** What a session reads as. *)
Definition read (h : heap) (o : session) : option t :=
  l ← lists h !! o_history o;
  m ← dicts h !! o_metadata o;
  Some (Make (o_api_key o) (o_session_id o) l m).

(** [__init__]: a new list and a new dictionary. *)
Definition init (h : heap) (api_key : string) (session_id : pyval)
    (uuid : string) (now : clock) : heap * session :=
  let session_id :=
    match session_id with
    | Some s => if str_truthy s then s else uuid
    | None => uuid
    end in
  (Heap (lists h ++ [[]])
        (dicts h ++ [Metadata (c_timestamp now) (c_updated now) 0 None]),
   Session api_key session_id (length (lists h)) (length (dicts h))).

(** [add_message]: the list and the dictionary are changed in place. *)
Definition add_message (h : heap) (o : session) (now : clock)
    (sender content : string) (metadata : option (dict string)) : heap :=
  let message :=
    Message sender content
      (match metadata with
       | Some d => if dict_truthy d then d else []
       | None => []
       end)
      (c_timestamp now) in
  Heap (alter (fun l => l ++ [message]) (o_history o) (lists h))
       (alter (fun m =>
                 Metadata (created_at m) (c_updated now) (S (turn_count m))
                   (beans m))
              (o_metadata o) (dicts h)).

(** [attach_bean] *)
Definition attach_bean (h : heap) (o : session) (name : string) (data : bean)
  : heap :=
  Heap (lists h)
       (alter (fun m =>
                 Metadata (created_at m) (last_updated m) (turn_count m)
                   (Some (dict_set (match beans m with
                                    | Some b => b
                                    | None => []
                                    end) name data)))
              (o_metadata o) (dicts h)).

(** [clear_beans] *)
Definition clear_beans (h : heap) (o : session) : heap :=
  Heap (lists h)
       (alter (fun m =>
                 Metadata (created_at m) (last_updated m) (turn_count m) None)
              (o_metadata o) (dicts h)).

(** [call_llm] *)
Definition call_llm (h : heap) (o : session) (prompt agent : string) (k : call)
  : heap * result Llm.response :=
  let h := add_message h o (k_sent k) "user" prompt None in
  match k_client k with
  | Ok response_text =>
      let h :=
        add_message h o (k_received k) "assistant" response_text
          (Some [("agent", agent); ("model", "gemini-2.5-flash")]) in
      (h, Ok [Ok response_text])
  | Raise e => (h, Raise e)
  end.

(** [to_checkpoint_dict]: the dictionary comprehension builds a new
    metadata dictionary; ["history"] is [self.history] itself. *)
Definition to_checkpoint_dict (h : heap) (o : session)
  : option (heap * checkpoint_dict) :=
  m ← dicts h !! o_metadata o;
  Some (Heap (lists h)
             (dicts h ++
              [Metadata (created_at m) (last_updated m) (turn_count m) None]),
        CheckpointDict (o_session_id o) (o_history o) (length (dicts h))).

(** [from_checkpoint_dict]: the new instance takes the checkpoint's list
    and dictionary as they are. The list and the dictionary that the
    constructor made are dropped and are not allocated here. *)
Definition from_checkpoint_dict (h : heap) (d : checkpoint_dict)
    (api_key uuid : string) (now : clock) : heap * session :=
  (h,
   Session api_key
     (if str_truthy (d_session_id d) then d_session_id d else uuid)
     (d_history d) (d_metadata d)).

(** [json.dump] of a checkpoint dictionary, as [CheckpointManager.save]
    writes it: the file holds the values. *)
Definition dump (h : heap) (d : checkpoint_dict) : option checkpoint :=
  l ← lists h !! d_history d;
  m ← dicts h !! d_metadata d;
  Some (Checkpoint (d_session_id d) l m).

(** [json.load], as [CheckpointManager.load] reads a file: new objects
    with the file's values. *)
Definition load (h : heap) (file : checkpoint) : heap * checkpoint_dict :=
  (Heap (lists h ++ [cp_history file]) (dicts h ++ [cp_metadata file]),
   CheckpointDict (cp_session_id file) (length (lists h)) (length (dicts h))).

(** A program state: the heap, the sessions that exist and the
    checkpoint files on disk. *)
Record world : Type := World {
  w_heap : heap;
  w_sessions : list session;
  w_files : list checkpoint
}.

(** What the program does to sessions: it constructs them, calls their
    methods, saves their checkpoint to a file, and restores a session
    from a file. *)
Inductive step : world -> world -> Prop :=
| step_init w api_key session_id uuid now :
    step w
      (World (fst (init (w_heap w) api_key session_id uuid now))
         (snd (init (w_heap w) api_key session_id uuid now) :: w_sessions w)
         (w_files w))
| step_add w o now sender content metadata :
    In o (w_sessions w) ->
    step w
      (World (add_message (w_heap w) o now sender content metadata)
         (w_sessions w) (w_files w))
| step_attach w o name data :
    In o (w_sessions w) ->
    step w (World (attach_bean (w_heap w) o name data) (w_sessions w) (w_files w))
| step_clear w o :
    In o (w_sessions w) ->
    step w (World (clear_beans (w_heap w) o) (w_sessions w) (w_files w))
| step_call w o prompt agent k :
    In o (w_sessions w) ->
    step w
      (World (fst (call_llm (w_heap w) o prompt agent k))
         (w_sessions w) (w_files w))
| step_save w o h d file :
    In o (w_sessions w) ->
    to_checkpoint_dict (w_heap w) o = Some (h, d) ->
    dump h d = Some file ->
    step w (World h (w_sessions w) (file :: w_files w))
| step_restore w file api_key uuid now :
    In file (w_files w) ->
    step w
      (World
         (fst (from_checkpoint_dict (fst (load (w_heap w) file))
                 (snd (load (w_heap w) file)) api_key uuid now))
         (snd (from_checkpoint_dict (fst (load (w_heap w) file))
                 (snd (load (w_heap w) file)) api_key uuid now)
          :: w_sessions w)
         (w_files w)).

Definition empty : world := World (Heap [] []) [] [].

(** The states the program reaches. *)
Inductive reachable : world -> Prop :=
| reach_empty : reachable empty
| reach_step w w' : reachable w -> step w w' -> reachable w'.

(** [turn_count] is the length of the history. *)
Definition counted (s : t) : Prop :=
  turn_count (self_metadata s) = length (history s).

(** No two sessions share a list or a dictionary. *)
Definition separate (w : world) : Prop :=
  NoDup (map o_history (w_sessions w)) /\
  NoDup (map o_metadata (w_sessions w)).

(** The invariant of the program's states: the sessions are separate,
    each reads with its messages counted, and so does every file. *)
Definition sound (w : world) : Prop :=
  separate w /\
  (forall o, In o (w_sessions w) ->
             exists s, read (w_heap w) o = Some s /\ counted s) /\
  (forall file, In file (w_files w) ->
                turn_count (cp_metadata file) = length (cp_history file)).

End SessionHeap.

(** ** The model-backed components, with the session they write to

    [DecisionMaker.decide_action] and
    [ConfirmationHandler.detect_confirmation] again, this time with the
    language-model session that both share. *)

Module InSession.
Import Models.
Import LLMServiceSession.

Section WithParsers.

(** The value that [json.loads] returns, [json.loads] itself, and the
    two pydantic constructors applied to its result. *)
Variable json : Type.
Variable loads : string -> result json.
Variable decision_of : json -> result AgentDecision.
Variable detection_of : json -> result ConfirmationDetection.

(** The prompts, as the f-strings render them. *)
Variable _build_decision_prompt : string -> DecisionMaker.agent_state -> string.
Variable confirmation_prompt : string -> option (dict string) -> string.

(** [_extract_json], the same in both classes. *)
Definition _extract_json (response : Llm.response) : result json :=
  text ← Llm.extract_text response;
  loads text.

(** [DecisionMaker.decide_action] *)
Definition decide_action (s : t) (user_message : string)
    (agent_state : DecisionMaker.agent_state) (k : call)
  : t * AgentDecision :=
  let s := attach_bean s "agent_state" (AgentStateBean agent_state) in
  let prompt := _build_decision_prompt user_message agent_state in
  let '(s, outcome) := call_llm s prompt "decision_maker" k in
  match response ← outcome; _extract_json response with
  | Ok decision_json =>
      let s := clear_beans s in
      (s, try_except (decision_of decision_json)
            (DecisionMaker._fallback_decision user_message))
  | Raise _ => (s, DecisionMaker._fallback_decision user_message)
  end.

(** [ConfirmationHandler.detect_confirmation] *)
Definition detect_confirmation (s : t) (user_message : string)
    (pending_suggestions : option (dict string)) (k : call)
  : t * ConfirmationDetection :=
  let s :=
    attach_bean s "confirmation_context"
      (ConfirmationContextBean pending_suggestions) in
  let prompt := confirmation_prompt user_message pending_suggestions in
  let '(s, outcome) := call_llm s prompt "confirmation_detector" k in
  match response ← outcome; _extract_json response with
  | Ok confirmation_json =>
      let s := clear_beans s in
      (s, try_except (detection_of confirmation_json)
            (ConfirmationHandler._fallback_detection user_message))
  | Raise _ => (s, ConfirmationHandler._fallback_detection user_message)
  end.

(** The parsers of the session-free components: [json.loads] followed by
    the constructor. *)
Definition parse_decision (text : string) : result AgentDecision :=
  decision_json ← loads text;
  decision_of decision_json.

Definition parse_detection (text : string) : result ConfirmationDetection :=
  confirmation_json ← loads text;
  detection_of confirmation_json.

End WithParsers.

(** What [call_llm] returns or raises, by the client's outcome. *)
Definition outcome (k : call) : result Llm.response :=
  match k_client k with
  | Ok response_text => Ok [Ok response_text]
  | Raise e => Raise e
  end.

(** Whether the model answered and its answer, cleaned, is JSON. *)
Definition answered_json {json} (loads : string -> result json) (k : call)
  : bool :=
  match response ← outcome k; text ← Llm.extract_text response; loads text with
  | Ok _ => true
  | Raise _ => false
  end.

(** The beans of a session, none when the key is absent. *)
Definition beans_of (s : t) : dict bean :=
  match beans (self_metadata s) with
  | Some b => b
  | None => []
  end.

End InSession.

(** ** services/rag_service.py *)

Module RAGService.

(** The dictionary returned by [search]. *)
Record results : Type := Results {
  found_fields : dict string;
  num_results : nat;
  similar_studies : option (list string);
  error : option string
}.

(** The object state: whether an external client was supplied
    ([self.rag_client] is truthy). *)
Record t : Type := Make {
  rag_client : bool
}.

(** [_get_keywords] *)
Definition _get_keywords (scenario : string) : list string :=
  if String.eqb scenario "degradation"
  then ["yellow"; "degrad"; "weather"; "uv"; "outdoor"; "color"]
  else if String.eqb scenario "gpc"
  then ["gpc"; "molecular weight"; "mw"; "polymer"]
  else if String.eqb scenario "thermal"
  then ["dsc"; "thermal"; "melting"; "crystallin"; "temperature"]
  else if String.eqb scenario "ftir"
  then ["ftir"; "infrared"; "spectroscop"; "functional group"]
  else if String.eqb scenario "nmr"
  then ["nmr"; "nuclear magnetic"; "structure"]
  else if String.eqb scenario "formulation"
  then ["formulation"; "composition"; "blend"; "additive"]
  else [].

Definition _scenario_degradation : results :=
  Results
    [ ("Discipline", "Material Science");
      ("Technique Area", "UV-Vis Spectroscopy");
      ("Study Director", "Dr. Sarah Martinez");
      ("Study Director Site", "Midland");
      ("Sample Type", "Polymer");
      ("Special Instructions", "Test under accelerated UV exposure conditions") ]
    4
    (Some
      [ "Study #12890: Polymer degradation analysis under UV exposure - PE resins";
        "Study #12923: Yellowing investigation in polyethylene films";
        "Study #13001: Outdoor weathering effects on DOWLEX resins";
        "Study #13045: Color stability testing for Arizona climate exposure" ])
    None.

Definition _scenario_gpc : results :=
  Results
    [ ("Discipline", "Separations");
      ("Technique Area", "GPC");
      ("Study Director", "Dr. Emily Carter");
      ("Study Director Site", "Freeport");
      ("Sample Type", "Polymer");
      ("Special Instructions", "Use THF as solvent, measure at 40°C") ]
    3
    (Some
      [ "Study #12345: Molecular weight distribution analysis for polyethylene";
        "Study #12389: GPC analysis for similar HDPE material";
        "Study #12567: MW characterization of branched polymers" ])
    None.

Definition _scenario_thermal : results :=
  Results
    [ ("Discipline", "Material Science");
      ("Technique Area", "DSC");
      ("Study Director", "Dr. Robert Chen");
      ("Study Director Site", "Midland");
      ("Sample Type", "Polymer");
      ("Special Instructions", "Run from -50°C to 200°C at 10°C/min") ]
    5
    (Some
      [ "Study #13201: DSC analysis of polyethylene crystallinity";
        "Study #13245: Thermal properties of LLDPE resins";
        "Study #13289: Melting behavior characterization";
        "Study #13334: Glass transition temperature determination";
        "Study #13401: Thermal stability assessment" ])
    None.

Definition _scenario_ftir : results :=
  Results
    [ ("Discipline", "Material Science");
      ("Technique Area", "FTIR");
      ("Study Director", "Dr. Lisa Anderson");
      ("Study Director Site", "Pittsburg");
      ("Sample Type", "Coating");
      ("Special Instructions", "ATR mode, 4000-600 cm⁻¹ range") ]
    3
    (Some
      [ "Study #13501: FTIR identification of functional groups in coatings";
        "Study #13567: Infrared spectroscopy for quality control";
        "Study #13623: Chemical composition analysis via FTIR" ])
    None.

Definition _scenario_nmr : results :=
  Results
    [ ("Discipline", "Material Science");
      ("Technique Area", "NMR");
      ("Study Director", "Dr. Michael Zhang");
      ("Study Director Site", "Freeport");
      ("Sample Type", "Polymer");
      ("Special Instructions", "1H and 13C NMR in CDCl3") ]
    2
    (Some
      [ "Study #13701: NMR structural characterization of polymers";
        "Study #13789: Branch content determination via NMR" ])
    None.

Definition _scenario_formulation : results :=
  Results
    [ ("Discipline", "Formulation Science");
      ("Technique Area", "HPLC");
      ("Study Director", "Dr. Amanda Foster");
      ("Study Director Site", "Midland");
      ("Sample Type", "Adhesive");
      ("Special Instructions", "Quantify additive concentrations") ]
    4
    (Some
      [ "Study #13901: Additive analysis in polymer formulations";
        "Study #13956: Composition characterization of blends";
        "Study #14002: HPLC method for stabilizer quantification";
        "Study #14078: Formulation reverse engineering" ])
    None.

Definition _scenario_generic : results :=
  Results
    [ ("Discipline", "Material Science");
      ("Technique Area", "Multiple Techniques");
      ("Study Director", "Dr. Jennifer Williams");
      ("Study Director Site", "Midland");
      ("Sample Type", "Unknown") ]
    2
    (Some
      [ "Study #14123: General material characterization";
        "Study #14189: Multi-technique analysis approach" ])
    None.

(** The [scenarios] table of [_mock_search], in its order. *)
Definition scenarios : dict results :=
  [ ("degradation", _scenario_degradation);
    ("gpc", _scenario_gpc);
    ("thermal", _scenario_thermal);
    ("ftir", _scenario_ftir);
    ("nmr", _scenario_nmr);
    ("formulation", _scenario_formulation) ].

(** The loop of [_mock_search]: the first scenario one of whose keywords
    occurs in the query. *)
Fixpoint first_scenario (table : dict results) (query_lower : string)
  : option results :=
  match table with
  | [] => None
  | (keyword, scenario) :: table' =>
      if any_in (_get_keywords keyword) query_lower
      then Some scenario
      else first_scenario table' query_lower
  end.

(** [_mock_search] *)
Definition _mock_search (query : string) : results :=
  let query_lower := lower query in
  match first_scenario scenarios query_lower with
  | Some r => r
  | None => _scenario_generic
  end.

(** [search]: without a client the mock answers ([query.lower()] raises
    on [None]); with a client the body of the [try] returns no results. *)
Definition search (rag : t) (query : pyval) : result results :=
  if negb (rag_client rag)
  then match query with
       | Some q => Ok (_mock_search q)
       | None => Raise AttributeError
       end
  else Ok (Results [] 0 None None).

(** What every answer of the mock has: results, suggested values for
    distinct schema fields, and as many references as results. *)
Definition mock_shaped (r : results) : bool :=
  Nat.ltb 0 (num_results r) &&
  dict_truthy (found_fields r) &&
  bool_decide (NoDup (dict_keys (found_fields r))) &&
  forallb (fun k => existsb (String.eqb k) FieldManager.schema_names)
    (dict_keys (found_fields r)) &&
  match similar_studies r with
  | Some l => Nat.eqb (length l) (num_results r)
  | None => false
  end &&
  match error r with
  | None => true
  | Some _ => false
  end.

End RAGService.

(** ** agent/action_executor.py

    The executor shares the agent's [FieldManager]; its handlers take the
    field state and return it with the response. The agent is modelled
    with [websocket_callback = None], the constructor's default, for
    which [_send_to_ui] returns at once. *)

Module ActionExecutor.
Import Models.

(** The response dictionaries built by the handlers and by the
    orchestrator, with their optional keys. *)
Record response : Type := Response {
  r_type : string;
  r_message : string;
  r_suggestions : option (dict string);
  r_ticket_id : option string;
  r_ticket_data : option (dict pyval);
  r_progress_pct : option Q
}.

(** A response with only ["type"] and ["message"]. *)
Definition plain (type message : string) : response :=
  Response type message None None None None.

(** The bullet lines that the handlers append for each item. *)
Definition bullets {V} (show : V -> string) (d : dict V) : string :=
  fold_left
    (fun message kv => message +:+ "• **" +:+ fst kv +:+ ":** " +:+ show (snd kv) +:+ nl)
    d "".

(** The reference lines for [similar_studies[:2]]. *)
Definition references (studies : option (list string)) : string :=
  match studies with
  | Some l =>
      fold_left (fun message study => message +:+ "• " +:+ study +:+ nl)
        (slice_first 2 l) (nl +:+ "📖 **References:**" +:+ nl)
  | None => ""
  end.

Section Handlers.

Variable rag_service : RAGService.t.

(** [datetime.now().strftime('%Y%m%d-%H%M%S')] at the time of the call. *)
Variable stamp : string.

(** [_execute_suggest_fields] *)
Definition _execute_suggest_fields (decision : AgentDecision)
    (fm : FieldManager.t) : result (response * FieldManager.t) :=
  match suggested_fields decision with
  | Some ((_ :: _) as suggested) =>
      let message :=
        "📝 **I found these values:**" +:+ nl +:+ nl +:+
        bullets id suggested +:+
        nl +:+ "✨ Say **'yes'** to apply, or tell me what to change." in
      Ok (Response "suggestion_pending" message (Some suggested) None None None, fm)
  | _ =>
      Ok (plain "error"
            "No fields extracted. Could you provide them one at a time?", fm)
  end.

(** [_execute_update_field] *)
Definition _execute_update_field (decision : AgentDecision)
    (fm : FieldManager.t) : result (response * FieldManager.t) :=
  match field_name decision, field_value decision with
  | Some name, Some value =>
      if negb (str_truthy name) || negb (str_truthy value)
      then Ok (plain "error" "Couldn't extract field and value", fm)
      else
        let fm := fst (FieldManager.update_fields fm [(name, value)]) in
        progress ← FieldManager.calculate_progress fm;
        let message :=
          "✅ **Updated " +:+ name +:+ ":** " +:+ value +:+ nl +:+
          nl +:+ "📊 **Progress:** " +:+ str_of_float1 progress +:+ "%" in
        let message :=
          if negb (FieldManager.is_complete fm)
          then
            let empty := FieldManager.get_empty_fields fm in
            message +:+ nl +:+ nl +:+ "📝 **Still need:** " +:+
            join ", " (slice_first 3 empty)
          else message in
        mret (plain "field_updated" message, fm)
  | _, _ => Ok (plain "error" "Couldn't extract field and value", fm)
  end.

(** [_execute_search_rag] *)
Definition _execute_search_rag (decision : AgentDecision)
    (fm : FieldManager.t) : result (response * FieldManager.t) :=
  results ← RAGService.search rag_service (search_query decision);
  if Nat.ltb 0 (RAGService.num_results results) &&
     dict_truthy (RAGService.found_fields results)
  then
    let message :=
      "📚 **Found " +:+ str_of_nat (RAGService.num_results results) +:+
      " similar studies!**" +:+ nl +:+ nl +:+
      bullets id (RAGService.found_fields results) +:+
      references (RAGService.similar_studies results) +:+
      nl +:+ "✨ Say **'yes'** to apply these values." in
    mret (Response "suggestion_pending" message
            (Some (RAGService.found_fields results)) None None None, fm)
  else
    mret (plain "no_results"
            "❌ No similar studies found. Please provide field values.", fm).

(** [_execute_submit_form] *)
Definition _execute_submit_form (decision : AgentDecision)
    (fm : FieldManager.t) : result (response * FieldManager.t) :=
  if negb (FieldManager.is_complete fm)
  then
    Ok (plain "incomplete"
          ("⚠️ Form incomplete. Missing: " +:+
           join ", " (FieldManager.get_empty_fields fm)), fm)
  else
    let ticket_id := "STUDY-" +:+ stamp in
    let ticket_data := FieldManager.get_filled_fields fm in
    let message :=
      "🎉 **Study ticket created!**" +:+ nl +:+ nl +:+
      "📋 **Ticket ID:** `" +:+ ticket_id +:+ "`" +:+ nl +:+ nl +:+
      bullets str_of_pyval ticket_data in
    Ok (Response "submitted" message None (Some ticket_id) (Some ticket_data) None,
        fm).

(** [_execute_clarify] *)
Definition _execute_clarify (decision : AgentDecision)
    (fm : FieldManager.t) : result (response * FieldManager.t) :=
  Ok (plain "clarify" (message_to_user decision), fm).

(** [_execute_generic_response] *)
Definition _execute_generic_response (decision : AgentDecision)
    (fm : FieldManager.t) : result (response * FieldManager.t) :=
  let message :=
    if str_truthy (message_to_user decision)
    then message_to_user decision
    else "I'm here to help you create study tickets!" in
  Ok (plain "generic_response" message, fm).

(** [_execute_fallback] *)
Definition _execute_fallback (decision : AgentDecision)
    (fm : FieldManager.t) : result (response * FieldManager.t) :=
  Ok (plain "error" ("Unknown action: " +:+ format (action decision)), fm).

(** [execute]: the [action_map] lookup with [_execute_fallback] as the
    default. *)
Definition execute (decision : AgentDecision) (fm : FieldManager.t)
  : result (response * FieldManager.t) :=
  match action decision with
  | SUGGEST_FIELDS => _execute_suggest_fields decision fm
  | UPDATE_FIELD => _execute_update_field decision fm
  | SEARCH_RAG => _execute_search_rag decision fm
  | SUBMIT_FORM => _execute_submit_form decision fm
  | CLARIFY => _execute_clarify decision fm
  | GENERIC_RESPONSE => _execute_generic_response decision fm
  | APPLY_SUGGESTIONS => _execute_fallback decision fm
  end.

End Handlers.

End ActionExecutor.

(** ** core/config.py *)

Module Config.

Definition MAX_HISTORY : nat := 50.

Definition GREETING : string :=
  "👋 Hello! I'll help you create a study ticket." +:+ nl +:+ nl +:+
  "💬 Tell me about your request - include details like:" +:+ nl +:+
  "• Your name" +:+ nl +:+
  "• What analysis you need" +:+ nl +:+
  "• How urgent it is" +:+ nl +:+
  "• Any other relevant information".

End Config.

(** ** core/studybot_agent.py *)

Module StudyBotAgent.
Import Models.
Import ActionExecutor.

(** [self.session]; the last two keys are written by [_save_checkpoint]. *)
Record session : Type := Session {
  session_id : string;
  created_at : string;
  progress_pct : Q;
  pending_suggestions : option (dict string);
  awaiting_confirmation : bool;
  rag_search_performed : bool;
  initial_extraction_done : bool;
  last_action : option string;
  s_fields : option (dict pyval);
  s_conversation_history : option (list ConversationManager.entry)
}.

(** The checkpoint written by [_save_checkpoint]; the language-model
    session's own state is opaque to the core and left out. *)
Record checkpoint : Type := Checkpoint {
  cp_saved_at : string;
  cp_session_id : string;
  cp_version : string;
  cp_agent_state : session
}.

(** The agent: its session dictionary and the components it owns.
    [auto_rag_queries] is instrumentation: the queries that
    [_auto_trigger_rag] has sent to [rag_service.search], oldest first.
    [saved] is the content of the session's checkpoint file. *)
Record t : Type := Make {
  self_session : session;
  field_manager : FieldManager.t;
  rag_service : RAGService.t;
  conversation : ConversationManager.t;
  auto_rag_queries : list string;
  saved : option checkpoint
}.

Definition set_session (a : t) (s : session) : t :=
  Make s (field_manager a) (rag_service a) (conversation a)
       (auto_rag_queries a) (saved a).

Definition set_field_manager (a : t) (fm : FieldManager.t) : t :=
  Make (self_session a) fm (rag_service a) (conversation a)
       (auto_rag_queries a) (saved a).

Definition set_conversation (a : t) (cm : ConversationManager.t) : t :=
  Make (self_session a) (field_manager a) (rag_service a) cm
       (auto_rag_queries a) (saved a).

(** Writes to single keys of [self.session]. *)
Definition with_progress (s : session) (p : Q) : session :=
  Session (session_id s) (created_at s) p (pending_suggestions s)
    (awaiting_confirmation s) (rag_search_performed s)
    (initial_extraction_done s) (last_action s) (s_fields s)
    (s_conversation_history s).

Definition with_pending (s : session) (p : option (dict string)) : session :=
  Session (session_id s) (created_at s) (progress_pct s) p
    (awaiting_confirmation s) (rag_search_performed s)
    (initial_extraction_done s) (last_action s) (s_fields s)
    (s_conversation_history s).

Definition with_awaiting (s : session) (b : bool) : session :=
  Session (session_id s) (created_at s) (progress_pct s) (pending_suggestions s)
    b (rag_search_performed s)
    (initial_extraction_done s) (last_action s) (s_fields s)
    (s_conversation_history s).

Definition with_rag_performed (s : session) (b : bool) : session :=
  Session (session_id s) (created_at s) (progress_pct s) (pending_suggestions s)
    (awaiting_confirmation s) b
    (initial_extraction_done s) (last_action s) (s_fields s)
    (s_conversation_history s).

Definition with_extraction_done (s : session) (b : bool) : session :=
  Session (session_id s) (created_at s) (progress_pct s) (pending_suggestions s)
    (awaiting_confirmation s) (rag_search_performed s)
    b (last_action s) (s_fields s)
    (s_conversation_history s).

Definition with_last_action (s : session) (a : option string) : session :=
  Session (session_id s) (created_at s) (progress_pct s) (pending_suggestions s)
    (awaiting_confirmation s) (rag_search_performed s)
    (initial_extraction_done s) a (s_fields s)
    (s_conversation_history s).

Definition with_snapshot (s : session) (f : dict pyval)
    (h : list ConversationManager.entry) : session :=
  Session (session_id s) (created_at s) (progress_pct s) (pending_suggestions s)
    (awaiting_confirmation s) (rag_search_performed s)
    (initial_extraction_done s) (last_action s) (Some f) (Some h).

(** The session dictionary built by [__init__]. *)
Definition new_session (session_id now : string) : session :=
  Session session_id now 0 None false false false None None None.

(** [__init__] followed by [_initialize_new_session], when no checkpoint
    exists; [now] is the clock reading. *)
Definition _initialize_new_session (session_id now : string)
    (rag : RAGService.t) : t :=
  Make (new_session session_id now)
       FieldManager.init
       rag
       (ConversationManager.add_message
          (ConversationManager.init Config.MAX_HISTORY) now
          "assistant" Config.GREETING (Some "greeting"))
       [] None.

(** [__init__] followed by [_restore_from_checkpoint]. *)
Definition _restore_from_checkpoint (cp : checkpoint) (rag : RAGService.t)
  : result t :=
  let s := cp_agent_state cp in
  let fm :=
    FieldManager.from_dict FieldManager.init
      (match s_fields s with Some f => f | None => [] end) in
  let cm := ConversationManager.init Config.MAX_HISTORY in
  let cm :=
    match s_conversation_history s with
    | Some h => ConversationManager.from_dict cm h
    | None => cm
    end in
  p ← FieldManager.calculate_progress fm;
  mret (Make (with_progress s p) fm rag cm [] (Some cp)).

(** [_save_checkpoint]; the write to disk is taken to succeed. *)
Definition _save_checkpoint (a : t) (now : string) : t :=
  let s :=
    with_snapshot (self_session a)
      (FieldManager.to_dict (field_manager a))
      (ConversationManager.to_dict (conversation a)) in
  Make s (field_manager a) (rag_service a) (conversation a)
       (auto_rag_queries a)
       (Some (Checkpoint now (session_id s) "2.0" s)).

(** [_get_agent_state] *)
Definition _get_agent_state (a : t) : result DecisionMaker.agent_state :=
  p ← FieldManager.calculate_progress (field_manager a);
  mret (DecisionMaker.AgentState p
          (FieldManager.get_filled_fields (field_manager a))
          (FieldManager.get_empty_fields (field_manager a))
          (awaiting_confirmation (self_session a))
          (pending_suggestions (self_session a))
          (rag_search_performed (self_session a))
          (initial_extraction_done (self_session a))).

(** [confidence > 0.6] *)
Definition above_threshold (c : Q) : bool := negb (Qle_bool c (6 # 10)).

(** The comprehension of [_auto_trigger_rag]: the found fields that are
    not filled yet. *)
Definition new_suggestions_of (fm : FieldManager.t) (found : dict string)
  : dict string :=
  List.filter (fun kv => negb (truthy (FieldManager.get_field fm (fst kv)))) found.

(** [_auto_trigger_rag] *)
Definition _auto_trigger_rag (a : t) : result t :=
  let search_query :=
    match FieldManager.get_field (field_manager a) "Problem" with
    | Some p => if str_truthy p then p else "study request"
    | None => "study request"
    end in
  let a :=
    Make (self_session a) (field_manager a) (rag_service a) (conversation a)
         (auto_rag_queries a ++ [search_query]) (saved a) in
  results ← RAGService.search (rag_service a) (Some search_query);
  if Nat.ltb 0 (RAGService.num_results results) &&
     dict_truthy (RAGService.found_fields results)
  then
    let new_suggestions :=
      new_suggestions_of (field_manager a) (RAGService.found_fields results) in
    if dict_truthy new_suggestions
    then
      let s := with_pending (self_session a) (Some new_suggestions) in
      let s := with_awaiting s true in
      let s := with_rag_performed s true in
      mret (set_session a s)
    else mret a
  else mret a.


Section Flows.

Variable parse_detection : string -> result ConfirmationDetection.
Variable parse_decision : string -> result AgentDecision.

(** [_handle_confirmation_flow]; [llm] is the outcome of the model call
    made by the classifier. *)
Definition _handle_confirmation_flow (a : t) (llm : result Llm.response)
    (message : string) : result (response * t) :=
  let confirmation :=
    ConfirmationHandler.detect_confirmation parse_detection llm message
      (pending_suggestions (self_session a)) in
  if is_confirmation confirmation && above_threshold (cd_confidence confirmation)
  then
    (* CONFIRMATION *)
    pending ← match pending_suggestions (self_session a) with
              | Some p => Ok p
              | None => Raise AttributeError
              end;
    let fm := fst (FieldManager.update_fields (field_manager a) pending) in
    let a := set_field_manager a fm in
    let a := set_session a (with_awaiting (self_session a) false) in
    let a := set_session a (with_pending (self_session a) None) in
    p ← FieldManager.calculate_progress fm;
    let a := set_session a (with_progress (self_session a) p) in
    let response_msg :=
      "✅ **Applied!**" +:+ nl +:+ nl +:+
      bullets str_of_pyval (FieldManager.get_filled_fields fm) +:+
      nl +:+ "📊 **Progress:** " +:+ str_of_float1 p +:+ "%" in
    a ← (if negb (rag_search_performed (self_session a)) &&
            negb (FieldManager.is_complete (field_manager a))
         then _auto_trigger_rag a
         else Ok a);
    mret (Response "apply_suggestions" response_msg None None None
            (Some (progress_pct (self_session a))), a)
  else
    match is_modification_request confirmation,
          extracted_modifications confirmation with
    | true, Some ((_ :: _) as modifications) =>
        (* MODIFICATION *)
        let fm := fst (FieldManager.update_fields (field_manager a) modifications) in
        let a := set_field_manager a fm in
        let a := set_session a (with_awaiting (self_session a) false) in
        let a := set_session a (with_pending (self_session a) None) in
        p ← FieldManager.calculate_progress fm;
        let a := set_session a (with_progress (self_session a) p) in
        let response_msg :=
          "✅ **Updated!**" +:+ nl +:+ nl +:+
          bullets str_of_pyval (FieldManager.get_filled_fields fm) in
        mret (Response "modification" response_msg None None None (Some p), a)
    | _, _ =>
        if is_rejection confirmation
        then
          (* REJECTION *)
          let a := set_session a (with_awaiting (self_session a) false) in
          let a := set_session a (with_pending (self_session a) None) in
          mret (plain "rejection"
                  "No problem! What would you like to do instead?", a)
        else
          (* UNCLEAR *)
          mret (plain "unclear_confirmation"
                  "I'm not sure. Say **'yes'** to apply, **'no'** to cancel, or tell me what to change.",
                a)
    end.

(** [_handle_regular_flow]; [stamp] is the clock reading used for a
    ticket identifier. *)
Definition _handle_regular_flow (a : t) (llm : result Llm.response)
    (stamp message : string) : result (response * t) :=
  agent_state ← _get_agent_state a;
  let decision :=
    DecisionMaker.decide_action parse_decision llm message agent_state in
  let a :=
    set_session a
      (with_last_action (self_session a) (Some (value (action decision)))) in
  '(response, fm) ← execute (rag_service a) stamp decision (field_manager a);
  let a := set_field_manager a fm in
  let a :=
    match suggested_fields decision with
    | Some ((_ :: _) as suggested) =>
        if String.eqb (value (action decision)) "suggest_fields"
        then
          let s := with_pending (self_session a) (Some suggested) in
          let s := with_awaiting s true in
          let s :=
            if negb (initial_extraction_done s)
            then with_extraction_done s true
            else s in
          set_session a s
        else a
    | _ => a
    end in
  mret (response, a).

(** What one call of [handle_message] receives from outside the core:
    the user's text, the outcome of the model call, and the clock
    readings. *)
Record turn : Type := Turn {
  t_message : string;
  t_llm : result Llm.response;
  t_now_user : string;
  t_stamp : string;
  t_now_reply : string;
  t_now_saved : string
}.

(** [handle_message] *)
Definition handle_message (a : t) (i : turn) : result (response * t) :=
  let a :=
    set_conversation a
      (ConversationManager.add_message (conversation a) (t_now_user i)
         "user" (t_message i) None) in
  '(response, a) ←
    (if awaiting_confirmation (self_session a)
     then _handle_confirmation_flow a (t_llm i) (t_message i)
     else _handle_regular_flow a (t_llm i) (t_stamp i) (t_message i));
  let a :=
    set_conversation a
      (ConversationManager.add_message (conversation a) (t_now_reply i)
         "assistant" (r_message response) (last_action (self_session a))) in
  let a := _save_checkpoint a (t_now_saved i) in
  mret (response, a).

(** A session's lifetime: the turns handled one after the other. *)
Fixpoint handle_messages (a : t) (turns : list turn) : result t :=
  match turns with
  | [] => Ok a
  | i :: turns' =>
      '(_, a') ← handle_message a i;
      handle_messages a' turns'
  end.

End Flows.

(** What a confirmed message does to the agent, in terms of the state
    [a] before it and the state [a'] after it. *)
Definition confirmed_outcome (a a' : t) (pending : dict string) : Prop :=
  field_manager a' = fst (FieldManager.update_fields (field_manager a) pending) /\
  conversation a' = conversation a /\
  last_action (self_session a') = last_action (self_session a) /\
  ((rag_search_performed (self_session a) = true \/
    FieldManager.is_complete (field_manager a') = true) ->
   awaiting_confirmation (self_session a') = false /\
   pending_suggestions (self_session a') = None /\
   rag_search_performed (self_session a') = rag_search_performed (self_session a) /\
   auto_rag_queries a' = auto_rag_queries a) /\
  (rag_search_performed (self_session a) = false ->
   FieldManager.is_complete (field_manager a') = false ->
   (exists query, auto_rag_queries a' = auto_rag_queries a ++ [query]) /\
   ((awaiting_confirmation (self_session a') = false /\
     pending_suggestions (self_session a') = None /\
     rag_search_performed (self_session a') = false) \/
    (awaiting_confirmation (self_session a') = true /\
     rag_search_performed (self_session a') = true /\
     exists new,
       new <> [] /\
       pending_suggestions (self_session a') = Some new /\
       forall k v,
         dict_get new k = Some v ->
         truthy (FieldManager.get_field (field_manager a') k) = false))).

(** The session flags agree with each other and with the tracker's
    schema: while a confirmation is awaited there are pending
    suggestions, and otherwise there are none. *)
Definition consistent (a : t) : Prop :=
  FieldManager.schema_keyed (field_manager a) /\
  (awaiting_confirmation (self_session a) = true ->
   exists pending,
     pending_suggestions (self_session a) = Some pending /\ pending <> []) /\
  (awaiting_confirmation (self_session a) = false ->
   pending_suggestions (self_session a) = None).

(** The components are in states that their own methods produce, and the
    log has the configured cap. *)
Definition sound (a : t) : Prop :=
  FieldManager.reachable (field_manager a) /\
  ConversationManager.reachable (conversation a) /\
  ConversationManager.max_history (conversation a) = Config.MAX_HISTORY.

(** The two log entries of a turn: the user's message and the reply,
    tagged with the session's last action. *)
Definition turn_appends (i : turn) (r : response) (a' : t)
  : list ConversationManager.append :=
  [ ConversationManager.Append (t_now_user i) "user" (t_message i) None;
    ConversationManager.Append (t_now_reply i) "assistant" (r_message r)
      (last_action (self_session a')) ].

End StudyBotAgent.

(** ** Concrete sessions

    Inputs on which the orchestrator is run below: a model whose answers
    are the texts ["A1"] and ["A2"], a parser that reads them as the
    decisions they stand for, and a model that is down. *)

Module Scenarios.
Import Models.
Import StudyBotAgent.

(** A SUGGEST_FIELDS decision carrying extracted values. *)
Definition suggest (extracted : dict string) : AgentDecision :=
  Decision SUGGEST_FIELDS "The message contains explicit field values"
    None None None (Some extracted) "I found these values." true (9 # 10).

(** The values that the user states for the five fields that the generic
    retrieval scenario also knows. *)
Definition five_fields : dict string :=
  [ ("Discipline", "Chemistry");
    ("Technique Area", "Titration");
    ("Study Director", "Dr. Ada Young");
    ("Study Director Site", "Leeds");
    ("Sample Type", "Liquid") ].

Definition client_acme : dict string := [("Client", "Acme")].

(** The decisions encoded by the model's answers. *)
Definition answers : dict AgentDecision :=
  [ ("A1", suggest five_fields);
    ("A2", suggest client_acme) ].

Definition parse_decision (text : string) : result AgentDecision :=
  match dict_get answers text with
  | Some d => Ok d
  | None => Raise ValueError
  end.

(** No text parses as a confirmation analysis. *)
Definition parse_detection (text : string) : result ConfirmationDetection :=
  Raise ValueError.

(** A turn in which the model answers with [text]. *)
Definition answered (message text : string) : turn :=
  Turn message (Ok [Ok text]) "t" "20240101-120000" "t" "t".

(** A turn in which the model call times out, so that the rule-based
    fallbacks classify the message. *)
Definition unanswered (message : string) : turn :=
  Turn message (Raise TimeoutError) "t" "20240101-120000" "t" "t".

(** A fresh session with the mock retrieval service. *)
Definition fresh : t :=
  _initialize_new_session "s1" "t0" (RAGService.Make false).

(** Two suggestion cycles: the user states five field values and
    confirms them, then states the client and confirms it. *)
Definition two_confirmations : list turn :=
  [ answered "Chemistry titration for Dr. Ada Young in Leeds, liquid sample" "A1";
    unanswered "yes";
    answered "The client is Acme" "A2";
    unanswered "yes" ].

(** A fresh session in which the suggestion [{"Client": "Acme"}] awaits
    confirmation. *)
Definition awaiting_acme : t :=
  set_session fresh
    (with_awaiting (with_pending (self_session fresh) (Some client_acme)) true).

End Scenarios.

(** * Properties *)

(** ** Dictionaries, slices and rounding *)

Module PyFacts.

Lemma dict_get_set_eq {V} (d : dict V) k v :
  dict_get (dict_set d k v) k = Some v.
Proof.
  induction d as [|[k' v'] d IH]; simpl.
  - now rewrite String.eqb_refl.
  - destruct (String.eqb k' k) eqn:E; simpl.
    + now rewrite String.eqb_refl.
    + now rewrite E.
Qed.

Lemma dict_get_set_ne {V} (d : dict V) k k' v :
  k <> k' -> dict_get (dict_set d k v) k' = dict_get d k'.
Proof.
  intros Hne. induction d as [|[k0 v0] d IH]; simpl.
  - apply String.eqb_neq in Hne. now rewrite Hne.
  - destruct (String.eqb k0 k) eqn:E; simpl.
    + apply String.eqb_eq in E. subst k0.
      apply String.eqb_neq in Hne. now rewrite Hne.
    + now rewrite IH.
Qed.

Lemma dict_contains_In {V} (d : dict V) k :
  dict_contains d k = true <-> In k (dict_keys d).
Proof.
  unfold dict_contains. induction d as [|[k0 v0] d IH]; simpl.
  - split; [discriminate | tauto].
  - destruct (String.eqb k0 k) eqn:E.
    + apply String.eqb_eq in E. tauto.
    + apply String.eqb_neq in E. rewrite IH. split; [tauto | intros [?|?]; tauto].
Qed.

Lemma dict_get_None {V} (d : dict V) k :
  dict_get d k = None <-> ~ In k (dict_keys d).
Proof.
  rewrite <- dict_contains_In. unfold dict_contains.
  destruct (dict_get d k); split; try congruence; intros H; now destruct H.
Qed.

(** Writing an existing key keeps every key at its position. *)
Lemma dict_keys_set_present {V} (d : dict V) k v :
  In k (dict_keys d) -> dict_keys (dict_set d k v) = dict_keys d.
Proof.
  induction d as [|[k0 v0] d IH]; simpl; [tauto|].
  intros H. destruct (String.eqb k0 k) eqn:E; simpl.
  - apply String.eqb_eq in E. now subst.
  - apply String.eqb_neq in E. f_equal. apply IH. destruct H; [congruence | assumption].
Qed.

(** Writing a new key appends it. *)
Lemma dict_keys_set_absent {V} (d : dict V) k v :
  ~ In k (dict_keys d) -> dict_keys (dict_set d k v) = dict_keys d ++ [k].
Proof.
  induction d as [|[k0 v0] d IH]; simpl; [reflexivity|].
  intros H. destruct (String.eqb k0 k) eqn:E; simpl.
  - apply String.eqb_eq in E. tauto.
  - f_equal. apply IH. tauto.
Qed.

Lemma dict_set_wf {V} (d : dict V) k v :
  dict_wf d -> dict_wf (dict_set d k v).
Proof.
  unfold dict_wf. intros Hwf.
  destruct (in_dec string_dec k (dict_keys d)) as [Hin|Hout].
  - now rewrite dict_keys_set_present.
  - rewrite dict_keys_set_absent by assumption.
    apply NoDup_ListNoDup. apply NoDup_ListNoDup in Hwf.
    apply List.NoDup_app; [assumption | repeat constructor; simpl; tauto |].
    intros x Hx [Hk|[]]. now subst.
Qed.

(** In a well-formed dictionary every item is found under its key. *)
Lemma dict_get_item {V} (d : dict V) k v :
  dict_wf d -> In (k, v) d -> dict_get d k = Some v.
Proof.
  unfold dict_wf, dict_keys. induction d as [|[k0 v0] d IH]; simpl; [tauto|].
  intros Hwf Hin. apply NoDup_cons in Hwf as [Hk0 Hwf].
  destruct Hin as [Heq|Hin].
  - injection Heq as -> ->. now rewrite String.eqb_refl.
  - destruct (String.eqb k0 k) eqn:E.
    + apply String.eqb_eq in E. subst k0. exfalso. apply Hk0.
      apply list_elem_of_In. change k with (fst (k, v)). now apply in_map.
    + now apply IH.
Qed.

Lemma dict_get_In {V} (d : dict V) k v :
  dict_get d k = Some v -> In (k, v) d.
Proof.
  induction d as [|[k0 v0] d IH]; simpl; [discriminate|].
  destruct (String.eqb k0 k) eqn:E.
  - apply String.eqb_eq in E. intros [= ->]. left. now subst.
  - intros H. right. now apply IH.
Qed.

(** Two well-formed dictionaries with the same keys in the same order
    and the same value under each key are equal. *)
Lemma dict_ext {V} (d1 d2 : dict V) :
  dict_wf d1 ->
  dict_keys d1 = dict_keys d2 ->
  (forall k, In k (dict_keys d1) -> dict_get d1 k = dict_get d2 k) ->
  d1 = d2.
Proof.
  unfold dict_wf, dict_keys.
  revert d2. induction d1 as [|[k v1] d1 IH]; intros [|[k2 v2] d2]; simpl;
    try discriminate; [reflexivity|].
  intros Hwf [= <- Hkeys] Hget. apply NoDup_cons in Hwf as [Hk Hwf].
  pose proof (Hget k (or_introl eq_refl)) as Hv.
  rewrite String.eqb_refl in Hv. injection Hv as <-.
  f_equal. apply IH; [assumption..|].
  intros k' Hk'. specialize (Hget k' (or_intror Hk')).
  destruct (String.eqb k k') eqn:E; [|assumption].
  apply String.eqb_eq in E. subst k'. exfalso. apply Hk.
  now apply list_elem_of_In.
Qed.

(** Reading every key of a well-formed dictionary yields its values. *)
Lemma dict_values_by_get {V} (d : dict V) (dflt : V) :
  dict_wf d ->
  map (fun k => default dflt (dict_get d k)) (dict_keys d) = dict_values d.
Proof.
  intros Hwf. unfold dict_keys, dict_values. rewrite List.map_map.
  apply List.map_ext_in. intros [k v] Hin. simpl.
  now rewrite (dict_get_item d k v).
Qed.

Lemma length_filter_map {A B} (f : A -> B) (P : B -> bool) (l : list A) :
  length (List.filter P (map f l)) = length (List.filter (fun a => P (f a)) l).
Proof.
  induction l as [|a l IH]; simpl; [reflexivity|].
  destruct (P (f a)); simpl; now rewrite IH.
Qed.

(** *** Slices *)

Lemma slice_last_suffix {A} (n : nat) (l : list A) :
  exists evicted, l = evicted ++ slice_last n l.
Proof.
  destruct n as [|n]; unfold slice_last.
  - now exists [].
  - exists (firstn (length l - S n) l). symmetry. apply List.firstn_skipn.
Qed.

Lemma slice_last_length {A} (n : nat) (l : list A) :
  0 < n -> length (slice_last n l) = Nat.min n (length l).
Proof.
  destruct n as [|n]; [lia|]. intros _. unfold slice_last.
  rewrite length_drop. lia.
Qed.

Lemma slice_last_short {A} (n : nat) (l : list A) :
  length l <= n -> slice_last n l = l.
Proof.
  destruct n as [|n]; [reflexivity|]. intros H. unfold slice_last.
  replace (length l - S n) with 0 by lia. reflexivity.
Qed.

Lemma slice_last_zero {A} (l : list A) : slice_last 0 l = l.
Proof. reflexivity. Qed.

(** *** Rounding *)

Lemma tenths_scale (z : Z) : (z # 10 == inject_Z z * (1 # 10))%Q.
Proof. unfold Qeq, inject_Z. simpl. lia. Qed.

Lemma round1_tenths_near (q : Q) :
  (q * 10 - (1 # 2) <= inject_Z (round1_tenths q) <= q * 10 + (1 # 2))%Q.
Proof.
  unfold round1_tenths.
  pose proof (Qfloor_le (q * 10)) as Hlo.
  pose proof (Qlt_floor (q * 10)) as Hhi.
  rewrite inject_Z_plus in Hhi. change (inject_Z 1) with 1%Q in Hhi.
  set (f := Qfloor (q * 10)) in *.
  destruct (q * 10 - inject_Z f ?= 1 # 2)%Q eqn:E.
  - apply Qeq_alt in E.
    destruct (Z.even f); rewrite ?inject_Z_plus; change (inject_Z 1) with 1%Q;
      split; lra.
  - apply Qlt_alt in E. split; lra.
  - apply Qgt_alt in E. rewrite inject_Z_plus. change (inject_Z 1) with 1%Q.
    split; lra.
Qed.

Lemma round1_near (q : Q) :
  (q - (1 # 20) <= round1 q <= q + (1 # 20))%Q.
Proof.
  unfold round1. rewrite tenths_scale.
  destruct (round1_tenths_near q) as [H1 H2].
  set (z := inject_Z (round1_tenths q)) in *. split; lra.
Qed.

Lemma round1_tenths_range (q : Q) (n : Z) :
  (0 <= q <= inject_Z n)%Q -> (0 <= round1_tenths q <= 10 * n)%Z.
Proof.
  intros [H0 Hn]. unfold round1_tenths.
  pose proof (Qfloor_le (q * 10)) as Hlo.
  pose proof (Qlt_floor (q * 10)) as Hhi.
  assert (Hf0 : (0 <= Qfloor (q * 10))%Z).
  { change 0%Z with (Qfloor 0). apply Qfloor_resp_le. lra. }
  assert (Hfn : (Qfloor (q * 10) <= 10 * n)%Z).
  { rewrite <- (Qfloor_Z (10 * n)). apply Qfloor_resp_le.
    rewrite inject_Z_mult. change (inject_Z 10) with 10%Q. lra. }
  set (f := Qfloor (q * 10)) in *.
  assert (Htop : (0 < q * 10 - inject_Z f)%Q -> f <> (10 * n)%Z).
  { intros Hr ->. rewrite inject_Z_mult in Hr.
    change (inject_Z 10) with 10%Q in Hr. lra. }
  destruct (q * 10 - inject_Z f ?= 1 # 2)%Q eqn:E.
  - apply Qeq_alt in E.
    assert (f <> 10 * n)%Z by (apply Htop; lra).
    destruct (Z.even f); lia.
  - lia.
  - apply Qgt_alt in E.
    assert (f <> 10 * n)%Z by (apply Htop; lra).
    lia.
Qed.

Lemma round1_range (q : Q) :
  (0 <= q <= 100)%Q -> (0 <= round1 q <= 100)%Q.
Proof.
  intros H. destruct (round1_tenths_range q 100 H) as [H0 H1].
  unfold round1. rewrite tenths_scale.
  rewrite Zle_Qle in H0, H1. change (inject_Z 0) with 0%Q in H0.
  change (inject_Z (10 * 100)) with 1000%Q in H1.
  set (z := inject_Z (round1_tenths q)) in *. split; lra.
Qed.

End PyFacts.

(** ** Field Tracker *)

Module FieldManagerFacts.
Import PyFacts.
Import FieldManager.

Lemma schema_names_NoDup : NoDup schema_names.
Proof. apply (bool_decide_unpack _). vm_compute. exact I. Qed.

Lemma schema_size : length schema_names = 12.
Proof. reflexivity. Qed.

Lemma init_schema_keyed : schema_keyed init.
Proof. reflexivity. Qed.

Lemma schema_keyed_wf fm : schema_keyed fm -> dict_wf (fields fm).
Proof. unfold schema_keyed, dict_wf. intros ->. apply schema_names_NoDup. Qed.

(** *** The loop of [from_dict] *)

Lemma from_step_keys fm item :
  dict_keys (fields (from_step fm item)) = dict_keys (fields fm).
Proof.
  destruct item as [k v]. unfold from_step.
  destruct (dict_contains (fields fm) k) eqn:E; [|reflexivity].
  simpl. apply dict_keys_set_present. now apply dict_contains_In.
Qed.

Lemma from_dict_cons fm item data :
  from_dict fm (item :: data) = from_dict (from_step fm item) data.
Proof. reflexivity. Qed.

Lemma from_dict_keys fm data :
  dict_keys (fields (from_dict fm data)) = dict_keys (fields fm).
Proof.
  revert fm.
  induction data as [|item data IH]; intros fm; [reflexivity|].
  rewrite from_dict_cons, IH. apply from_step_keys.
Qed.

(** A key that the snapshot does not mention keeps its value. *)
Lemma from_dict_get_other fm data k :
  ~ In k (dict_keys data) ->
  dict_get (fields (from_dict fm data)) k = dict_get (fields fm) k.
Proof.
  revert fm.
  induction data as [|[k0 v0] data IH]; intros fm Hout; [reflexivity|].
  simpl in Hout. rewrite from_dict_cons, IH by tauto.
  unfold from_step. destruct (dict_contains (fields fm) k0); [|reflexivity].
  simpl. apply dict_get_set_ne. tauto.
Qed.

(** A key of the tracker that the snapshot mentions takes the snapshot's
    value. *)
Lemma from_dict_get_item fm data k v :
  dict_wf data ->
  dict_get data k = Some v ->
  In k (dict_keys (fields fm)) ->
  dict_get (fields (from_dict fm data)) k = Some v.
Proof.
  unfold dict_wf. revert fm.
  induction data as [|[k0 v0] data IH]; intros fm Hwf Hget Hin;
    [discriminate|].
  simpl in Hwf, Hget. apply NoDup_cons in Hwf as [Hk0 Hwf].
  rewrite from_dict_cons.
  destruct (String.eqb k0 k) eqn:E.
  - apply String.eqb_eq in E. subst k0. injection Hget as ->.
    rewrite from_dict_get_other.
    + unfold from_step. apply dict_contains_In in Hin. rewrite Hin. simpl.
      apply dict_get_set_eq.
    + intros H. apply Hk0. now apply list_elem_of_In.
  - apply IH; [assumption..|]. now rewrite from_step_keys.
Qed.

(** A key outside the tracker is never added. *)
Lemma from_dict_get_unknown fm data k :
  ~ In k (dict_keys (fields fm)) ->
  dict_get (fields (from_dict fm data)) k = None.
Proof.
  intros Hout. apply dict_get_None. now rewrite from_dict_keys.
Qed.

(** *** The loop of [update_fields] *)

(** The field state after [update_fields] is that of [from_dict] on the
    same items. *)
Lemma update_fold_fields updates acc :
  fst (fold_left update_step updates acc) =
  from_dict (fst acc) (map (fun kv => (fst kv, Some (snd kv))) updates).
Proof.
  unfold from_dict. revert acc.
  induction updates as [|[k v] updates IH]; intros [fm updated]; simpl;
    [reflexivity|].
  rewrite IH. f_equal.
  destruct (dict_contains (fields fm) k); reflexivity.
Qed.

Lemma update_fields_as_from_dict fm updates :
  fst (update_fields fm updates) =
  from_dict fm (map (fun kv => (fst kv, Some (snd kv))) updates).
Proof. apply update_fold_fields. Qed.

Lemma lifted_keys (updates : dict string) :
  dict_keys (map (fun kv => (fst kv, Some (snd kv))) updates) = dict_keys updates.
Proof. unfold dict_keys. rewrite List.map_map. reflexivity. Qed.

Lemma lifted_get (updates : dict string) k :
  dict_get (map (fun kv => (fst kv, Some (snd kv))) updates) k =
  option_map Some (dict_get updates k).
Proof.
  induction updates as [|[k0 v0] updates IH]; simpl; [reflexivity|].
  destruct (String.eqb k0 k); [reflexivity | assumption].
Qed.

Lemma update_fields_keys fm updates :
  dict_keys (fields (fst (update_fields fm updates))) = dict_keys (fields fm).
Proof. rewrite update_fields_as_from_dict. apply from_dict_keys. Qed.

Lemma update_fields_get fm updates k v :
  dict_wf updates ->
  dict_get updates k = Some v ->
  In k (dict_keys (fields fm)) ->
  get_field (fst (update_fields fm updates)) k = Some v.
Proof.
  intros Hwf Hget Hin. unfold get_field.
  rewrite update_fields_as_from_dict.
  rewrite (from_dict_get_item fm _ k (Some v)); [reflexivity| | |assumption].
  - unfold dict_wf. now rewrite lifted_keys.
  - rewrite lifted_get, Hget. reflexivity.
Qed.

Lemma update_fields_get_other fm updates k :
  ~ In k (dict_keys updates) ->
  get_field (fst (update_fields fm updates)) k = get_field fm k.
Proof.
  intros Hout. unfold get_field. rewrite update_fields_as_from_dict.
  rewrite from_dict_get_other; [reflexivity|]. now rewrite lifted_keys.
Qed.

Lemma get_field_unknown fm k :
  ~ In k (dict_keys (fields fm)) -> get_field fm k = None.
Proof.
  intros H. unfold get_field. apply dict_get_None in H. now rewrite H.
Qed.

(** The returned dictionary never holds a key outside the tracker. *)
Lemma update_fold_updated_unknown updates acc k :
  ~ In k (dict_keys (fields (fst acc))) ->
  dict_get (snd (fold_left update_step updates acc)) k = dict_get (snd acc) k.
Proof.
  revert acc.
  induction updates as [|[k0 v0] updates IH]; intros [fm updated] Hout; simpl in *;
    [reflexivity|].
  destruct (dict_contains (fields fm) k0) eqn:E.
  - rewrite IH; simpl.
    + apply dict_get_set_ne. intros ->. apply Hout. now apply dict_contains_In.
    + rewrite dict_keys_set_present; [assumption|]. now apply dict_contains_In.
  - now rewrite IH.
Qed.

Lemma update_fold_updated_other updates acc k :
  ~ In k (dict_keys updates) ->
  dict_get (snd (fold_left update_step updates acc)) k = dict_get (snd acc) k.
Proof.
  revert acc.
  induction updates as [|[k0 v0] updates IH]; intros [fm updated] Hout; simpl in *;
    [reflexivity|].
  rewrite IH by tauto.
  destruct (dict_contains (fields fm) k0); [|reflexivity].
  simpl. apply dict_get_set_ne. tauto.
Qed.

(** The returned dictionary holds every update whose key the tracker
    has. *)
Lemma update_fold_updated_item updates acc k v :
  dict_wf updates ->
  dict_get updates k = Some v ->
  In k (dict_keys (fields (fst acc))) ->
  dict_get (snd (fold_left update_step updates acc)) k = Some v.
Proof.
  unfold dict_wf. revert acc.
  induction updates as [|[k0 v0] updates IH]; intros [fm updated] Hwf Hget Hin;
    simpl in *; [discriminate|].
  apply NoDup_cons in Hwf as [Hk0 Hwf].
  destruct (String.eqb k0 k) eqn:E.
  - apply String.eqb_eq in E. subst k0. injection Hget as ->.
    apply dict_contains_In in Hin. rewrite Hin.
    rewrite update_fold_updated_other.
    + simpl. apply dict_get_set_eq.
    + intros H. apply Hk0. now apply list_elem_of_In.
  - apply IH; [assumption..|].
    destruct (dict_contains (fields fm) k0) eqn:E0; [|assumption].
    simpl. rewrite dict_keys_set_present; [assumption|].
    now apply dict_contains_In.
Qed.

(** *** Derived views *)

Lemma filled_count_by_schema fm :
  schema_keyed fm -> filled_count fm = filled_schema_keys fm.
Proof.
  intros Hk. unfold filled_count, filled_schema_keys.
  rewrite <- (dict_values_by_get (fields fm) None) by now apply schema_keyed_wf.
  rewrite length_filter_map. rewrite Hk. reflexivity.
Qed.

Lemma filled_schema_keys_le fm : filled_schema_keys fm <= 12.
Proof.
  unfold filled_schema_keys. rewrite <- schema_size. apply List.filter_length_le.
Qed.

Lemma is_complete_by_schema fm :
  schema_keyed fm ->
  is_complete fm = forallb (fun k => truthy (get_field fm k)) schema_names.
Proof.
  intros Hk. unfold is_complete.
  rewrite <- (dict_values_by_get (fields fm) None) by now apply schema_keyed_wf.
  rewrite Hk. unfold dict_values.
  induction schema_names as [|k l IH]; simpl; [reflexivity|].
  now rewrite IH.
Qed.

Lemma schema_keyed_length fm : schema_keyed fm -> length (fields fm) = 12.
Proof.
  intros Hk. rewrite <- schema_size, <- Hk. unfold dict_keys.
  now rewrite List.length_map.
Qed.

(** On a schema-keyed tracker [calculate_progress] returns; its value is
    the exact percentage rounded to one decimal place, between 0 and
    100. *)
Lemma calculate_progress_spec fm :
  schema_keyed fm ->
  exists p,
    calculate_progress fm = Ok p /\
    rounded_to_tenth
      (100 * inject_Z (Z.of_nat (filled_schema_keys fm)) /
       inject_Z (Z.of_nat (length FORM_SCHEMA)))%Q p /\
    (0 <= p <= 100)%Q.
Proof.
  intros Hk. unfold calculate_progress.
  rewrite (schema_keyed_length fm Hk), (filled_count_by_schema fm Hk).
  pose proof (filled_schema_keys_le fm) as Hle.
  set (n := filled_schema_keys fm) in *.
  assert (Hn : (0 <= inject_Z (Z.of_nat n) <= 12)%Q).
  { split.
    - change 0%Q with (inject_Z 0). rewrite <- Zle_Qle. lia.
    - change 12%Q with (inject_Z 12). rewrite <- Zle_Qle. lia. }
  set (x := inject_Z (Z.of_nat n)) in *.
  change (inject_Z (Z.of_nat 12)) with 12%Q.
  change (inject_Z (Z.of_nat (length FORM_SCHEMA))) with 12%Q.
  unfold Qdiv. change (/ 12)%Q with (1 # 12)%Q.
  eexists. split; [reflexivity|]. split.
  - split; [eexists; reflexivity|].
    pose proof (round1_near (x * (1 # 12) * 100)) as [H1 H2].
    destruct Hn. split; lra.
  - apply round1_range. destruct Hn. split; lra.
Qed.

(** *** Ignored keys *)

Lemma update_fold_skip_unknown updates acc k :
  ~ In k (dict_keys (fields (fst acc))) ->
  fold_left update_step
    (List.filter (fun kv => negb (String.eqb (fst kv) k)) updates) acc =
  fold_left update_step updates acc.
Proof.
  revert acc.
  induction updates as [|[k0 v0] updates IH]; intros [fm updated] Hout;
    [reflexivity|].
  simpl in Hout. cbn [List.filter fst].
  destruct (String.eqb k0 k) eqn:E; cbn [negb fold_left].
  - apply String.eqb_eq in E. subst k0.
    rewrite IH by assumption. f_equal. unfold update_step.
    apply dict_get_None in Hout. unfold dict_contains. now rewrite Hout.
  - apply IH. unfold update_step.
    destruct (dict_contains (fields fm) k0) eqn:E0; [|assumption].
    simpl. rewrite dict_keys_set_present; [assumption|].
    now apply dict_contains_In.
Qed.

Lemma from_dict_skip_unknown fm data k :
  ~ In k (dict_keys (fields fm)) ->
  from_dict fm (List.filter (fun kv => negb (String.eqb (fst kv) k)) data) =
  from_dict fm data.
Proof.
  revert fm.
  induction data as [|[k0 v0] data IH]; intros fm Hout; [reflexivity|].
  cbn [List.filter fst].
  destruct (String.eqb k0 k) eqn:E; cbn [negb]; rewrite !from_dict_cons.
  - apply String.eqb_eq in E. subst k0.
    rewrite IH by assumption. f_equal. unfold from_step.
    apply dict_get_None in Hout. unfold dict_contains. now rewrite Hout.
  - apply IH. now rewrite from_step_keys.
Qed.

Lemma reachable_schema_keyed fm : reachable fm -> schema_keyed fm.
Proof.
  unfold schema_keyed. induction 1.
  - reflexivity.
  - now rewrite update_fields_keys.
  - reflexivity.
  - now rewrite from_dict_keys.
Qed.

Lemma dict_get_filter {V} (P : string * V -> bool) (d : dict V) k v :
  dict_get (List.filter P d) k = Some v -> In (k, v) d /\ P (k, v) = true.
Proof.
  intros H. apply dict_get_In in H. now apply List.filter_In in H.
Qed.

(** *** Claims *)

(** C4. For every update mapping [U] whose keys all belong to the schema,
    after [update_fields fm U] every key [k] of [U] reads back [U[k]]
    through [get_field], and [calculate_progress], computed from the
    current field values, returns 100 times the number of filled schema
    fields divided by the schema size, rounded to one decimal place, a
    value between 0 and 100. *)
Theorem update_then_get_and_progress (fm : t) (U : dict string) :
  schema_keyed fm ->
  dict_wf U ->
  (forall k, In k (dict_keys U) -> In k schema_names) ->
  (forall k v,
      dict_get U k = Some v ->
      get_field (fst (update_fields fm U)) k = Some v) /\
  (exists p,
      calculate_progress (fst (update_fields fm U)) = Ok p /\
      rounded_to_tenth
        (100 * inject_Z (Z.of_nat (filled_schema_keys (fst (update_fields fm U)))) /
         inject_Z (Z.of_nat (length FORM_SCHEMA)))%Q p /\
      (0 <= p <= 100)%Q).
Proof.
  intros Hk Hwf Hsub. split.
  - intros k v Hget. apply update_fields_get; [assumption..|].
    rewrite Hk. apply Hsub. apply dict_contains_In.
    unfold dict_contains. now rewrite Hget.
  - apply calculate_progress_spec. unfold schema_keyed.
    now rewrite update_fields_keys.
Qed.

Lemma update_then_get_and_progress_witness :
  (forall k v,
      dict_get [("Client", "Acme"); ("Priority", "High")] k = Some v ->
      get_field
        (fst (update_fields init [("Client", "Acme"); ("Priority", "High")])) k =
      Some v) /\
  (exists p,
      calculate_progress
        (fst (update_fields init [("Client", "Acme"); ("Priority", "High")])) =
      Ok p /\
      rounded_to_tenth
        (100 * inject_Z (Z.of_nat (filled_schema_keys
           (fst (update_fields init [("Client", "Acme"); ("Priority", "High")])))) /
         inject_Z (Z.of_nat (length FORM_SCHEMA)))%Q p /\
      (0 <= p <= 100)%Q).
Proof.
  apply (update_then_get_and_progress init
           [("Client", "Acme"); ("Priority", "High")]).
  - reflexivity.
  - apply (bool_decide_unpack _). vm_compute. exact I.
  - intros k Hin. apply (bool_decide_unpack _).
    simpl in Hin. destruct Hin as [<-|[<-|[]]]; vm_compute; exact I.
Defined.

(** C5. The keys of the tracker's mapping are always exactly the
    schema's field names: the constructor establishes this and
    [update_fields], [reset] and [from_dict] keep it. A key outside the
    schema is ignored by [update_fields] (the call returns, the tracker
    reads the same for that key and is the one obtained without it, and
    the key is absent from the returned dictionary) and is dropped by
    [from_dict]. *)
Theorem schema_keys_invariant (fm : t) :
  reachable fm ->
  schema_keyed fm /\
  (forall U, schema_keyed (fst (update_fields fm U))) /\
  (forall data, schema_keyed (from_dict fm data)) /\
  schema_keyed (reset fm) /\
  (forall U k,
      ~ In k schema_names ->
      get_field (fst (update_fields fm U)) k = get_field fm k /\
      dict_get (snd (update_fields fm U)) k = None /\
      update_fields fm U =
      update_fields fm (List.filter (fun kv => negb (String.eqb (fst kv) k)) U)) /\
  (forall data k,
      ~ In k schema_names ->
      get_field (from_dict fm data) k = None /\
      from_dict fm data =
      from_dict fm (List.filter (fun kv => negb (String.eqb (fst kv) k)) data)).
Proof.
  intros Hr. pose proof (reachable_schema_keyed fm Hr) as Hk.
  split; [assumption|]. split; [|split; [|split; [|split]]].
  - intros U. unfold schema_keyed. now rewrite update_fields_keys.
  - intros data. unfold schema_keyed. now rewrite from_dict_keys.
  - reflexivity.
  - intros U k Hout. rewrite <- Hk in Hout. repeat split.
    + rewrite !get_field_unknown; [reflexivity|assumption|].
      now rewrite update_fields_keys.
    + unfold update_fields. now rewrite update_fold_updated_unknown.
    + unfold update_fields. now rewrite update_fold_skip_unknown.
  - intros data k Hout. rewrite <- Hk in Hout. split.
    + apply get_field_unknown. now rewrite from_dict_keys.
    + now rewrite from_dict_skip_unknown.
Qed.

Lemma schema_keys_invariant_witness :
  schema_keyed (fst (update_fields init [("Nickname", "Bob"); ("Client", "Acme")])) /\
  get_field (fst (update_fields init [("Nickname", "Bob"); ("Client", "Acme")]))
    "Nickname" = None /\
  dict_get (snd (update_fields init [("Nickname", "Bob"); ("Client", "Acme")]))
    "Nickname" = None.
Proof.
  destruct (schema_keys_invariant init reach_init)
    as (_ & Hupd & _ & _ & Hign & _).
  split; [apply Hupd|].
  destruct (Hign [("Nickname", "Bob"); ("Client", "Acme")] "Nickname")
    as (Hget & Hret & _).
  - apply (bool_decide_unpack _). vm_compute. exact I.
  - split; [|exact Hret]. rewrite Hget. reflexivity.
Defined.

(** C10. For every schema field [f], [update_fields] with the empty
    string for [f] is accepted and reports [f] in the returned
    dictionary, and afterwards [f] is absent from [get_filled_fields],
    present in [get_empty_fields], not counted by [calculate_progress],
    and [is_complete] is false. *)
Theorem empty_string_update_is_unset (fm : t) (f : string) :
  schema_keyed fm ->
  In f schema_names ->
  snd (update_fields fm [(f, "")]) = [(f, "")] /\
  get_field (fst (update_fields fm [(f, "")])) f = Some "" /\
  dict_get (get_filled_fields (fst (update_fields fm [(f, "")]))) f = None /\
  In f (get_empty_fields (fst (update_fields fm [(f, "")]))) /\
  filled_count (fst (update_fields fm [(f, "")])) =
    length (List.filter
              (fun k => negb (String.eqb k f) && truthy (get_field fm k))
              schema_names) /\
  (exists p,
      calculate_progress (fst (update_fields fm [(f, "")])) = Ok p /\
      rounded_to_tenth
        (100 * inject_Z (Z.of_nat (length (List.filter
              (fun k => negb (String.eqb k f) && truthy (get_field fm k))
              schema_names))) /
         inject_Z (Z.of_nat (length FORM_SCHEMA)))%Q p) /\
  is_complete (fst (update_fields fm [(f, "")])) = false.
Proof.
  intros Hk Hf.
  assert (Hin : In f (dict_keys (fields fm))) by now rewrite Hk.
  assert (Hwf1 : dict_wf [(f, "")]).
  { unfold dict_wf. simpl. apply NoDup_singleton. }
  assert (Hget : get_field (fst (update_fields fm [(f, "")])) f = Some "").
  { apply update_fields_get; [assumption| |assumption].
    simpl. now rewrite String.eqb_refl. }
  assert (Hk' : schema_keyed (fst (update_fields fm [(f, "")]))).
  { unfold schema_keyed. now rewrite update_fields_keys. }
  assert (Hraw : dict_get (fields (fst (update_fields fm [(f, "")]))) f =
                 Some (Some "")).
  { unfold get_field in Hget.
    destruct (dict_get (fields (fst (update_fields fm [(f, "")]))) f) as [v|] eqn:E;
      [now subst | discriminate]. }
  assert (Hcount :
    filled_schema_keys (fst (update_fields fm [(f, "")])) =
    length (List.filter
              (fun k => negb (String.eqb k f) && truthy (get_field fm k))
              schema_names)).
  { unfold filled_schema_keys. f_equal. apply List.filter_ext. intros k.
    destruct (String.eqb k f) eqn:E.
    - apply String.eqb_eq in E. subst k. now rewrite Hget.
    - rewrite update_fields_get_other; [reflexivity|].
      simpl. apply String.eqb_neq in E. intros [->|[]]. now apply E. }
  split; [|split; [|split; [|split; [|split; [|split]]]]].
  - unfold update_fields. simpl. apply dict_contains_In in Hin. now rewrite Hin.
  - exact Hget.
  - destruct (dict_get (get_filled_fields _) f) as [v|] eqn:E; [|reflexivity].
    apply dict_get_filter in E as [Hitem Htruthy].
    apply (dict_get_item _ _ _ (schema_keyed_wf _ Hk')) in Hitem.
    rewrite Hraw in Hitem. injection Hitem as <-. discriminate.
  - unfold get_empty_fields. apply dict_get_In in Hraw.
    change f with (fst (f, Some "")). apply in_map.
    apply List.filter_In. split; [assumption | reflexivity].
  - now rewrite filled_count_by_schema.
  - destruct (calculate_progress_spec _ Hk') as (p & Hp & Hround & _).
    exists p. split; [assumption|]. now rewrite <- Hcount.
  - rewrite is_complete_by_schema by assumption.
    destruct (forallb _ schema_names) eqn:E; [|reflexivity].
    rewrite List.forallb_forall in E. specialize (E f Hf).
    rewrite Hget in E. discriminate.
Qed.

Lemma empty_string_update_is_unset_witness :
  snd (update_fields init [("Client", "")]) = [("Client", "")] /\
  In "Client" (get_empty_fields (fst (update_fields init [("Client", "")]))) /\
  is_complete (fst (update_fields init [("Client", "")])) = false.
Proof.
  destruct (empty_string_update_is_unset init "Client")
    as (Hret & _ & _ & Hempty & _ & _ & Hcomplete).
  - reflexivity.
  - apply (bool_decide_unpack _). vm_compute. exact I.
  - split; [exact Hret|split; [exact Hempty|exact Hcomplete]].
Defined.

(** *** Views, completion and progress *)

Lemma dict_filter_wf {V} (P : string * V -> bool) (d : dict V) :
  dict_wf d -> dict_wf (List.filter P d).
Proof.
  unfold dict_wf, dict_keys. induction d as [|[k v] d IH]; simpl; [trivial|].
  intros Hwf. apply NoDup_cons in Hwf as [Hk Hwf].
  destruct (P (k, v)); simpl; [|now apply IH].
  apply NoDup_cons. split; [|now apply IH].
  intros Hin. apply Hk. apply list_elem_of_In in Hin. apply list_elem_of_In.
  apply List.in_map_iff in Hin as ([k' v'] & Heq & Hin). simpl in Heq. subst k'.
  apply List.filter_In in Hin as [Hin _].
  change k with (fst (k, v')). now apply in_map.
Qed.

Lemma dict_get_filter_iff {V} (P : string * V -> bool) (d : dict V) k v :
  dict_wf d ->
  dict_get (List.filter P d) k = Some v <->
  dict_get d k = Some v /\ P (k, v) = true.
Proof.
  intros Hwf. split.
  - intros H. apply dict_get_filter in H as [Hin HP].
    split; [now apply dict_get_item | assumption].
  - intros [Hget HP]. apply dict_get_item; [now apply dict_filter_wf|].
    apply List.filter_In. split; [now apply dict_get_In | assumption].
Qed.

Lemma get_field_item fm k v :
  dict_wf (fields fm) -> In (k, v) (fields fm) -> get_field fm k = v.
Proof.
  intros Hwf Hin. unfold get_field. now rewrite (dict_get_item _ k v).
Qed.

(** X1. The two views split the schema: a schema field is listed as empty
    exactly when [get_field] is falsy for it, it is in the filled view,
    with the value [get_field] returns, exactly when that value is
    truthy, and the sizes of the two views add up to the schema's. *)
Theorem filled_and_empty_split_schema (fm : t) :
  schema_keyed fm ->
  (forall k,
      In k (get_empty_fields fm) <->
      In k schema_names /\ truthy (get_field fm k) = false) /\
  (forall k v,
      dict_get (get_filled_fields fm) k = Some v <->
      In k schema_names /\ get_field fm k = v /\ truthy v = true) /\
  length (get_filled_fields fm) + length (get_empty_fields fm) =
    length FORM_SCHEMA.
Proof.
  intros Hk. pose proof (schema_keyed_wf fm Hk) as Hwf.
  pose proof (schema_keyed_length fm Hk) as Hlen.
  unfold schema_keyed in Hk. split; [|split].
  - intros k. unfold get_empty_fields. rewrite List.in_map_iff. split.
    + intros ([k' v] & Heq & Hin). simpl in Heq. subst k'.
      apply List.filter_In in Hin as [Hin Hv]. simpl in Hv. split.
      * rewrite <- Hk. change k with (fst (k, v)). now apply in_map.
      * rewrite (get_field_item fm k v Hwf Hin). now apply negb_true_iff.
    + intros [Hin Hv]. rewrite <- Hk in Hin.
      apply dict_contains_In in Hin. unfold dict_contains in Hin.
      destruct (dict_get (fields fm) k) as [v|] eqn:E; [|discriminate].
      exists (k, v). split; [reflexivity|]. apply List.filter_In.
      split; [now apply dict_get_In|]. simpl.
      unfold get_field in Hv. rewrite E in Hv. now rewrite Hv.
  - intros k v. unfold get_filled_fields. rewrite dict_get_filter_iff by assumption.
    cbn [snd]. unfold get_field. split.
    + intros [Hget Hv]. rewrite Hget. repeat split; [|assumption].
      rewrite <- Hk. apply dict_contains_In. unfold dict_contains. now rewrite Hget.
    + intros (Hin & Hget & Hv). split; [|assumption].
      rewrite <- Hk in Hin. apply dict_contains_In in Hin.
      unfold dict_contains in Hin.
      destruct (dict_get (fields fm) k); [now subst | discriminate].
  - unfold get_filled_fields, get_empty_fields. rewrite List.length_map.
    rewrite (List.filter_length (fun kv => truthy (snd kv)) (fields fm)).
    exact Hlen.
Qed.

Lemma filled_and_empty_split_schema_witness :
  In "Problem"
    (get_empty_fields (fst (update_fields init [("Client", "Acme")]))) /\
  length (get_filled_fields (fst (update_fields init [("Client", "Acme")]))) +
  length (get_empty_fields (fst (update_fields init [("Client", "Acme")]))) =
    length FORM_SCHEMA.
Proof.
  destruct (filled_and_empty_split_schema
              (fst (update_fields init [("Client", "Acme")])))
    as (Hempty & _ & Hsize).
  - reflexivity.
  - split; [|exact Hsize]. apply Hempty. split; [|reflexivity].
    apply (bool_decide_unpack _). vm_compute. exact I.
Defined.

Lemma is_complete_no_empty fm :
  is_complete fm = true <-> get_empty_fields fm = [].
Proof.
  unfold is_complete, get_empty_fields, dict_values.
  induction (fields fm) as [|[k v] d IH]; simpl; [tauto|].
  destruct (truthy v); simpl; [exact IH|]. split; discriminate.
Qed.

Lemma filter_all_length {A} (P : A -> bool) (l : list A) :
  length (List.filter P l) = length l <-> forallb P l = true.
Proof.
  induction l as [|a l IH]; simpl; [tauto|].
  pose proof (List.filter_length_le P l).
  destruct (P a); simpl; [|split; [lia | discriminate]].
  rewrite <- IH. split; lia.
Qed.

(** X2. The tracker is complete exactly when no field is listed as empty,
    and exactly when the progress is 100. *)
Theorem complete_iff_no_empty_iff_full_progress (fm : t) :
  schema_keyed fm ->
  (is_complete fm = true <-> get_empty_fields fm = []) /\
  exists p,
    calculate_progress fm = Ok p /\
    (is_complete fm = true <-> (p == 100)%Q).
Proof.
  intros Hk. split; [apply is_complete_no_empty|].
  destruct (calculate_progress_spec fm Hk) as (p & Hp & [[t ->] [Hlo Hhi]] & _).
  exists (t # 10)%Q. split; [assumption|].
  rewrite (is_complete_by_schema fm Hk).
  rewrite <- filter_all_length. fold (filled_schema_keys fm).
  rewrite schema_size.
  pose proof (filled_schema_keys_le fm) as Hle.
  set (n := filled_schema_keys fm) in *.
  change (inject_Z (Z.of_nat (length FORM_SCHEMA))) with 12%Q in Hlo, Hhi.
  unfold Qdiv in Hlo, Hhi. change (/ 12)%Q with (1 # 12)%Q in Hlo, Hhi.
  rewrite tenths_scale in Hlo, Hhi. rewrite tenths_scale.
  split.
  - intros ->. change (inject_Z (Z.of_nat 12)) with 12%Q in Hlo, Hhi.
    assert (Ht : t = 1000%Z).
    { assert (999 < t)%Z.
      { rewrite Zlt_Qlt. change (inject_Z 999) with 999%Q. lra. }
      assert (t < 1001)%Z.
      { rewrite Zlt_Qlt. change (inject_Z 1001) with 1001%Q. lra. }
      lia. }
    subst t. reflexivity.
  - intros Hfull.
    destruct (Nat.eq_dec n 12) as [|Hne]; [assumption|exfalso].
    assert (Hn : (inject_Z (Z.of_nat n) <= 11)%Q).
    { change 11%Q with (inject_Z 11). rewrite <- Zle_Qle. lia. }
    lra.
Qed.

Lemma complete_iff_no_empty_iff_full_progress_witness :
  (is_complete init = true <-> get_empty_fields init = []) /\
  exists p,
    calculate_progress init = Ok p /\ (is_complete init = true <-> (p == 100)%Q).
Proof.
  apply (complete_iff_no_empty_iff_full_progress init). reflexivity.
Defined.

(** *** How updates compose *)

Lemma dict_set_absent {V} (d : dict V) k v :
  ~ In k (dict_keys d) -> dict_set d k v = d ++ [(k, v)].
Proof.
  induction d as [|[k0 v0] d IH]; simpl; [reflexivity|].
  intros H. destruct (String.eqb k0 k) eqn:E.
  - apply String.eqb_eq in E. tauto.
  - f_equal. apply IH. tauto.
Qed.

Lemma update_fold_returned updates acc :
  dict_wf updates ->
  (forall k, In k (dict_keys updates) -> ~ In k (dict_keys (snd acc))) ->
  snd (fold_left update_step updates acc) =
  snd acc ++
  List.filter (fun kv => dict_contains (fields (fst acc)) (fst kv)) updates.
Proof.
  unfold dict_wf. revert acc.
  induction updates as [|[k v] updates IH]; intros [fm updated] Hwf Hfresh;
    simpl in *; [now rewrite app_nil_r|].
  apply NoDup_cons in Hwf as [Hk Hwf].
  destruct (dict_contains (fields fm) k) eqn:E.
  - rewrite IH; [|assumption|]; simpl.
    + rewrite dict_set_absent by (apply Hfresh; now left).
      rewrite <- app_assoc. simpl. do 2 f_equal.
      apply List.filter_ext. intros [k' v']. simpl. unfold dict_contains.
      destruct (String.eqb_spec k k') as [->|Hne].
      * rewrite dict_get_set_eq. unfold dict_contains in E.
        now destruct (dict_get (fields fm) k').
      * now rewrite dict_get_set_ne.
    + intros k' Hin.
      rewrite dict_set_absent by (apply Hfresh; now left).
      unfold dict_keys. rewrite map_app, in_app_iff. simpl.
      intros [H|[->|[]]].
      * now apply (Hfresh k' (or_intror Hin)).
      * apply Hk. now apply list_elem_of_In.
  - apply IH; [assumption|]. intros k' Hin. apply Hfresh. now right.
Qed.

(** X3. [update_fields] returns exactly the items of the update whose key
    the tracker has, in the update's order, and leaves every field that
    the update does not name as it was. *)
Theorem update_fields_returns_applied_items (fm : t) (U : dict string) :
  dict_wf U ->
  snd (update_fields fm U) =
    List.filter (fun kv => dict_contains (fields fm) (fst kv)) U /\
  (forall k, ~ In k (dict_keys U) ->
             get_field (fst (update_fields fm U)) k = get_field fm k).
Proof.
  intros Hwf. split.
  - unfold update_fields. rewrite update_fold_returned; [reflexivity|assumption|].
    intros k _ [].
  - intros k Hout. now apply update_fields_get_other.
Qed.

Lemma update_fields_returns_applied_items_witness :
  snd (update_fields init [("Nickname", "Bob"); ("Client", "Acme")]) =
    [("Client", "Acme")] /\
  get_field (fst (update_fields init [("Nickname", "Bob"); ("Client", "Acme")]))
    "Problem" = None.
Proof.
  destruct (update_fields_returns_applied_items init
              [("Nickname", "Bob"); ("Client", "Acme")]) as [Hret Hframe].
  - apply (bool_decide_unpack _). vm_compute. exact I.
  - split; [exact Hret|]. rewrite Hframe; [reflexivity|].
    apply (bool_decide_unpack _). vm_compute. exact I.
Defined.

Lemma from_dict_app fm d1 d2 :
  from_dict fm (d1 ++ d2) = from_dict (from_dict fm d1) d2.
Proof. unfold from_dict. apply List.fold_left_app. Qed.

(** X4. Updating with [U1] followed by [U2] in one call is updating with
    [U1] and then with [U2]; and repeating an update changes nothing. *)
Theorem update_fields_compose (fm : t) (U1 U2 U : dict string) :
  dict_wf (fields fm) ->
  dict_wf U ->
  fst (update_fields fm (U1 ++ U2)) =
    fst (update_fields (fst (update_fields fm U1)) U2) /\
  fst (update_fields (fst (update_fields fm U)) U) = fst (update_fields fm U).
Proof.
  intros Hfm HU. split.
  - rewrite !update_fields_as_from_dict, map_app. apply from_dict_app.
  - set (fm1 := fst (update_fields fm U)).
    assert (Hkeys1 : dict_keys (fields fm1) = dict_keys (fields fm))
      by apply update_fields_keys.
    assert (Hfields : fields (fst (update_fields fm1 U)) = fields fm1).
    { apply dict_ext.
      - unfold dict_wf. now rewrite update_fields_keys, Hkeys1.
      - apply update_fields_keys.
      - intros k Hk. rewrite update_fields_keys in Hk.
        destruct (dict_get U k) as [v|] eqn:E.
        + pose proof (update_fields_get fm1 U k v HU E Hk) as H2.
          assert (Hk2 : In k (dict_keys (fields (fst (update_fields fm1 U)))))
            by now rewrite update_fields_keys.
          assert (Hk0 : In k (dict_keys (fields fm))) by now rewrite <- Hkeys1.
          pose proof (update_fields_get fm U k v HU E Hk0) as H1.
          fold fm1 in H1. unfold get_field in H1, H2.
          apply dict_contains_In in Hk, Hk2. unfold dict_contains in Hk, Hk2.
          destruct (dict_get (fields (fst (update_fields fm1 U))) k) eqn:E2;
            destruct (dict_get (fields fm1) k) eqn:E1; congruence.
        + apply dict_get_None in E.
          rewrite !update_fields_as_from_dict.
          rewrite from_dict_get_other; [reflexivity|]. now rewrite lifted_keys. }
    destruct (fst (update_fields fm1 U)) as [d]. destruct fm1 as [d1].
    simpl in Hfields. now subst.
Qed.

Lemma update_fields_compose_witness :
  fst (update_fields init ([("Client", "Acme")] ++ [("Client", "Zenith")])) =
    fst (update_fields (fst (update_fields init [("Client", "Acme")]))
           [("Client", "Zenith")]) /\
  fst (update_fields (fst (update_fields init [("Client", "Acme")]))
         [("Client", "Acme")]) =
    fst (update_fields init [("Client", "Acme")]).
Proof.
  apply (update_fields_compose init [("Client", "Acme")] [("Client", "Zenith")]
           [("Client", "Acme")]).
  - apply (bool_decide_unpack _). vm_compute. exact I.
  - apply (bool_decide_unpack _). vm_compute. exact I.
Defined.

(** *** Progress never drops under non-empty updates *)

Lemma round1_tenths_between (q : Q) :
  (Qfloor (q * 10) <= round1_tenths q <= Qfloor (q * 10) + 1)%Z.
Proof.
  unfold round1_tenths.
  destruct (q * 10 - inject_Z (Qfloor (q * 10)) ?= 1 # 2)%Q; [|lia..].
  destruct (Z.even _); lia.
Qed.

Lemma round1_tenths_mono (x y : Q) :
  (x <= y)%Q -> (round1_tenths x <= round1_tenths y)%Z.
Proof.
  intros Hxy.
  assert (Hf : (Qfloor (x * 10) <= Qfloor (y * 10))%Z)
    by (apply Qfloor_resp_le; lra).
  pose proof (round1_tenths_between x) as Hx.
  pose proof (round1_tenths_between y) as Hy.
  destruct (Z.eq_dec (Qfloor (x * 10)) (Qfloor (y * 10))) as [Heq|Hne]; [|lia].
  clear Hx Hy Hf. unfold round1_tenths. rewrite <- Heq.
  set (f := Qfloor (x * 10)) in *.
  destruct (x * 10 - inject_Z f ?= 1 # 2)%Q eqn:Ex;
    destruct (y * 10 - inject_Z f ?= 1 # 2)%Q eqn:Ey;
    try rewrite <- Qeq_alt in Ex; try rewrite <- Qlt_alt in Ex;
    try rewrite <- Qgt_alt in Ex;
    try rewrite <- Qeq_alt in Ey; try rewrite <- Qlt_alt in Ey;
    try rewrite <- Qgt_alt in Ey;
    first [ lia | destruct (Z.even f); lia | exfalso; lra ].
Qed.

Lemma round1_mono (x y : Q) : (x <= y)%Q -> (round1 x <= round1 y)%Q.
Proof.
  intros H. apply round1_tenths_mono in H. unfold round1.
  rewrite (tenths_scale (round1_tenths x)), (tenths_scale (round1_tenths y)).
  rewrite Zle_Qle in H.
  set (a := inject_Z (round1_tenths x)) in *.
  set (b := inject_Z (round1_tenths y)) in *. lra.
Qed.

(** After [from_dict] a field either reads as before or reads a value
    that the snapshot holds for it. *)
Lemma from_dict_get_cases fm data k :
  dict_get (fields (from_dict fm data)) k = dict_get (fields fm) k \/
  exists v, In (k, v) data /\ dict_get (fields (from_dict fm data)) k = Some v.
Proof.
  revert fm. induction data as [|[k0 v0] data IH]; intros fm; [now left|].
  rewrite from_dict_cons.
  destruct (IH (from_step fm (k0, v0))) as [Hsame|(v & Hin & Hv)].
  - rewrite Hsame. unfold from_step.
    destruct (dict_contains (fields fm) k0) eqn:E; [|now left].
    simpl. destruct (String.eqb_spec k0 k) as [->|Hne].
    + right. exists v0. split; [now left|]. apply dict_get_set_eq.
    + left. now apply dict_get_set_ne.
  - right. exists v. split; [now right | assumption].
Qed.

Lemma filter_length_mono {A} (P Q : A -> bool) (l : list A) :
  (forall a, In a l -> P a = true -> Q a = true) ->
  length (List.filter P l) <= length (List.filter Q l).
Proof.
  induction l as [|a l IH]; intros H; simpl; [lia|].
  assert (IH' : length (List.filter P l) <= length (List.filter Q l)).
  { apply IH. intros b Hb. apply H. now right. }
  pose proof (List.filter_length_le P l).
  destruct (P a) eqn:EP.
  - rewrite (H a (or_introl eq_refl) EP). simpl. lia.
  - destruct (Q a); simpl; lia.
Qed.

(** X5. An update whose values are all non-empty never empties a filled
    field: the number of filled fields and the progress do not drop. *)
Theorem nonempty_update_keeps_progress (fm : t) (U : dict string) :
  schema_keyed fm ->
  (forall k v, In (k, v) U -> v <> "") ->
  filled_schema_keys fm <= filled_schema_keys (fst (update_fields fm U)) /\
  exists p p',
    calculate_progress fm = Ok p /\
    calculate_progress (fst (update_fields fm U)) = Ok p' /\
    (p <= p')%Q.
Proof.
  intros Hk Hne.
  assert (Hcount :
    filled_schema_keys fm <= filled_schema_keys (fst (update_fields fm U))).
  { unfold filled_schema_keys. apply filter_length_mono. intros k _ Hfilled.
    unfold get_field in *. rewrite update_fields_as_from_dict.
    destruct (from_dict_get_cases fm
                (map (fun kv => (fst kv, Some (snd kv))) U) k)
      as [->|(v & Hin & ->)]; [assumption|].
    apply List.in_map_iff in Hin as ([k' s] & [= <- <-] & Hin). simpl.
    unfold str_truthy. apply negb_true_iff. apply String.eqb_neq.
    now apply (Hne k' s). }
  split; [assumption|].
  assert (Hk' : schema_keyed (fst (update_fields fm U))).
  { unfold schema_keyed. now rewrite update_fields_keys. }
  unfold calculate_progress.
  rewrite (schema_keyed_length _ Hk), (schema_keyed_length _ Hk').
  rewrite (filled_count_by_schema _ Hk), (filled_count_by_schema _ Hk').
  eexists. eexists. split; [reflexivity|]. split; [reflexivity|].
  apply round1_mono.
  assert (H : (inject_Z (Z.of_nat (filled_schema_keys fm)) <=
               inject_Z (Z.of_nat (filled_schema_keys (fst (update_fields fm U)))))%Q).
  { rewrite <- Zle_Qle. lia. }
  change (inject_Z (Z.of_nat 12)) with 12%Q.
  unfold Qdiv. change (/ 12)%Q with (1 # 12)%Q.
  set (a := inject_Z (Z.of_nat (filled_schema_keys fm))) in *.
  set (b := inject_Z (Z.of_nat (filled_schema_keys (fst (update_fields fm U))))) in *.
  lra.
Qed.

Lemma nonempty_update_keeps_progress_witness :
  filled_schema_keys (fst (update_fields init [("Client", "Acme")])) <=
  filled_schema_keys
    (fst (update_fields (fst (update_fields init [("Client", "Acme")]))
            [("Client", "Zenith"); ("Priority", "High")])).
Proof.
  apply (nonempty_update_keeps_progress
           (fst (update_fields init [("Client", "Acme")]))
           [("Client", "Zenith"); ("Priority", "High")]).
  - reflexivity.
  - intros k v [[= <- <-]|[[= <- <-]|[]]]; discriminate.
Defined.

(** *** [validate_field] *)

Lemma strip_empty_of_empty v : str_truthy v = false -> str_truthy (strip v) = false.
Proof.
  unfold str_truthy. intros H. apply negb_false_iff in H.
  apply String.eqb_eq in H. now subst.
Qed.

(** [validate_field] accepts an ASCII value exactly when it has a
    character that is not white space and, for the field "Priority", is
    one of the four levels, spelled exactly. *)
Theorem validate_field_accepts (field_name value : string) :
  isascii value = true ->
  (validate_field field_name value = true <->
   strip value <> "" /\
   (field_name = "Priority" ->
    In value ["Low"; "Medium"; "High"; "Critical"])).
Proof.
  intros _. unfold validate_field.
  assert (Hlevels :
    existsb (String.eqb value) ["Low"; "Medium"; "High"; "Critical"] = true <->
    In value ["Low"; "Medium"; "High"; "Critical"]).
  { rewrite List.existsb_exists. split.
    - intros (x & Hin & Hx). apply String.eqb_eq in Hx. now subst.
    - intros Hin. exists value. split; [assumption | apply String.eqb_refl]. }
  assert (Hblank :
    negb (str_truthy value) || negb (str_truthy (strip value)) = false <->
    strip value <> "").
  { destruct (str_truthy value) eqn:Ev; simpl.
    - unfold str_truthy. rewrite negb_involutive.
      split; intros H.
      + now apply String.eqb_neq.
      + now apply String.eqb_neq.
    - apply strip_empty_of_empty in Ev. unfold str_truthy in Ev.
      apply negb_false_iff, String.eqb_eq in Ev.
      split; [intros H; discriminate H | intros H; now destruct H]. }
  destruct (String.eqb_spec field_name "Priority") as [->|Hne]; cbn [andb].
  - destruct (existsb _ _) eqn:Eex; cbn [negb].
    + destruct (negb (str_truthy value) || negb (str_truthy (strip value))) eqn:Eb.
      * split; [intros H; discriminate H|]. intros [H _].
        apply Hblank in H. discriminate H.
      * split; [|reflexivity]. intros _. split; [now apply Hblank|].
        intros _. now apply Hlevels.
    + split; [intros H; discriminate H|]. intros [_ H]. specialize (H eq_refl).
      apply Hlevels in H. discriminate H.
  - destruct (negb (str_truthy value) || negb (str_truthy (strip value))) eqn:Eb.
    + split; [intros H; discriminate H|]. intros [H _].
      apply Hblank in H. discriminate H.
    + split; [|reflexivity]. intros _. split; [now apply Hblank|]. congruence.
Qed.

End FieldManagerFacts.

(** ** Conversation Log *)

Module ConversationManagerFacts.
Import PyFacts.
Import ConversationManager.

Lemma add_message_cap cm now r c a :
  max_history (add_message cm now r c a) = max_history cm.
Proof. unfold add_message. now destruct (Nat.ltb _ _). Qed.

Lemma add_all_cap cm appends :
  max_history (add_all cm appends) = max_history cm.
Proof.
  unfold add_all. revert cm.
  induction appends as [|x appends IH]; intros cm; simpl; [reflexivity|].
  rewrite IH. apply add_message_cap.
Qed.

(** One append keeps a suffix of the extended log. *)
Lemma add_message_suffix cm now r c a :
  exists evicted,
    history cm ++ [Entry r c now a] =
    evicted ++ history (add_message cm now r c a).
Proof.
  unfold add_message. destruct (Nat.ltb _ _); simpl.
  - apply slice_last_suffix.
  - now exists [].
Qed.

(** With a positive cap, one append leaves the shorter of the cap and
    the extended log. *)
Lemma add_message_length cm now r c a :
  0 < max_history cm ->
  length (history (add_message cm now r c a)) =
  Nat.min (max_history cm) (S (length (history cm))).
Proof.
  intros Hpos. unfold add_message.
  destruct (Nat.ltb_spec (max_history cm) (length (history cm ++ [Entry r c now a])))
    as [Hlt|Hge]; simpl.
  - rewrite slice_last_length by assumption. rewrite length_app. simpl. lia.
  - rewrite length_app in *. simpl in *. lia.
Qed.

(** With a positive cap, the log stays within the cap along every
    sequence of appends, holds as many entries as fit, and what survives
    is the most recent part of the extended log in its order: only
    entries at the front are evicted. *)
Lemma add_all_within_cap cm appends :
  0 < max_history cm ->
  length (history cm) <= max_history cm ->
  length (history (add_all cm appends)) <= max_history cm /\
  length (history (add_all cm appends)) =
    Nat.min (max_history cm) (length (history cm) + length appends) /\
  exists evicted,
    history cm ++ map entry_of appends =
    evicted ++ history (add_all cm appends).
Proof.
  unfold add_all. revert cm.
  induction appends as [|x appends IH]; intros cm Hpos Hlen; simpl.
  - split; [assumption|]. split; [lia|]. exists []. now rewrite app_nil_r.
  - pose proof (add_message_length cm (a_now x) (a_role x) (a_content x)
                  (a_action x) Hpos) as Hstep.
    destruct (add_message_suffix cm (a_now x) (a_role x) (a_content x) (a_action x))
      as [ev0 Hev0].
    destruct (IH (add cm x)) as (Hle & Heq & ev1 & Hev1).
    + unfold add. now rewrite add_message_cap.
    + unfold add. rewrite add_message_cap, Hstep. lia.
    + unfold add in *. rewrite add_message_cap in *.
      split; [assumption|]. split.
      * rewrite Heq, Hstep. lia.
      * exists (ev0 ++ ev1). rewrite <- app_assoc, <- Hev1, app_assoc, <- Hev0.
        rewrite <- app_assoc. reflexivity.
Qed.

(** With a positive cap, [from_dict] keeps the most recent entries, at
    most as many as the cap. *)
Lemma from_dict_within_cap cm h :
  0 < max_history cm ->
  length (history (from_dict cm h)) = Nat.min (max_history cm) (length h) /\
  exists dropped, h = dropped ++ history (from_dict cm h).
Proof.
  intros Hpos. unfold from_dict. simpl. split.
  - now apply slice_last_length.
  - apply slice_last_suffix.
Qed.

(** A cap of zero is never enforced: the slice [history[-0:]] is the
    whole list, so every append is kept. *)
Lemma add_all_cap_zero cm appends :
  max_history cm = 0 ->
  history (add_all cm appends) = history cm ++ map entry_of appends.
Proof.
  unfold add_all. revert cm.
  induction appends as [|x appends IH]; intros cm Hzero; simpl.
  - now rewrite app_nil_r.
  - rewrite IH.
    + unfold add, add_message. rewrite Hzero.
      destruct (Nat.ltb _ _); simpl; now rewrite <- app_assoc.
    + unfold add. now rewrite add_message_cap.
Qed.

(** Every reachable log either has the cap zero or is within its cap. *)
Lemma reachable_bounded cm :
  reachable cm ->
  max_history cm = 0 \/ length (history cm) <= max_history cm.
Proof.
  induction 1 as [m|cm now r c a Hr IH|cm Hr IH|cm h Hr IH]; simpl.
  - right. lia.
  - rewrite add_message_cap.
    destruct (Nat.eq_dec (max_history cm) 0) as [Hz|Hnz]; [now left|right].
    rewrite add_message_length by lia. lia.
  - right. lia.
  - destruct (Nat.eq_dec (max_history cm) 0) as [Hz|Hnz]; [now left|right].
    rewrite slice_last_length by lia. lia.
Qed.

(** *** Claims *)

(** C6. The log's length never exceeds its configured cap after any
    append. The code breaks this for the cap 0: after one append to an
    empty log with [max_history = 0] the log holds one entry, after
    three appends three, and [from_dict] restores two entries. *)
Theorem cap_zero_not_enforced :
  let a1 := Append "t1" "user" "hello" None in
  let a2 := Append "t2" "assistant" "hi" (Some "generic_response") in
  let a3 := Append "t3" "user" "bye" None in
  max_history (add (init 0) a1) = 0 /\
  length (history (add (init 0) a1)) = 1 /\
  length (history (add_all (init 0) [a1; a2; a3])) = 3 /\
  length (history (from_dict (init 0) [entry_of a1; entry_of a2])) = 2.
Proof. repeat split. Qed.

(** *** Further properties of the log *)

Lemma suffix_is_slice_last {A} (n : nat) (l evicted kept : list A) :
  0 < n ->
  l = evicted ++ kept ->
  length kept = Nat.min n (length l) ->
  kept = slice_last n l.
Proof.
  intros Hpos -> Hlen. destruct n as [|n]; [lia|]. unfold slice_last.
  rewrite length_app in *.
  replace (length evicted + length kept - S n) with (length evicted) by lia.
  now rewrite drop_app_length.
Qed.

(** X6. With a positive cap, after any sequence of appends to a log that is
    within its cap, the log is exactly the most recent entries, as many
    as the cap allows, in their order. *)
Theorem log_keeps_most_recent (cm : t) (appends : list append) :
  0 < max_history cm ->
  length (history cm) <= max_history cm ->
  history (add_all cm appends) =
    slice_last (max_history cm) (history cm ++ map entry_of appends) /\
  length (history (add_all cm appends)) =
    Nat.min (max_history cm) (length (history cm) + length appends).
Proof.
  intros Hpos Hlen.
  destruct (add_all_within_cap cm appends Hpos Hlen) as (_ & Heq & evicted & Hev).
  split; [|assumption].
  apply (suffix_is_slice_last _ _ evicted); [assumption..|].
  rewrite Heq, length_app, length_map. reflexivity.
Qed.

Lemma log_keeps_most_recent_witness :
  history
    (add_all (init 2)
       [ Append "t1" "user" "a" None; Append "t2" "assistant" "b" None;
         Append "t3" "user" "c" None ]) =
  [ Entry "assistant" "b" "t2" None; Entry "user" "c" "t3" None ].
Proof.
  destruct (log_keeps_most_recent (init 2)
              [ Append "t1" "user" "a" None; Append "t2" "assistant" "b" None;
                Append "t3" "user" "c" None ]) as [H _].
  - simpl. lia.
  - simpl. lia.
  - exact H.
Defined.

(** With a positive cap, [from_dict] restores the most recent entries of
    the snapshot, as many as the cap allows. *)
Theorem from_dict_keeps_most_recent (cm : t) (snapshot : list entry) :
  0 < max_history cm ->
  length (history (from_dict cm snapshot)) =
    Nat.min (max_history cm) (length snapshot) /\
  (exists dropped, snapshot = dropped ++ history (from_dict cm snapshot)) /\
  (length snapshot <= max_history cm -> history (from_dict cm snapshot) = snapshot).
Proof.
  intros Hpos. destruct (from_dict_within_cap cm snapshot Hpos) as [Hlen Hsuf].
  repeat split; [assumption..|]. intros Hshort. now apply slice_last_short.
Qed.

Lemma from_dict_keeps_most_recent_witness :
  length
    (history (from_dict (init 1)
                [Entry "user" "a" "t1" None; Entry "assistant" "b" "t2" None])) =
  1.
Proof.
  destruct (from_dict_keeps_most_recent (init 1)
              [Entry "user" "a" "t1" None; Entry "assistant" "b" "t2" None])
    as [H _].
  - simpl. lia.
  - exact H.
Defined.

(** With the cap zero nothing is ever evicted: after any sequence of
    appends the log holds every entry, and [from_dict] restores the whole
    snapshot. *)
Theorem cap_zero_keeps_everything
    (cm : t) (appends : list append) (snapshot : list entry) :
  max_history cm = 0 ->
  history (add_all cm appends) = history cm ++ map entry_of appends /\
  history (from_dict cm snapshot) = snapshot.
Proof.
  intros Hzero. split; [now apply add_all_cap_zero|].
  unfold from_dict. rewrite Hzero. reflexivity.
Qed.

Lemma cap_zero_keeps_everything_witness :
  length (history (add_all (init 0)
                     [Append "t1" "user" "a" None; Append "t2" "user" "b" None])) =
  2.
Proof.
  destruct (cap_zero_keeps_everything (init 0)
              [Append "t1" "user" "a" None; Append "t2" "user" "b" None] [])
    as [H _].
  - reflexivity.
  - rewrite H. reflexivity.
Defined.

(** X7. [get_recent n] returns the last [n] entries in their order, all of
    them when the log is shorter; [get_recent 0] returns the whole log,
    not the empty list. *)
Theorem get_recent_returns_tail (cm : t) (n : nat) :
  (0 < n ->
   length (get_recent cm n) = Nat.min n (length (history cm)) /\
   exists older, history cm = older ++ get_recent cm n) /\
  get_recent cm 0 = history cm.
Proof.
  split; [|reflexivity]. intros Hpos. unfold get_recent. split.
  - now apply slice_last_length.
  - apply slice_last_suffix.
Qed.

Lemma get_recent_returns_tail_witness :
  length (get_recent
            (add_all (init 50)
               [Append "t1" "user" "a" None; Append "t2" "user" "b" None]) 1) =
  1.
Proof.
  destruct (get_recent_returns_tail
              (add_all (init 50)
                 [Append "t1" "user" "a" None; Append "t2" "user" "b" None]) 1)
    as [H _].
  destruct H as [Hlen _].
  - lia.
  - exact Hlen.
Defined.

(** X8. Whatever the constructor, [add_message], [clear] and [from_dict]
    have done, a log with a positive cap is within its cap. *)
Theorem reachable_log_within_positive_cap (cm : t) :
  reachable cm ->
  0 < max_history cm ->
  length (history cm) <= max_history cm.
Proof.
  intros Hr Hpos. destruct (reachable_bounded cm Hr); lia.
Qed.

Lemma reachable_log_within_positive_cap_witness :
  length (history (from_dict (clear (add_message (init 1) "t" "user" "a" None))
                     [Entry "user" "a" "t1" None; Entry "user" "b" "t2" None])) <=
  1.
Proof.
  apply (reachable_log_within_positive_cap
           (from_dict (clear (add_message (init 1) "t" "user" "a" None))
              [Entry "user" "a" "t1" None; Entry "user" "b" "t2" None])).
  - apply reach_from_dict, reach_clear, reach_add, reach_init.
  - simpl. lia.
Defined.

End ConversationManagerFacts.

(** ** Checkpoint snapshots *)

Module SnapshotFacts.
Import PyFacts.

Lemma field_manager_round_trip (fm target : FieldManager.t) :
  FieldManager.schema_keyed fm ->
  FieldManager.schema_keyed target ->
  FieldManager.from_dict target (FieldManager.to_dict fm) = fm.
Proof.
  intros Hfm Htarget. unfold FieldManager.to_dict.
  pose proof (FieldManagerFacts.from_dict_keys target (FieldManager.fields fm))
    as Hkeys.
  assert (Hfields : FieldManager.fields
                      (FieldManager.from_dict target (FieldManager.fields fm)) =
                    FieldManager.fields fm).
  { apply dict_ext.
    - unfold dict_wf. rewrite Hkeys, Htarget.
      apply FieldManagerFacts.schema_names_NoDup.
    - rewrite Hkeys. unfold FieldManager.schema_keyed in *. congruence.
    - intros k Hk. rewrite Hkeys in Hk.
      assert (Hin : In k (dict_keys (FieldManager.fields fm))).
      { unfold FieldManager.schema_keyed in *. congruence. }
      apply dict_contains_In in Hin. unfold dict_contains in Hin.
      destruct (dict_get (FieldManager.fields fm) k) as [v|] eqn:E;
        [|discriminate].
      apply FieldManagerFacts.from_dict_get_item;
        [now apply FieldManagerFacts.schema_keyed_wf|assumption..]. }
  destruct (FieldManager.from_dict target (FieldManager.fields fm)) as [d].
  destruct fm as [d0]. simpl in Hfields. now subst.
Qed.

Lemma conversation_round_trip (cm target : ConversationManager.t) :
  ConversationManager.reachable cm ->
  ConversationManager.max_history target = ConversationManager.max_history cm ->
  ConversationManager.from_dict target (ConversationManager.to_dict cm) = cm.
Proof.
  intros Hr Hcap. unfold ConversationManager.from_dict, ConversationManager.to_dict.
  rewrite Hcap.
  assert (Hsame : slice_last (ConversationManager.max_history cm)
                    (ConversationManager.history cm) =
                  ConversationManager.history cm).
  { destruct (ConversationManagerFacts.reachable_bounded cm Hr) as [Hz|Hle].
    - rewrite Hz. apply slice_last_zero.
    - now apply slice_last_short. }
  rewrite Hsame. now destruct cm.
Qed.

(** C7. For every reachable Field Tracker and every reachable
    Conversation Log, [from_dict] applied to the output of [to_dict]
    reproduces the component: the restored tracker has the same value for
    every schema field, and the restored log has the same entries in the
    same order. The tracker is restored into any reachable tracker (a
    fresh one at restart), the log into a log built with the same cap. *)
Theorem snapshot_round_trip
    (fm fm0 : FieldManager.t) (cm cm0 : ConversationManager.t) :
  FieldManager.reachable fm ->
  FieldManager.reachable fm0 ->
  ConversationManager.reachable cm ->
  ConversationManager.max_history cm0 = ConversationManager.max_history cm ->
  FieldManager.from_dict fm0 (FieldManager.to_dict fm) = fm /\
  (forall k,
      FieldManager.get_field
        (FieldManager.from_dict fm0 (FieldManager.to_dict fm)) k =
      FieldManager.get_field fm k) /\
  ConversationManager.from_dict cm0 (ConversationManager.to_dict cm) = cm /\
  ConversationManager.history
    (ConversationManager.from_dict cm0 (ConversationManager.to_dict cm)) =
  ConversationManager.history cm.
Proof.
  intros Hfm Hfm0 Hcm Hcap.
  assert (H1 : FieldManager.from_dict fm0 (FieldManager.to_dict fm) = fm).
  { apply field_manager_round_trip;
      now apply FieldManagerFacts.reachable_schema_keyed. }
  assert (H2 : ConversationManager.from_dict cm0 (ConversationManager.to_dict cm) = cm).
  { now apply conversation_round_trip. }
  rewrite H1, H2. repeat split.
Qed.

Lemma snapshot_round_trip_witness :
  let fm := fst (FieldManager.update_fields FieldManager.init [("Client", "Acme")]) in
  let cm :=
    ConversationManager.add_message (ConversationManager.init 2) "t1"
      "user" "hello" None in
  FieldManager.from_dict FieldManager.init (FieldManager.to_dict fm) = fm /\
  ConversationManager.history
    (ConversationManager.from_dict (ConversationManager.init 2)
       (ConversationManager.to_dict cm)) =
  ConversationManager.history cm.
Proof.
  intros fm cm.
  destruct (snapshot_round_trip fm FieldManager.init cm (ConversationManager.init 2))
    as (Hfm & _ & _ & Hcm).
  - apply FieldManager.reach_update, FieldManager.reach_init.
  - apply FieldManager.reach_init.
  - apply ConversationManager.reach_add, ConversationManager.reach_init.
  - reflexivity.
  - split; [exact Hfm | exact Hcm].
Defined.

(** The orchestrator's checkpoint: restoring the checkpoint written by
    [_save_checkpoint] returns an agent with the same tracker, the same
    log and the same pending state. *)
Lemma restore_after_save (a : StudyBotAgent.t) (now : string) :
  FieldManager.reachable (StudyBotAgent.field_manager a) ->
  ConversationManager.reachable (StudyBotAgent.conversation a) ->
  ConversationManager.max_history (StudyBotAgent.conversation a) =
    Config.MAX_HISTORY ->
  exists cp a',
    StudyBotAgent.saved (StudyBotAgent._save_checkpoint a now) = Some cp /\
    StudyBotAgent._restore_from_checkpoint cp (StudyBotAgent.rag_service a) =
      Ok a' /\
    StudyBotAgent.field_manager a' = StudyBotAgent.field_manager a /\
    StudyBotAgent.conversation a' = StudyBotAgent.conversation a /\
    StudyBotAgent.pending_suggestions (StudyBotAgent.self_session a') =
      StudyBotAgent.pending_suggestions (StudyBotAgent.self_session a) /\
    StudyBotAgent.awaiting_confirmation (StudyBotAgent.self_session a') =
      StudyBotAgent.awaiting_confirmation (StudyBotAgent.self_session a) /\
    StudyBotAgent.rag_search_performed (StudyBotAgent.self_session a') =
      StudyBotAgent.rag_search_performed (StudyBotAgent.self_session a).
Proof.
  intros Hfm Hcm Hcap.
  pose proof (FieldManagerFacts.reachable_schema_keyed _ Hfm) as Hk.
  destruct (FieldManagerFacts.calculate_progress_spec _ Hk) as (p & Hp & _).
  eexists. eexists. split; [reflexivity|].
  unfold StudyBotAgent._restore_from_checkpoint.
  cbn [StudyBotAgent.cp_agent_state StudyBotAgent.with_snapshot
       StudyBotAgent.s_fields StudyBotAgent.s_conversation_history].
  rewrite (field_manager_round_trip _ FieldManager.init Hk
             FieldManagerFacts.init_schema_keyed).
  rewrite (conversation_round_trip _ (ConversationManager.init Config.MAX_HISTORY)
             Hcm (eq_sym Hcap)).
  rewrite Hp. split; [reflexivity|]. repeat split.
Qed.

End SnapshotFacts.

(** ** Substrings, case and white space *)

Module StringFacts.

Lemma append_cons (c : ascii) (a q : string) :
  String c a +:+ q = String c (a +:+ q).
Proof. reflexivity. Qed.

Lemma append_nil (q : string) : "" +:+ q = q.
Proof. reflexivity. Qed.

Lemma prefix_iff (a s : string) :
  String.prefix a s = true <-> exists q, s = a +:+ q.
Proof.
  revert s. induction a as [|c a IH]; intros s.
  - destruct s; split; eauto.
  - destruct s as [|b s]; cbn [String.prefix].
    + split; [discriminate | intros [q Hq]; discriminate].
    + destruct (ascii_dec c b) as [->|Hne].
      * rewrite IH. split; intros [q Hq]; exists q; rewrite append_cons in *;
          congruence.
      * split; [discriminate|]. intros [q Hq]. rewrite append_cons in Hq.
        congruence.
Qed.

(** [needle in hay] holds exactly when [hay] is some text, then
    [needle], then some text. *)
Lemma str_in_iff (a s : string) :
  str_in a s = true <-> exists p q, s = p +:+ a +:+ q.
Proof.
  induction s as [|c s IH]; cbn [str_in].
  - rewrite orb_false_r, prefix_iff. split.
    + intros [q Hq]. exists "", q. exact Hq.
    + intros (p & q & Hpq). destruct p; [now exists q | discriminate].
  - rewrite orb_true_iff, IH, prefix_iff. split.
    + intros [[q Hq]|(p & q & Hpq)].
      * exists "", q. exact Hq.
      * exists (String c p), q. rewrite append_cons. now rewrite Hpq.
    + intros (p & q & Hpq). destruct p as [|b p].
      * left. now exists q.
      * right. rewrite append_cons in Hpq. injection Hpq as -> ->. now exists p, q.
Qed.

Lemma append_assoc (a b c : string) : (a +:+ b) +:+ c = a +:+ b +:+ c.
Proof.
  induction a as [|x a IH]; [reflexivity|].
  rewrite !append_cons. now rewrite IH.
Qed.

Lemma str_in_trans (a b s : string) :
  str_in a b = true -> str_in b s = true -> str_in a s = true.
Proof.
  rewrite !str_in_iff. intros (p & q & ->) (p' & q' & ->).
  exists (p' +:+ p), (q +:+ q'). now rewrite !append_assoc.
Qed.

Lemma lower_app (a b : string) : lower (a +:+ b) = lower a +:+ lower b.
Proof.
  induction a as [|c a IH]; [reflexivity|].
  rewrite append_cons. cbn [lower]. now rewrite append_cons, IH.
Qed.

Lemma str_in_lstrip (w s : string) :
  starts_solid w = true -> str_in w (lstrip s) = str_in w s.
Proof.
  intros Hw. induction s as [|c s IH]; [reflexivity|].
  cbn [lstrip]. destruct (ascii_isspace c) eqn:Ec; [|reflexivity].
  rewrite IH. cbn [str_in].
  destruct w as [|a w]; [discriminate|]. cbn [String.prefix].
  destruct (ascii_dec a c) as [->|_]; [|reflexivity].
  simpl in Hw. rewrite Ec in Hw. discriminate.
Qed.

Lemma prefix_empty (s : string) : String.prefix "" s = true.
Proof. now destruct s. Qed.

Lemma prefix_nil (w : string) : w <> "" -> String.prefix w "" = false.
Proof. destruct w; [congruence | reflexivity]. Qed.

Lemma ends_solid_nonempty (w : string) : ends_solid w = true -> w <> "".
Proof. destruct w; [discriminate | discriminate]. Qed.

Lemma prefix_rstrip (w s : string) :
  ends_solid w = true -> String.prefix w (rstrip s) = String.prefix w s.
Proof.
  revert w. induction s as [|c s IH]; intros w Hw; [reflexivity|].
  destruct w as [|a w]; [discriminate|].
  cbn [rstrip String.prefix].
  destruct w as [|a' w].
  - (* the word is the single solid character [a] *)
    cbn [ends_solid] in Hw.
    destruct (rstrip s) as [|r rs].
    + destruct (ascii_isspace c) eqn:Ec; cbn [String.prefix].
      * destruct (ascii_dec a c) as [->|_]; [|reflexivity].
        rewrite Ec in Hw. discriminate.
      * destruct (ascii_dec a c); [|reflexivity]. now rewrite !prefix_empty.
    + cbn [String.prefix].
      destruct (ascii_dec a c); [|reflexivity]. now rewrite !prefix_empty.
  - assert (Hw' : ends_solid (String a' w) = true) by exact Hw.
    specialize (IH (String a' w) Hw').
    destruct (rstrip s) as [|r rs].
    + rewrite prefix_nil in IH by discriminate.
      destruct (ascii_isspace c); cbn [String.prefix];
        destruct (ascii_dec a c); try reflexivity; now rewrite <- IH.
    + cbn [String.prefix]. destruct (ascii_dec a c); [exact IH | reflexivity].
Qed.

Lemma str_in_nil (w : string) : w <> "" -> str_in w "" = false.
Proof. intros H. cbn [str_in]. now rewrite prefix_nil. Qed.

Lemma str_in_rstrip (w s : string) :
  ends_solid w = true -> str_in w (rstrip s) = str_in w s.
Proof.
  intros Hw. pose proof (ends_solid_nonempty w Hw) as Hne.
  induction s as [|c s IH]; [reflexivity|].
  pose proof (prefix_rstrip w (String c s) Hw) as Hp.
  cbn [rstrip] in *. cbn [str_in]. rewrite <- IH, <- Hp.
  destruct (rstrip s) as [|r rs].
  - rewrite (str_in_nil w Hne), orb_false_r.
    destruct (ascii_isspace c); cbn [str_in]; now rewrite ?prefix_nil, ?orb_false_r.
  - reflexivity.
Qed.

(** Stripping the text does not change whether it contains a word that
    begins and ends with a character that is not white space. *)
Lemma str_in_strip (w s : string) :
  starts_solid w = true -> ends_solid w = true ->
  str_in w (strip s) = str_in w s.
Proof.
  intros H1 H2. unfold strip. now rewrite str_in_rstrip, str_in_lstrip.
Qed.

Lemma any_in_strip (words : list string) (s : string) :
  forallb (fun w => starts_solid w && ends_solid w) words = true ->
  any_in words (strip s) = any_in words s.
Proof.
  unfold any_in. induction words as [|w words IH]; simpl; [reflexivity|].
  intros H. apply andb_true_iff in H as [Hw Hws].
  apply andb_true_iff in Hw as [H1 H2].
  now rewrite str_in_strip, IH.
Qed.

Lemma any_in_iff (words : list string) (s : string) :
  any_in words s = true <->
  exists w p q, In w words /\ s = p +:+ w +:+ q.
Proof.
  unfold any_in. rewrite List.existsb_exists. split.
  - intros (w & Hin & Hw). apply str_in_iff in Hw as (p & q & ->). now exists w, p, q.
  - intros (w & p & q & Hin & ->). exists w. split; [assumption|].
    apply str_in_iff. now exists p, q.
Qed.

End StringFacts.

(** ** The model's answer *)

Module LlmFacts.
Import StringFacts.
Import Llm.

Lemma append_empty_r (s : string) : s +:+ "" = s.
Proof. induction s as [|c s IH]; [reflexivity|]. now rewrite append_cons, IH. Qed.

Lemma replace_from_miss (old new : string) (c : ascii) (s : string) :
  String.prefix old (String c s) = false ->
  replace_from old new 0 (String c s) = String c (replace_from old new 0 s).
Proof. intros H. cbn [replace_from]. now rewrite H. Qed.

Lemma replace_from_skip (old new p rest : string) :
  replace_from old new (String.length p) (p +:+ rest) =
  replace_from old new 0 rest.
Proof.
  induction p as [|c p IH]; [reflexivity|].
  rewrite append_cons. cbn [String.length replace_from]. exact IH.
Qed.

(** A scan that meets the pattern writes the replacement and goes on
    after the match. *)
Lemma replace_from_hit (c : ascii) (old new rest : string) :
  replace_from (String c old) new 0 (String c old +:+ rest) =
  new +:+ replace_from (String c old) new 0 rest.
Proof.
  rewrite append_cons. cbn [replace_from].
  assert (Hp : String.prefix (String c old) (String c (old +:+ rest)) = true).
  { apply prefix_iff. exists rest. now rewrite append_cons. }
  rewrite Hp.
  change (String.length (String c old) - 1) with (String.length old - 0).
  rewrite Nat.sub_0_r.
  now rewrite replace_from_skip.
Qed.

(** A scan for a pattern that begins with a backquote copies a stretch
    without backquotes. *)
Lemma replace_from_fence_free (old new s rest : string) :
  fence_free s = true ->
  replace_from (String "`" old) new 0 (s +:+ rest) =
  s +:+ replace_from (String "`" old) new 0 rest.
Proof.
  induction s as [|c s IH]; intros Hfree; [reflexivity|].
  cbn [fence_free] in Hfree. apply andb_true_iff in Hfree as [Hc Hs].
  rewrite !append_cons. rewrite replace_from_miss.
  - now rewrite IH.
  - cbn [String.prefix]. destruct (ascii_dec "`" c) as [<-|_]; [discriminate Hc|].
    reflexivity.
Qed.

(** A word without backquotes that does not begin a text without
    backquotes does not begin the text followed by a fence either. *)
Lemma prefix_before_fence (w s : string) :
  fence_free w = true ->
  fence_free s = true ->
  String.prefix w s = false ->
  String.prefix w (s +:+ "```") = false.
Proof.
  revert s. induction w as [|a w IH]; intros s Hw Hs Hp.
  - destruct s; discriminate Hp.
  - cbn [fence_free] in Hw. apply andb_true_iff in Hw as [Ha Hw].
    destruct s as [|c s].
    + rewrite append_nil. cbn [String.prefix].
      destruct (ascii_dec a "`") as [->|_]; [discriminate Ha | reflexivity].
    + cbn [fence_free] in Hs. apply andb_true_iff in Hs as [_ Hs].
      rewrite append_cons. cbn [String.prefix] in *.
      destruct (ascii_dec a c); [now apply IH | reflexivity].
Qed.

(** X11. What [_extract_json] hands to the JSON parser, for an ASCII
    answer. Only the first candidate is read. A text without backquotes
    is stripped of surrounding white space, and so is the body of an
    answer wrapped in a [```json] fence. For an answer wrapped in a plain
    [```] fence the same holds unless the body begins with [json]. *)
Theorem extract_text_unwraps_fence
    (body : string) (others : list (result string)) :
  isascii body = true ->
  fence_free body = true ->
  extract_text (Ok body :: others) = Ok (strip body) /\
  extract_text (Ok ("```json" +:+ body +:+ "```") :: others) = Ok (strip body) /\
  (String.prefix "json" body = false ->
   extract_text (Ok ("```" +:+ body +:+ "```") :: others) = Ok (strip body)).
Proof.
  intros _ Hfree.
  assert (Hplain : forall old, replace (String "`" old) "" body = body).
  { intros old. unfold replace.
    rewrite <- (append_empty_r body) at 1.
    rewrite replace_from_fence_free by exact Hfree.
    apply append_empty_r. }
  assert (Hkeep : replace "```json" "" (body +:+ "```") = body +:+ "```").
  { unfold replace. now rewrite replace_from_fence_free by exact Hfree. }
  assert (Hclose : replace "```" "" (body +:+ "```") = body).
  { unfold replace. rewrite replace_from_fence_free by exact Hfree.
    apply append_empty_r. }
  unfold extract_text, mbind, result_bind, mret, result_ret.
  cbn [Py.bind]. split; [|split].
  - now rewrite !Hplain.
  - assert (Hopen : replace "```json" "" ("```json" +:+ body +:+ "```") =
                    body +:+ "```").
    { unfold replace. rewrite replace_from_hit. exact Hkeep. }
    now rewrite Hopen, Hclose.
  - intros Hjson.
    assert (Hopen : replace "```json" "" ("```" +:+ body +:+ "```") =
                    "```" +:+ body +:+ "```").
    { unfold replace in *. rewrite !append_cons, append_nil.
      destruct body as [|c body].
      - reflexivity.
      - assert (Hfirst : String.prefix "json" (String c body +:+ "```") = false).
        { now apply prefix_before_fence. }
        cbn [fence_free] in Hfree. apply andb_true_iff in Hfree as [Hc _].
        rewrite append_cons in *.
        do 3 (rewrite replace_from_miss
                by (cbn [String.prefix];
                    destruct (ascii_dec "`" "`") as [_|Hne];
                    [|now contradiction Hne];
                    first [ exact Hfirst
                          | destruct (ascii_dec "`" c) as [<-|_];
                            [discriminate Hc | reflexivity] ])).
        now rewrite Hkeep. }
    rewrite Hopen. unfold replace. rewrite replace_from_hit, append_nil.
    fold (replace "```" "" (body +:+ "```")). now rewrite Hclose.
Qed.

Lemma extract_text_unwraps_fence_witness :
  extract_text [Ok ("```json" +:+ (nl +:+ "{}" +:+ nl) +:+ "```")] = Ok "{}".
Proof.
  destruct (extract_text_unwraps_fence (nl +:+ "{}" +:+ nl) []) as (_ & H & _).
  - reflexivity.
  - reflexivity.
  - exact H.
Defined.

End LlmFacts.

(** ** Confirmation Classifier *)

Module ConfirmationHandlerFacts.
Import StringFacts.
Import Models.
Import ConfirmationHandler.

(** X9. If the model call made by [detect_confirmation] raises, or its
    answer has no usable candidate text, or the text does not parse into
    a confirmation analysis, the result is the rule-based analysis of the
    message: confidence 0.7, never a modification request, no extracted
    modifications. *)
Theorem detect_confirmation_falls_back
    (parse_detection : string -> result ConfirmationDetection)
    (llm : result Llm.response) (user_message : string)
    (pending : option (dict string)) (e : exn) :
  (llm = Raise e \/
   (exists response, llm = Ok response /\ Llm.extract_text response = Raise e) \/
   (exists response text,
       llm = Ok response /\ Llm.extract_text response = Ok text /\
       parse_detection text = Raise e)) ->
  detect_confirmation parse_detection llm user_message pending =
    _fallback_detection user_message /\
  cd_confidence (detect_confirmation parse_detection llm user_message pending) =
    (7 # 10)%Q /\
  is_modification_request
    (detect_confirmation parse_detection llm user_message pending) = false /\
  extracted_modifications
    (detect_confirmation parse_detection llm user_message pending) = None.
Proof.
  intros Hfail.
  assert (Hd : detect_confirmation parse_detection llm user_message pending =
               _fallback_detection user_message).
  { unfold detect_confirmation.
    destruct Hfail as [->|[(response & -> & Hx)|(response & text & -> & Hx & Hp)]];
      unfold mbind, result_bind; cbn [Py.bind try_except].
    - reflexivity.
    - now rewrite Hx.
    - rewrite Hx. cbn [Py.bind]. now rewrite Hp. }
  rewrite Hd. repeat split.
Qed.

Lemma detect_confirmation_falls_back_witness :
  detect_confirmation (fun _ => Raise ValueError) (Raise TimeoutError)
    "yes please" (Some [("Client", "Acme")]) =
  _fallback_detection "yes please".
Proof.
  apply (detect_confirmation_falls_back (fun _ => Raise ValueError)
           (Raise TimeoutError) "yes please" (Some [("Client", "Acme")])
           TimeoutError).
  now left.
Defined.

(** X10. On an ASCII message the rule-based analysis looks for its
    keywords anywhere in the lower-cased message, inside other words
    too: it reports a confirmation exactly when the lower-cased message
    contains one of the seven affirmative keywords, and a rejection
    exactly when it contains one of the six negative keywords. Stripping
    the message changes neither. *)
Theorem fallback_detection_by_substring (message : string) :
  isascii message = true ->
  (is_confirmation (_fallback_detection message) = true <->
   exists w p q,
     In w ["ok"; "yes"; "yeah"; "sure"; "looks good"; "apply"; "correct"] /\
     lower message = p +:+ w +:+ q) /\
  (is_rejection (_fallback_detection message) = true <->
   exists w p q,
     In w ["no"; "nope"; "wrong"; "incorrect"; "don't"; "cancel"] /\
     lower message = p +:+ w +:+ q).
Proof.
  intros _. unfold _fallback_detection. cbn [is_confirmation is_rejection].
  rewrite !any_in_strip by reflexivity.
  split; apply any_in_iff.
Qed.

Lemma fallback_detection_by_substring_witness :
  isascii "  Looks GOOD to me " = true /\
  is_confirmation (_fallback_detection "  Looks GOOD to me ") = true.
Proof.
  split; [reflexivity|].
  apply (fallback_detection_by_substring "  Looks GOOD to me ").
  - reflexivity.
  - exists "looks good", "  ", " to me ". split; [simpl; tauto | reflexivity].
Defined.

(** An ASCII message that contains "incorrect", in any letter case, is
    reported both as a rejection and as a confirmation, with a
    confidence above the orchestrator's threshold. *)
Theorem incorrect_is_also_confirmation (before after word : string) :
  isascii (before +:+ word +:+ after) = true ->
  lower word = "incorrect" ->
  is_rejection (_fallback_detection (before +:+ word +:+ after)) = true /\
  is_confirmation (_fallback_detection (before +:+ word +:+ after)) = true /\
  StudyBotAgent.above_threshold
    (cd_confidence (_fallback_detection (before +:+ word +:+ after))) = true.
Proof.
  intros _ Hword. unfold _fallback_detection.
  cbn [is_confirmation is_rejection cd_confidence].
  rewrite !any_in_strip by reflexivity.
  rewrite !lower_app, Hword.
  split; [|split].
  - apply any_in_iff. exists "incorrect", (lower before), (lower after).
    split; [|reflexivity]. simpl. tauto.
  - apply any_in_iff. exists "correct", (lower before +:+ "in"), (lower after).
    split; [simpl; tauto|]. now rewrite append_assoc.
  - reflexivity.
Qed.

Lemma incorrect_is_also_confirmation_witness :
  is_confirmation (_fallback_detection ("That is " +:+ "Incorrect" +:+ "!")) = true.
Proof.
  destruct (incorrect_is_also_confirmation "That is " "!" "Incorrect")
    as (_ & H & _).
  - reflexivity.
  - reflexivity.
  - exact H.
Defined.

End ConfirmationHandlerFacts.

(** ** Decision Engine *)

Module DecisionMakerFacts.
Import Models.
Import DecisionMaker.

(** C9. For every user message and agent state, if the model call made
    by [decide_action] raises, or its answer has no usable candidate
    text, or the text does not parse into a decision, then
    [decide_action] returns a decision whose action is CLARIFY, whose
    message is the fixed apology, whose confidence is 0.3 and whose
    [requires_user_input] is true. *)
Theorem decide_action_falls_back
    (parse_decision : string -> result AgentDecision)
    (llm : result Llm.response) (user_message : string) (state : agent_state)
    (e : exn) :
  (llm = Raise e \/
   (exists response, llm = Ok response /\ Llm.extract_text response = Raise e) \/
   (exists response text,
       llm = Ok response /\ Llm.extract_text response = Ok text /\
       parse_decision text = Raise e)) ->
  action (decide_action parse_decision llm user_message state) = CLARIFY /\
  message_to_user (decide_action parse_decision llm user_message state) =
    "I'm having trouble understanding. Could you rephrase that?" /\
  confidence (decide_action parse_decision llm user_message state) = (3 # 10)%Q /\
  requires_user_input (decide_action parse_decision llm user_message state) = true.
Proof.
  intros Hfail.
  assert (Hd : decide_action parse_decision llm user_message state =
               _fallback_decision user_message).
  { unfold decide_action.
    destruct Hfail as [->|[(response & -> & Hx)|(response & text & -> & Hx & Hp)]];
      cbn; [reflexivity| |].
    - unfold mbind, result_bind. cbn. now rewrite Hx.
    - unfold mbind, result_bind. cbn. rewrite Hx. cbn. now rewrite Hp. }
  rewrite Hd. repeat split.
Qed.

Lemma decide_action_falls_back_witness :
  action
    (decide_action (fun _ => Raise ValueError) (Ok [])
       "please submit"
       (AgentState 0 [] FieldManager.schema_names false None false false)) =
  CLARIFY.
Proof.
  apply (decide_action_falls_back (fun _ => Raise ValueError) (Ok [])
           "please submit"
           (AgentState 0 [] FieldManager.schema_names false None false false)
           ValueError).
  right. left. exists []. split; reflexivity.
Defined.

End DecisionMakerFacts.

(** ** Language-model session *)

Module LLMServiceSessionFacts.
Import LLMServiceSession.

Lemma find_rev_last {A} (p : A -> bool) (l : list A) (x : A) :
  p x = true -> List.find p (rev (l ++ [x])) = Some x.
Proof. intros Hp. rewrite rev_app_distr. simpl. now rewrite Hp. Qed.

Lemma find_rev_skip {A} (p : A -> bool) (l : list A) (x : A) :
  p x = false -> List.find p (rev (l ++ [x])) = List.find p (rev l).
Proof. intros Hp. rewrite rev_app_distr. simpl. now rewrite Hp. Qed.

(** X28. A checkpoint drops the beans and nothing else: restoring the
    checkpoint of a session under the same key returns the session with
    its beans cleared, with the same identifier, history, timestamps and
    turn count. *)
Theorem checkpoint_drops_beans_only
    (s : t) (uuid : string) (now : clock) :
  session_id s <> "" ->
  from_checkpoint_dict (to_checkpoint_dict s) (api_key s) uuid now =
  clear_beans s.
Proof.
  intros Hid. unfold from_checkpoint_dict, to_checkpoint_dict, init, clear_beans.
  cbn. destruct (session_id s) as [|c id] eqn:E; [congruence|]. reflexivity.
Qed.

Lemma checkpoint_drops_beans_only_witness :
  let s :=
    attach_bean (init "key" (Some "s1") "u" (Clock 1 1)) "confirmation_context"
      (ConfirmationContextBean None) in
  beans (self_metadata s) <> None /\
  from_checkpoint_dict (to_checkpoint_dict s) "key" "v" (Clock 5 5) =
  clear_beans s.
Proof.
  intros s. split; [discriminate|].
  apply (checkpoint_drops_beans_only s "v" (Clock 5 5)). discriminate.
Defined.

(** After [call_llm], whether the client answered or raised, the latest
    user message of the session is the prompt of the call, and the
    history has grown by the prompt and, when the client answered, by
    the answer; the beans are as before. *)
Theorem call_llm_logs_prompt (s : t) (prompt agent : string) (k : call) :
  get_latest_user_message (fst (call_llm s prompt agent k)) = Some prompt /\
  beans (self_metadata (fst (call_llm s prompt agent k))) =
    beans (self_metadata s) /\
  match k_client k with
  | Ok response_text =>
      history (fst (call_llm s prompt agent k)) =
        history s ++
        [ Message "user" prompt [] (c_timestamp (k_sent k));
          Message "assistant" response_text
            [("agent", agent); ("model", "gemini-2.5-flash")]
            (c_timestamp (k_received k)) ] /\
      snd (call_llm s prompt agent k) = Ok [Ok response_text]
  | Raise e =>
      history (fst (call_llm s prompt agent k)) =
        history s ++ [Message "user" prompt [] (c_timestamp (k_sent k))] /\
      snd (call_llm s prompt agent k) = Raise e
  end.
Proof.
  unfold call_llm, get_latest_user_message.
  destruct (k_client k) as [text|e]; cbn [fst snd add_message history
                                           self_metadata beans].
  - rewrite find_rev_skip by reflexivity.
    rewrite find_rev_last by reflexivity.
    repeat split. now rewrite <- app_assoc.
  - rewrite find_rev_last by reflexivity. repeat split.
Qed.

End LLMServiceSessionFacts.

(** ** Language-model sessions and the objects they share *)

Module SessionHeapFacts.
Import LLMServiceSession.
Import SessionHeap.

Lemma read_inv (h : heap) (o : session) (s : t) :
  read h o = Some s ->
  exists l m,
    lists h !! o_history o = Some l /\
    dicts h !! o_metadata o = Some m /\
    s = Make (o_api_key o) (o_session_id o) l m.
Proof.
  unfold read. intros H.
  destruct (lists h !! o_history o) as [l|]; [|discriminate].
  destruct (dicts h !! o_metadata o) as [m|]; [|discriminate].
  cbn in H. injection H as <-. now exists l, m.
Qed.

Lemma read_intro (h : heap) (o : session) (l : list message) (m : metadata) :
  lists h !! o_history o = Some l ->
  dicts h !! o_metadata o = Some m ->
  read h o = Some (Make (o_api_key o) (o_session_id o) l m).
Proof. unfold read. now intros -> ->. Qed.

Lemma read_valid (h : heap) (o : session) (s : t) :
  read h o = Some s ->
  o_history o < length (lists h) /\ o_metadata o < length (dicts h).
Proof.
  intros H. apply read_inv in H as (l & m & Hl & Hm & _).
  split; eapply lookup_lt_Some; eassumption.
Qed.

(** Allocation leaves what exists as it reads. *)
Lemma read_extend (h : heap) (ls : list (list message)) (ds : list metadata)
    (o : session) (s : t) :
  read h o = Some s ->
  read (Heap (lists h ++ ls) (dicts h ++ ds)) o = Some s.
Proof.
  intros H. destruct (read_valid h o s H) as [Hl Hm].
  unfold read in *. cbn [lists dicts].
  now rewrite !lookup_app_l by assumption.
Qed.

(** A method acts on its own session as [LLMServiceSession] says. *)
Lemma read_add_message (h : heap) (o : session) (s : t) now sender content md :
  read h o = Some s ->
  read (add_message h o now sender content md) o =
  Some (LLMServiceSession.add_message s now sender content md).
Proof.
  intros H. apply read_inv in H as (l & m & Hl & Hm & ->).
  unfold read, add_message. cbn [lists dicts].
  rewrite !list_lookup_alter_eq, Hl, Hm. reflexivity.
Qed.

Lemma read_attach_bean (h : heap) (o : session) (s : t) name data :
  read h o = Some s ->
  read (attach_bean h o name data) o =
  Some (LLMServiceSession.attach_bean s name data).
Proof.
  intros H. apply read_inv in H as (l & m & Hl & Hm & ->).
  unfold read, attach_bean. cbn [lists dicts].
  rewrite list_lookup_alter_eq, Hl, Hm. reflexivity.
Qed.

Lemma read_clear_beans (h : heap) (o : session) (s : t) :
  read h o = Some s ->
  read (clear_beans h o) o = Some (LLMServiceSession.clear_beans s).
Proof.
  intros H. apply read_inv in H as (l & m & Hl & Hm & ->).
  unfold read, clear_beans. cbn [lists dicts].
  rewrite list_lookup_alter_eq, Hl, Hm. reflexivity.
Qed.

Lemma read_call_llm (h : heap) (o : session) (s : t) prompt agent k :
  read h o = Some s ->
  read (fst (call_llm h o prompt agent k)) o =
    Some (fst (LLMServiceSession.call_llm s prompt agent k)) /\
  snd (call_llm h o prompt agent k) =
    snd (LLMServiceSession.call_llm s prompt agent k).
Proof.
  intros H. unfold call_llm, LLMServiceSession.call_llm.
  destruct (k_client k); cbn [fst snd]; split; try reflexivity.
  - now do 2 apply read_add_message.
  - now apply read_add_message.
Qed.

(** A method leaves a session that shares nothing with its own as it
    reads. *)
Lemma read_add_message_other (h : heap) (o o' : session) now sender content md :
  o_history o' <> o_history o ->
  o_metadata o' <> o_metadata o ->
  read (add_message h o now sender content md) o' = read h o'.
Proof.
  intros Hl Hm. unfold read, add_message. cbn [lists dicts].
  now rewrite !list_lookup_alter_ne by congruence.
Qed.

Lemma read_attach_bean_other (h : heap) (o o' : session) name data :
  o_metadata o' <> o_metadata o ->
  read (attach_bean h o name data) o' = read h o'.
Proof.
  intros Hm. unfold read, attach_bean. cbn [lists dicts].
  now rewrite list_lookup_alter_ne by congruence.
Qed.

Lemma read_clear_beans_other (h : heap) (o o' : session) :
  o_metadata o' <> o_metadata o ->
  read (clear_beans h o) o' = read h o'.
Proof.
  intros Hm. unfold read, clear_beans. cbn [lists dicts].
  now rewrite list_lookup_alter_ne by congruence.
Qed.

Lemma read_call_llm_other (h : heap) (o o' : session) prompt agent k :
  o_history o' <> o_history o ->
  o_metadata o' <> o_metadata o ->
  read (fst (call_llm h o prompt agent k)) o' = read h o'.
Proof.
  intros Hl Hm. unfold call_llm.
  destruct (k_client k); cbn [fst];
    now rewrite !read_add_message_other by assumption.
Qed.

Lemma counted_add_message (s : t) now sender content md :
  counted s -> counted (LLMServiceSession.add_message s now sender content md).
Proof.
  unfold counted. cbn. intros ->. rewrite length_app. cbn. lia.
Qed.

Lemma counted_call_llm (s : t) prompt agent k :
  counted s -> counted (fst (LLMServiceSession.call_llm s prompt agent k)).
Proof.
  intros H. unfold LLMServiceSession.call_llm.
  destruct (k_client k); cbn [fst]; now repeat apply counted_add_message.
Qed.

Lemma NoDup_map_eq {A B} (f : A -> B) (l : list A) (x y : A) :
  NoDup (map f l) -> In x l -> In y l -> f x = f y -> x = y.
Proof.
  induction l as [|a l IH]; cbn; [easy|].
  intros Hnd [<-|Hx] [<-|Hy] Heq; try reflexivity;
    apply NoDup_cons in Hnd as [Hout Hnd].
  - exfalso. apply Hout. rewrite Heq. now apply list_elem_of_In, in_map.
  - exfalso. apply Hout. rewrite <- Heq. now apply list_elem_of_In, in_map.
  - now apply IH.
Qed.

Lemma separate_other (w : world) (o o' : session) :
  separate w -> In o (w_sessions w) -> In o' (w_sessions w) -> o' <> o ->
  o_history o' <> o_history o /\ o_metadata o' <> o_metadata o.
Proof.
  intros [Hl Hm] Ho Ho' Hne. split; intros Heq; apply Hne.
  - now apply (NoDup_map_eq o_history (w_sessions w)).
  - now apply (NoDup_map_eq o_metadata (w_sessions w)).
Qed.

Lemma sound_mutation (w : world) (o : session) (h' : heap)
    (f : t -> t) :
  sound w ->
  In o (w_sessions w) ->
  (forall s, read (w_heap w) o = Some s -> read h' o = Some (f s)) ->
  (forall s, counted s -> counted (f s)) ->
  (forall o', o_history o' <> o_history o -> o_metadata o' <> o_metadata o ->
              read h' o' = read (w_heap w) o') ->
  sound (World h' (w_sessions w) (w_files w)).
Proof.
  intros (Hsep & Hread & Hfiles) Ho Hown Hcount Hother.
  split; [exact Hsep|]. split; [|exact Hfiles].
  cbn [w_heap w_sessions]. intros o' Ho'.
  destruct (Hread o' Ho') as (s & Hs & Hc).
  destruct (Nat.eq_dec (o_history o') (o_history o)) as [El|Nl].
  - assert (o' = o) as ->
      by (now apply (NoDup_map_eq o_history (w_sessions w)); [apply Hsep|..]).
    exists (f s). split; [now apply Hown | now apply Hcount].
  - destruct (Nat.eq_dec (o_metadata o') (o_metadata o)) as [Em|Nm].
    + assert (o' = o) as ->
        by (now apply (NoDup_map_eq o_metadata (w_sessions w)); [apply Hsep|..]).
      now contradiction Nl.
    + exists s. split; [|exact Hc]. now rewrite Hother.
Qed.

Lemma sound_allocation (w : world) (ls : list (list message))
    (ds : list metadata) (o : session) (s : t) :
  sound w ->
  o_history o = length (lists (w_heap w)) ->
  o_metadata o = length (dicts (w_heap w)) ->
  read (Heap (lists (w_heap w) ++ ls) (dicts (w_heap w) ++ ds)) o = Some s ->
  counted s ->
  sound (World (Heap (lists (w_heap w) ++ ls) (dicts (w_heap w) ++ ds))
           (o :: w_sessions w) (w_files w)).
Proof.
  intros ((Hl & Hm) & Hread & Hfiles) El Em Hs Hc.
  assert (Hfresh : forall o', In o' (w_sessions w) ->
            o_history o' < length (lists (w_heap w)) /\
            o_metadata o' < length (dicts (w_heap w))).
  { intros o' Ho'. destruct (Hread o' Ho') as (s' & Hs' & _).
    now apply (read_valid _ _ s'). }
  split; [|split; [|exact Hfiles]].
  - split; cbn [w_sessions map]; apply NoDup_cons; (split; [|assumption]);
      intros Hin; apply list_elem_of_In, in_map_iff in Hin as (o' & Heq & Ho');
      destruct (Hfresh o' Ho'); lia.
  - cbn [w_heap w_sessions]. intros o' [<-|Ho'].
    + now exists s.
    + destruct (Hread o' Ho') as (s' & Hs' & Hc'). exists s'.
      split; [now apply read_extend | exact Hc'].
Qed.

Lemma sound_step (w w' : world) : sound w -> step w w' -> sound w'.
Proof.
  intros Hw Hstep.
  destruct Hstep as [w key sid uuid now
                    | w o now sender content md Ho
                    | w o name data Ho
                    | w o Ho
                    | w o prompt agent k Ho
                    | w o h d file Ho Hto Hdump
                    | w file key uuid now Hfile].
  - unfold init. cbn [fst snd].
    eapply sound_allocation; [exact Hw | reflexivity | reflexivity | |].
    + unfold read. cbn [lists dicts o_history o_metadata].
      rewrite !list_lookup_middle by reflexivity. reflexivity.
    + reflexivity.
  - apply (sound_mutation w o _
             (fun s => LLMServiceSession.add_message s now sender content md));
      [assumption.. | | |].
    + intros s. apply read_add_message.
    + intros s. apply counted_add_message.
    + intros o'. apply read_add_message_other.
  - apply (sound_mutation w o _
             (fun s => LLMServiceSession.attach_bean s name data));
      [assumption.. | | |].
    + intros s. apply read_attach_bean.
    + intros s Hc. exact Hc.
    + intros o' _. apply read_attach_bean_other.
  - apply (sound_mutation w o _ LLMServiceSession.clear_beans);
      [assumption.. | | |].
    + intros s. apply read_clear_beans.
    + intros s Hc. exact Hc.
    + intros o' _. apply read_clear_beans_other.
  - apply (sound_mutation w o _
             (fun s => fst (LLMServiceSession.call_llm s prompt agent k)));
      [assumption.. | | |].
    + intros s Hs. now apply read_call_llm.
    + intros s. apply counted_call_llm.
    + intros o'. apply read_call_llm_other.
  - destruct Hw as (Hsep & Hread & Hfiles).
    destruct (Hread o Ho) as (s & Hs & Hc).
    apply read_inv in Hs as (l & m & Hl & Hm & ->).
    unfold to_checkpoint_dict in Hto. rewrite Hm in Hto. cbn in Hto.
    injection Hto as <- <-.
    unfold dump in Hdump. cbn [lists dicts d_history d_metadata d_session_id]
      in Hdump.
    rewrite Hl, list_lookup_middle in Hdump by reflexivity.
    cbn in Hdump. injection Hdump as <-.
    split; [exact Hsep|]. split.
    + cbn [w_heap w_sessions]. intros o' Ho'.
      destruct (Hread o' Ho') as (s' & Hs' & Hc'). exists s'.
      split; [|exact Hc'].
      rewrite <- (app_nil_r (lists (w_heap w))).
      now apply read_extend.
    + cbn [w_files]. intros file [<-|Hin]; [exact Hc | now apply Hfiles].
  - unfold from_checkpoint_dict, load. cbn [fst snd d_session_id d_history
                                             d_metadata].
    eapply sound_allocation; [exact Hw | reflexivity | reflexivity | |].
    + unfold read. cbn [lists dicts o_history o_metadata].
      rewrite !list_lookup_middle by reflexivity. reflexivity.
    + destruct Hw as (_ & _ & Hfiles). exact (Hfiles file Hfile).
Qed.

Lemma reachable_sound (w : world) : reachable w -> sound w.
Proof.
  induction 1 as [|w w' _ IH Hstep].
  - split; [split; constructor|]. split; intros x [].
  - now apply (sound_step w w').
Qed.

(** X27. [turn_count] counts the messages. In every state that the
    program reaches by constructing sessions, calling [add_message],
    [attach_bean], [clear_beans] and [call_llm] on them, saving their
    checkpoints to files and restoring sessions from files, every
    session reads with [turn_count] equal to the length of its history. *)
Theorem turn_count_is_history_length (w : world) (o : session) :
  reachable w ->
  In o (w_sessions w) ->
  exists s,
    read (w_heap w) o = Some s /\
    turn_count (self_metadata s) = length (history s).
Proof.
  intros Hw Ho. destruct (reachable_sound w Hw) as (_ & Hread & _).
  exact (Hread o Ho).
Qed.

Lemma turn_count_is_history_length_witness :
  exists w o s,
    reachable w /\ In o (w_sessions w) /\
    read (w_heap w) o = Some s /\
    length (history s) = 1%nat /\
    turn_count (self_metadata s) = 1%nat.
Proof.
  set (w1 := World (fst (init (w_heap empty) "key" (Some "s1") "u" (Clock 1 1)))
               (snd (init (w_heap empty) "key" (Some "s1") "u" (Clock 1 1))
                :: w_sessions empty)
               (w_files empty)).
  set (o := Session "key" "s1" 0 0).
  set (w2 := World (fst (call_llm (w_heap w1) o "prompt" "gemini"
                           (Call (Clock 2 2) (Raise TimeoutError) (Clock 3 3))))
               (w_sessions w1) (w_files w1)).
  assert (Hr : reachable w2).
  { apply (reach_step w1).
    - apply (reach_step empty); [apply reach_empty | apply step_init].
    - apply step_call. now left. }
  destruct (turn_count_is_history_length w2 o Hr) as (s & Hs & Hc);
    [now left|].
  exists w2, o, s. split; [exact Hr|]. split; [now left|].
  split; [exact Hs|].
  vm_compute in Hs. injection Hs as <-. split; reflexivity.
Defined.

(** At the instant of an in-memory restore the new session reads as
    [LLMServiceSession.from_checkpoint_dict] of the checkpoint. *)
Lemma read_restore_in_memory
    (h h1 : heap) (o : session) (s : t) (d : checkpoint_dict)
    (api_key uuid : string) (now : clock) :
  read h o = Some s ->
  to_checkpoint_dict h o = Some (h1, d) ->
  read (fst (from_checkpoint_dict h1 d api_key uuid now))
    (snd (from_checkpoint_dict h1 d api_key uuid now)) =
  Some (LLMServiceSession.from_checkpoint_dict
          (LLMServiceSession.to_checkpoint_dict s) api_key uuid now).
Proof.
  intros Hs Hto. apply read_inv in Hs as (l & m & Hl & Hm & ->).
  unfold to_checkpoint_dict in Hto. rewrite Hm in Hto. cbn in Hto.
  injection Hto as <- <-.
  unfold from_checkpoint_dict, read.
  cbn [fst snd lists dicts o_history o_metadata d_history d_metadata
       d_session_id o_session_id].
  rewrite Hl, list_lookup_middle by reflexivity. reflexivity.
Qed.

(** Restored in memory, without the file in between, a session shares
    its history list with the session the checkpoint was taken of: a
    message added to the restored session lengthens the history of the
    first one too, whose [turn_count] stays as it was. *)
Lemma restore_in_memory_shares_history
    (h h1 : heap) (o : session) (s : t) (d : checkpoint_dict)
    (api_key uuid : string) (now at_ : clock) (sender content : string)
    (metadata : option (dict string)) :
  read h o = Some s ->
  to_checkpoint_dict h o = Some (h1, d) ->
  exists s',
    read (add_message (fst (from_checkpoint_dict h1 d api_key uuid now))
            (snd (from_checkpoint_dict h1 d api_key uuid now))
            at_ sender content metadata) o = Some s' /\
    length (history s') = S (length (history s)) /\
    turn_count (self_metadata s') = turn_count (self_metadata s).
Proof.
  intros Hs Hto. apply read_inv in Hs as (l & m & Hl & Hm & ->).
  unfold to_checkpoint_dict in Hto. rewrite Hm in Hto. cbn in Hto.
  injection Hto as <- <-.
  unfold from_checkpoint_dict, add_message, read.
  cbn [fst snd lists dicts o_history o_metadata d_history d_metadata].
  rewrite list_lookup_alter_eq, Hl.
  rewrite list_lookup_alter_ne
    by (apply lookup_lt_Some in Hm; lia).
  rewrite lookup_app_l by (now apply lookup_lt_Some in Hm).
  rewrite Hm. cbn. eexists. split; [reflexivity|]. cbn.
  rewrite length_app. cbn. split; [lia | reflexivity].
Qed.

End SessionHeapFacts.

(** ** The components in their session *)

Module InSessionFacts.
Import Models.
Import LLMServiceSession.
Import InSession.

Lemma call_llm_outcome (s : t) (prompt agent : string) (k : call) :
  snd (call_llm s prompt agent k) = outcome k.
Proof. unfold call_llm, outcome. now destruct (k_client k). Qed.

Lemma call_llm_beans (s : t) (prompt agent : string) (k : call) :
  beans (self_metadata (fst (call_llm s prompt agent k))) =
  beans (self_metadata s).
Proof. apply LLMServiceSessionFacts.call_llm_logs_prompt. Qed.

Lemma call_llm_latest (s : t) (prompt agent : string) (k : call) :
  get_latest_user_message (fst (call_llm s prompt agent k)) = Some prompt.
Proof. apply LLMServiceSessionFacts.call_llm_logs_prompt. Qed.

(** X29. The decision taken in a session is the one of the session-free
    Decision Engine for the same outcome of the model call. The beans
    tell whether the request went through: when the model answered with
    JSON the session is left without beans, also those attached before
    the request; in every other case the agent state stays attached
    under ["agent_state"]. Either way the session's latest user message
    is the rendered prompt, not the user's text. *)
Theorem decide_action_in_session
    {json : Type} (loads : string -> result json)
    (decision_of : json -> result AgentDecision)
    (_build_decision_prompt : string -> DecisionMaker.agent_state -> string)
    (s : t) (user_message : string)
    (agent_state : DecisionMaker.agent_state) (k : call) :
  snd (decide_action json loads decision_of _build_decision_prompt
         s user_message agent_state k) =
    DecisionMaker.decide_action (parse_decision json loads decision_of)
      (outcome k) user_message agent_state /\
  beans (self_metadata
           (fst (decide_action json loads decision_of _build_decision_prompt
                   s user_message agent_state k))) =
    (if answered_json loads k
     then None
     else Some (dict_set (beans_of s) "agent_state"
                  (AgentStateBean agent_state))) /\
  get_latest_user_message
    (fst (decide_action json loads decision_of _build_decision_prompt
            s user_message agent_state k)) =
    Some (_build_decision_prompt user_message agent_state).
Proof.
  unfold decide_action, DecisionMaker.decide_action, answered_json,
    parse_decision, _extract_json.
  pose proof (call_llm_outcome
                (attach_bean s "agent_state" (AgentStateBean agent_state))
                (_build_decision_prompt user_message agent_state)
                "decision_maker" k) as Hout.
  pose proof (call_llm_beans
                (attach_bean s "agent_state" (AgentStateBean agent_state))
                (_build_decision_prompt user_message agent_state)
                "decision_maker" k) as Hbeans.
  pose proof (call_llm_latest
                (attach_bean s "agent_state" (AgentStateBean agent_state))
                (_build_decision_prompt user_message agent_state)
                "decision_maker" k) as Hlatest.
  destruct (call_llm _ _ _ _) as [s1 out].
  cbn [fst snd] in Hout, Hbeans, Hlatest.
  subst out. unfold mbind, result_bind.
  destruct (outcome k) as [response|e]; cbn [Py.bind try_except];
    [|now repeat split].
  destruct (Llm.extract_text response) as [text|e]; cbn [Py.bind try_except];
    [|now repeat split].
  destruct (loads text) as [j|e]; cbn [Py.bind try_except fst snd];
    now repeat split.
Qed.

(** X30. The analysis made in a session is the one of the session-free
    Confirmation Classifier for the same outcome of the model call. The
    session is left without beans exactly when the model answered with
    JSON; in every other case the pending suggestions stay attached
    under ["confirmation_context"]. Either way the session's latest user
    message is the prompt. *)
Theorem detect_confirmation_in_session
    {json : Type} (loads : string -> result json)
    (detection_of : json -> result ConfirmationDetection)
    (confirmation_prompt : string -> option (dict string) -> string)
    (s : t) (user_message : string)
    (pending_suggestions : option (dict string)) (k : call) :
  snd (detect_confirmation json loads detection_of confirmation_prompt
         s user_message pending_suggestions k) =
    ConfirmationHandler.detect_confirmation
      (parse_detection json loads detection_of)
      (outcome k) user_message pending_suggestions /\
  beans (self_metadata
           (fst (detect_confirmation json loads detection_of confirmation_prompt
                   s user_message pending_suggestions k))) =
    (if answered_json loads k
     then None
     else Some (dict_set (beans_of s) "confirmation_context"
                  (ConfirmationContextBean pending_suggestions))) /\
  get_latest_user_message
    (fst (detect_confirmation json loads detection_of confirmation_prompt
            s user_message pending_suggestions k)) =
    Some (confirmation_prompt user_message pending_suggestions).
Proof.
  unfold detect_confirmation, ConfirmationHandler.detect_confirmation,
    answered_json, parse_detection, _extract_json.
  pose proof (call_llm_outcome
                (attach_bean s "confirmation_context"
                   (ConfirmationContextBean pending_suggestions))
                (confirmation_prompt user_message pending_suggestions)
                "confirmation_detector" k) as Hout.
  pose proof (call_llm_beans
                (attach_bean s "confirmation_context"
                   (ConfirmationContextBean pending_suggestions))
                (confirmation_prompt user_message pending_suggestions)
                "confirmation_detector" k) as Hbeans.
  pose proof (call_llm_latest
                (attach_bean s "confirmation_context"
                   (ConfirmationContextBean pending_suggestions))
                (confirmation_prompt user_message pending_suggestions)
                "confirmation_detector" k) as Hlatest.
  destruct (call_llm _ _ _ _) as [s1 out].
  cbn [fst snd] in Hout, Hbeans, Hlatest.
  subst out. unfold mbind, result_bind.
  destruct (outcome k) as [response|e]; cbn [Py.bind try_except];
    [|now repeat split].
  destruct (Llm.extract_text response) as [text|e]; cbn [Py.bind try_except];
    [|now repeat split].
  destruct (loads text) as [j|e]; cbn [Py.bind try_except fst snd];
    now repeat split.
Qed.

End InSessionFacts.

(** ** Retrieval service *)

Module RAGServiceFacts.
Import RAGService.

Lemma first_scenario_in table query r :
  first_scenario table query = Some r -> In r (dict_values table).
Proof.
  induction table as [|[k s] table IH]; simpl; [discriminate|].
  destruct (any_in _ _); [intros [= ->]; now left | intros H; right; now apply IH].
Qed.

Lemma mock_search_shaped query : mock_shaped (_mock_search query) = true.
Proof.
  unfold _mock_search.
  destruct (first_scenario scenarios (lower query)) as [r|] eqn:E;
    [|vm_compute; reflexivity].
  apply first_scenario_in in E. simpl in E.
  destruct E as [<-|[<-|[<-|[<-|[<-|[<-|[]]]]]]]; vm_compute; reflexivity.
Qed.

(** X12. [search] with a query string always returns. With an external client
    it reports no results and no fields. Without one, the mock reports at
    least one result, a non-empty set of suggested values whose keys are
    distinct schema fields, and as many references as results. *)
Theorem search_answers (rag : t) (query : string) :
  exists r,
    search rag (Some query) = Ok r /\
    (rag_client rag = true -> num_results r = 0 /\ found_fields r = []) /\
    (rag_client rag = false ->
     0 < num_results r /\
     found_fields r <> [] /\
     dict_wf (found_fields r) /\
     (forall k, In k (dict_keys (found_fields r)) ->
                In k FieldManager.schema_names) /\
     exists studies,
       similar_studies r = Some studies /\ length studies = num_results r).
Proof.
  unfold search. destruct (rag_client rag); cbn [negb].
  - eexists. split; [reflexivity|]. split; [now split | discriminate].
  - eexists. split; [reflexivity|]. split; [discriminate|]. intros _.
    pose proof (mock_search_shaped query) as H. unfold mock_shaped in H.
    repeat (apply andb_true_iff in H as [H ?]).
    set (r := _mock_search query) in *.
    split; [now apply Nat.ltb_lt|]. split.
    { destruct (found_fields r); [discriminate | discriminate]. }
    split; [now apply bool_decide_eq_true in H3|]. split.
    { intros k Hk. rewrite List.forallb_forall in H2. specialize (H2 k Hk).
      apply List.existsb_exists in H2 as (x & Hx & Heq).
      apply String.eqb_eq in Heq. now subst. }
    destruct (similar_studies r) as [l|]; [|discriminate].
    exists l. split; [reflexivity|]. now apply Nat.eqb_eq.
Qed.

Lemma search_answers_witness :
  exists r,
    search (Make false) (Some "yellowing of films") = Ok r /\
    0 < num_results r /\ found_fields r <> [].
Proof.
  destruct (search_answers (Make false) "yellowing of films")
    as (r & Hrun & _ & Hmock).
  exists r. split; [exact Hrun|].
  destruct (Hmock eq_refl) as (Hn & Hf & _). now split.
Defined.

(** *** Which scenario the mock picks *)

Lemma first_scenario_app (before after : dict results) (query_lower : string) :
  (forall k, In k (dict_keys before) ->
             any_in (_get_keywords k) query_lower = false) ->
  first_scenario (before ++ after) query_lower =
  first_scenario after query_lower.
Proof.
  induction before as [|[k s] before IH]; intros Hnone; [reflexivity|].
  cbn [app first_scenario]. rewrite (Hnone k) by now left.
  apply IH. intros k' Hk'. apply Hnone. now right.
Qed.

(** X13. The mock answers with the first scenario of its table one of whose
    keywords occurs in the lower-cased query: keywords of later scenarios
    in the query change nothing. *)
Theorem mock_search_first_match
    (query : string) (before after : dict results)
    (keyword : string) (scenario : results) :
  scenarios = before ++ (keyword, scenario) :: after ->
  (forall k, In k (dict_keys before) ->
             any_in (_get_keywords k) (lower query) = false) ->
  any_in (_get_keywords keyword) (lower query) = true ->
  _mock_search query = scenario.
Proof.
  intros Htable Hnone Hhit. unfold _mock_search. rewrite Htable.
  rewrite first_scenario_app by exact Hnone.
  cbn [first_scenario]. now rewrite Hhit.
Qed.

Lemma mock_search_first_match_witness :
  _mock_search "Thermal stability of the new polymer blend" = _scenario_gpc.
Proof.
  apply (mock_search_first_match
           "Thermal stability of the new polymer blend"
           [("degradation", _scenario_degradation)]
           [("thermal", _scenario_thermal); ("ftir", _scenario_ftir);
            ("nmr", _scenario_nmr); ("formulation", _scenario_formulation)]
           "gpc" _scenario_gpc).
  - reflexivity.
  - intros k [<-|[]]. vm_compute. reflexivity.
  - vm_compute. reflexivity.
Defined.
Lemma first_scenario_none (table : dict results) (query_lower : string) :
  first_scenario table query_lower = None <->
  forall k, In k (dict_keys table) ->
            any_in (_get_keywords k) query_lower = false.
Proof.
  induction table as [|[k s] table IH]; cbn [first_scenario dict_keys map fst].
  - split; [intros _ k [] | reflexivity].
  - destruct (any_in (_get_keywords k) query_lower) eqn:E.
    + split; [discriminate|]. intros H. specialize (H k (or_introl eq_refl)).
      congruence.
    + rewrite IH. split.
      * intros H k' [<-|Hk']; [exact E | now apply H].
      * intros H k' Hk'. apply H. now right.
Qed.

(** X14. The mock answers with the generic scenario exactly when the
    lower-cased query contains no keyword of any of the six scenarios. *)
Theorem mock_search_generic_iff (query : string) :
  _mock_search query = _scenario_generic <->
  forall k w,
    In k (dict_keys scenarios) -> In w (_get_keywords k) ->
    str_in w (lower query) = false.
Proof.
  assert (Hnone : first_scenario scenarios (lower query) = None <->
                  forall k w,
                    In k (dict_keys scenarios) -> In w (_get_keywords k) ->
                    str_in w (lower query) = false).
  { rewrite first_scenario_none. split.
    - intros H k w Hk Hw. specialize (H k Hk). unfold any_in in H.
      destruct (str_in w (lower query)) eqn:E; [|reflexivity].
      assert (existsb (fun w => str_in w (lower query)) (_get_keywords k) = true)
        by (apply List.existsb_exists; now exists w).
      congruence.
    - intros H k Hk. unfold any_in.
      destruct (existsb _ _) eqn:E; [|reflexivity].
      apply List.existsb_exists in E as (w & Hw & Hin).
      rewrite (H k w Hk Hw) in Hin. discriminate. }
  rewrite <- Hnone. unfold _mock_search.
  destruct (first_scenario scenarios (lower query)) as [r|] eqn:E.
  - split; [|discriminate]. intros ->.
    apply first_scenario_in in E. simpl in E.
    destruct E as [E|[E|[E|[E|[E|[E|[]]]]]]]; discriminate E.
  - now split.
Qed.

End RAGServiceFacts.

(** ** Action Dispatcher *)

Module ActionExecutorFacts.
Import PyFacts.
Import Models.
Import ActionExecutor.

Lemma filter_all {A} (P : A -> bool) (l : list A) :
  forallb P l = true -> List.filter P l = l.
Proof.
  induction l as [|a l IH]; simpl; [reflexivity|].
  destruct (P a); simpl; [|discriminate]. intros H. now rewrite IH.
Qed.

Lemma complete_filled_all fm :
  FieldManager.is_complete fm = true ->
  FieldManager.get_filled_fields fm = FieldManager.fields fm.
Proof.
  unfold FieldManager.is_complete, FieldManager.get_filled_fields, dict_values.
  intros H. apply filter_all.
  induction (FieldManager.fields fm) as [|[k v] d IH]; simpl in *; [reflexivity|].
  destruct (truthy v); simpl in *; [now apply IH | discriminate].
Qed.

(** C3. Executing a SUBMIT_FORM decision on a tracker with an unset
    schema field returns a response of type "incomplete" and the tracker
    unchanged; on a tracker whose schema fields are all set it returns a
    response of type "submitted" whose ticket data holds the value of
    each of the N schema fields and whose ticket identifier is the prefix
    "STUDY-" followed by the formatted current time, and again the
    tracker unchanged. *)
Theorem submit_form_reads_only
    (rag_service : RAGService.t) (stamp : string)
    (decision : AgentDecision) (fm : FieldManager.t) :
  action decision = SUBMIT_FORM ->
  FieldManager.schema_keyed fm ->
  ((exists k, In k FieldManager.schema_names /\
              truthy (FieldManager.get_field fm k) = false) ->
   exists r,
     execute rag_service stamp decision fm = Ok (r, fm) /\
     r_type r = "incomplete") /\
  ((forall k, In k FieldManager.schema_names ->
              truthy (FieldManager.get_field fm k) = true) ->
   exists r data,
     execute rag_service stamp decision fm = Ok (r, fm) /\
     r_type r = "submitted" /\
     r_ticket_id r = Some ("STUDY-" +:+ stamp) /\
     r_ticket_data r = Some data /\
     dict_keys data = FieldManager.schema_names /\
     length data = length FieldManager.FORM_SCHEMA /\
     (forall k, In k FieldManager.schema_names ->
                dict_get data k = Some (FieldManager.get_field fm k))).
Proof.
  intros Hact Hk. unfold execute. rewrite Hact. unfold _execute_submit_form.
  rewrite (FieldManagerFacts.is_complete_by_schema fm Hk). split.
  - intros (k & Hin & Hunset).
    destruct (forallb _ FieldManager.schema_names) eqn:E.
    + rewrite List.forallb_forall in E. rewrite (E k Hin) in Hunset. discriminate.
    + eexists. split; reflexivity.
  - intros Hall.
    assert (E : forallb (fun k => truthy (FieldManager.get_field fm k))
                  FieldManager.schema_names = true).
    { now apply List.forallb_forall. }
    rewrite E. cbn [negb].
    rewrite complete_filled_all
      by now rewrite (FieldManagerFacts.is_complete_by_schema fm Hk).
    eexists. exists (FieldManager.fields fm).
    split; [reflexivity|]. split; [reflexivity|]. split; [reflexivity|].
    split; [reflexivity|]. split; [exact Hk|]. split.
    + now apply FieldManagerFacts.schema_keyed_length.
    + intros k Hin. rewrite <- Hk in Hin.
      apply dict_contains_In in Hin. unfold dict_contains in Hin.
      unfold FieldManager.get_field.
      now destruct (dict_get (FieldManager.fields fm) k).
Qed.

Lemma submit_form_reads_only_witness :
  exists r,
    execute (RAGService.Make false) "20240101-120000"
      (Decision SUBMIT_FORM "submit" None None None None "Submitting" false (9 # 10))
      (fst (FieldManager.update_fields FieldManager.init [("Client", "Acme")])) =
    Ok (r, fst (FieldManager.update_fields FieldManager.init [("Client", "Acme")])) /\
    r_type r = "incomplete".
Proof.
  apply (submit_form_reads_only (RAGService.Make false) "20240101-120000"
           (Decision SUBMIT_FORM "submit" None None None None "Submitting" false
              (9 # 10))
           (fst (FieldManager.update_fields FieldManager.init [("Client", "Acme")]))).
  - reflexivity.
  - reflexivity.
  - exists "Problem". split; [|reflexivity].
    apply (bool_decide_unpack _). vm_compute. exact I.
Defined.

(** *** Which actions change the tracker, and which raise *)

(** Whatever the action, the tracker [execute] returns is the one it was
    given or the result of an [update_fields] on it. *)
Lemma execute_tracker
    (rag_service : RAGService.t) (stamp : string)
    (decision : AgentDecision) (fm : FieldManager.t)
    (r : response) (fm' : FieldManager.t) :
  execute rag_service stamp decision fm = Ok (r, fm') ->
  fm' = fm \/
  exists updates, fm' = fst (FieldManager.update_fields fm updates).
Proof.
  unfold execute.
  destruct (action decision);
    try (intros [= _ <-]; now left).
  - unfold _execute_suggest_fields.
    destruct (suggested_fields decision) as [[|]|]; intros [= _ <-]; now left.
  - unfold _execute_update_field.
    destruct (field_name decision) as [name|]; [|intros [= _ <-]; now left].
    destruct (field_value decision) as [value|]; [|intros [= _ <-]; now left].
    destruct (_ || _); [intros [= _ <-]; now left|].
    unfold mbind, result_bind, mret, result_ret.
    destruct (FieldManager.calculate_progress _); cbn [Py.bind];
      [|discriminate].
    intros [= _ <-]. right. now exists [(name, value)].
  - unfold _execute_search_rag, mbind, result_bind, mret, result_ret.
    destruct (RAGService.search _ _) as [res|]; cbn [Py.bind]; [|discriminate].
    destruct (_ && _); intros [= _ <-]; now left.
  - unfold _execute_submit_form. destruct (negb _); intros [= _ <-]; now left.
Qed.

(** A SEARCH_RAG decision without a query, handed to the mock retrieval,
    raises. *)
Lemma execute_search_without_query
    (rag_service : RAGService.t) (stamp : string)
    (decision : AgentDecision) (fm : FieldManager.t) :
  action decision = SEARCH_RAG ->
  search_query decision = None ->
  RAGService.rag_client rag_service = false ->
  execute rag_service stamp decision fm = Raise AttributeError.
Proof.
  intros Hact Hq Hc. unfold execute. rewrite Hact.
  unfold _execute_search_rag, RAGService.search. now rewrite Hq, Hc.
Qed.

(** On a schema-keyed tracker nothing else raises. *)
Lemma execute_raise_inv
    (rag_service : RAGService.t) (stamp : string)
    (decision : AgentDecision) (fm : FieldManager.t) (e : exn) :
  FieldManager.schema_keyed fm ->
  execute rag_service stamp decision fm = Raise e ->
  action decision = SEARCH_RAG /\
  search_query decision = None /\
  RAGService.rag_client rag_service = false /\
  e = AttributeError.
Proof.
  intros Hk. unfold execute.
  destruct (action decision) eqn:Hact; try discriminate.
  - unfold _execute_suggest_fields.
    destruct (suggested_fields decision) as [[|]|]; discriminate.
  - unfold _execute_update_field.
    destruct (field_name decision) as [name|]; [|discriminate].
    destruct (field_value decision) as [value|]; [|discriminate].
    destruct (_ || _); [discriminate|].
    assert (Hk' : FieldManager.schema_keyed
                    (fst (FieldManager.update_fields fm [(name, value)]))).
    { unfold FieldManager.schema_keyed.
      now rewrite FieldManagerFacts.update_fields_keys. }
    destruct (FieldManagerFacts.calculate_progress_spec _ Hk') as (p & Hp & _).
    rewrite Hp. discriminate.
  - unfold _execute_search_rag, RAGService.search,
      mbind, result_bind, mret, result_ret.
    destruct (RAGService.rag_client rag_service); cbn [negb Py.bind].
    + discriminate.
    + destruct (search_query decision) as [q|]; cbn [Py.bind].
      * now destruct (_ && _).
      * intros [= <-]. now repeat split.
  - unfold _execute_submit_form. now destruct (negb _).
Qed.

(** Only an UPDATE_FIELD decision can change the tracker: for every
    other action, whenever [execute] returns, it returns the tracker it
    was given. *)
Theorem execute_changes_tracker_only_on_update
    (rag_service : RAGService.t) (stamp : string)
    (decision : AgentDecision) (fm : FieldManager.t) :
  action decision <> UPDATE_FIELD ->
  match execute rag_service stamp decision fm with
  | Ok (_, fm') => fm' = fm
  | Raise _ => True
  end.
Proof.
  intros Hact. unfold execute.
  destruct (action decision); try congruence; try exact eq_refl.
  - unfold _execute_suggest_fields.
    destruct (suggested_fields decision) as [[|]|]; exact eq_refl.
  - unfold _execute_search_rag, mbind, result_bind, mret, result_ret.
    destruct (RAGService.search _ _) as [res|]; cbn [Py.bind]; [|exact I].
    destruct (_ && _); exact eq_refl.
  - unfold _execute_submit_form. destruct (negb _); exact eq_refl.
Qed.

Lemma execute_changes_tracker_only_on_update_witness :
  match
    execute (RAGService.Make false) "20240101-120000"
      (Decision SEARCH_RAG "problem described" None None
         (Some "yellowing of films") None "Searching" false (8 # 10))
      FieldManager.init
  with
  | Ok (_, fm') => fm' = FieldManager.init
  | Raise _ => True
  end.
Proof.
  apply (execute_changes_tracker_only_on_update (RAGService.Make false)
           "20240101-120000"
           (Decision SEARCH_RAG "problem described" None None
              (Some "yellowing of films") None "Searching" false (8 # 10))
           FieldManager.init).
  discriminate.
Defined.

(** X15. On a schema-keyed tracker [execute] raises in one case only: a
    SEARCH_RAG decision without a query handed to the mock retrieval,
    whose [query.lower()] fails on [None] with an [AttributeError]. *)
Theorem execute_raises_only_on_search_without_query
    (rag_service : RAGService.t) (stamp : string)
    (decision : AgentDecision) (fm : FieldManager.t) (e : exn) :
  FieldManager.schema_keyed fm ->
  (execute rag_service stamp decision fm = Raise e <->
   action decision = SEARCH_RAG /\
   search_query decision = None /\
   RAGService.rag_client rag_service = false /\
   e = AttributeError).
Proof.
  intros Hk. split.
  - now apply execute_raise_inv.
  - intros (Hact & Hq & Hc & ->). now apply execute_search_without_query.
Qed.

Lemma execute_raises_only_on_search_without_query_witness :
  execute (RAGService.Make false) "20240101-120000"
    (Decision SEARCH_RAG "problem described" None None None None "Searching"
       false (8 # 10))
    FieldManager.init = Raise AttributeError.
Proof.
  apply (execute_raises_only_on_search_without_query (RAGService.Make false)
           "20240101-120000"
           (Decision SEARCH_RAG "problem described" None None None None
              "Searching" false (8 # 10))
           FieldManager.init AttributeError).
  - reflexivity.
  - repeat split.
Defined.

(** X16. An UPDATE_FIELD decision without a field name or value, or with an
    empty one, is refused with an "error" response and changes nothing.
    With both, the response is "field_updated" and the tracker is the one
    [update_fields] returns for that one item: a schema field reads the
    new value, every other field reads as before, and for a name outside
    the schema the tracker is unchanged although the response is still
    "field_updated". *)
Theorem update_field_outcomes
    (rag_service : RAGService.t) (stamp : string)
    (decision : AgentDecision) (fm : FieldManager.t) :
  action decision = UPDATE_FIELD ->
  FieldManager.schema_keyed fm ->
  exists r fm',
    execute rag_service stamp decision fm = Ok (r, fm') /\
    match field_name decision, field_value decision with
    | Some name, Some value =>
        if str_truthy name && str_truthy value
        then
          r_type r = "field_updated" /\
          (In name FieldManager.schema_names ->
           FieldManager.get_field fm' name = Some value) /\
          (~ In name FieldManager.schema_names -> fm' = fm) /\
          (forall k, k <> name ->
                     FieldManager.get_field fm' k = FieldManager.get_field fm k)
        else r_type r = "error" /\ fm' = fm
    | _, _ => r_type r = "error" /\ fm' = fm
    end.
Proof.
  intros Hact Hk. unfold execute. rewrite Hact. unfold _execute_update_field.
  destruct (field_name decision) as [name|];
    [|eexists; eexists; split; [reflexivity | now split]].
  destruct (field_value decision) as [value|];
    [|eexists; eexists; split; [reflexivity | now split]].
  destruct (str_truthy name); cbn [negb orb andb];
    [|eexists; eexists; split; [reflexivity | now split]].
  destruct (str_truthy value); cbn [negb];
    [|eexists; eexists; split; [reflexivity | now split]].
  assert (Hk' : FieldManager.schema_keyed
                  (fst (FieldManager.update_fields fm [(name, value)]))).
  { unfold FieldManager.schema_keyed.
    now rewrite FieldManagerFacts.update_fields_keys. }
  destruct (FieldManagerFacts.calculate_progress_spec _ Hk') as (p & Hp & _).
  rewrite Hp. unfold mbind, result_bind, mret, result_ret. cbn [Py.bind].
  eexists. eexists. split; [reflexivity|].
  split; [reflexivity|]. split; [|split].
  - intros Hin. apply FieldManagerFacts.update_fields_get.
    + unfold dict_wf. simpl. apply NoDup_singleton.
    + simpl. now rewrite String.eqb_refl.
    + unfold FieldManager.schema_keyed in Hk. now rewrite Hk.
  - intros Hout. unfold FieldManager.schema_keyed in Hk. rewrite <- Hk in Hout.
    apply dict_get_None in Hout.
    unfold FieldManager.update_fields. cbn [fold_left FieldManager.update_step].
    unfold dict_contains. now rewrite Hout.
  - intros k Hne. apply FieldManagerFacts.update_fields_get_other.
    simpl. intros [->|[]]. now apply Hne.
Qed.

Lemma update_field_outcomes_witness :
  exists r fm',
    execute (RAGService.Make false) "20240101-120000"
      (Decision UPDATE_FIELD "single update" (Some "Nickname") (Some "Bob") None
         None "Updated" false (9 # 10))
      FieldManager.init = Ok (r, fm') /\
    r_type r = "field_updated" /\ fm' = FieldManager.init.
Proof.
  destruct (update_field_outcomes (RAGService.Make false) "20240101-120000"
              (Decision UPDATE_FIELD "single update" (Some "Nickname") (Some "Bob")
                 None None "Updated" false (9 # 10))
              FieldManager.init) as (r & fm' & Hrun & Htype & _ & Hout & _).
  - reflexivity.
  - reflexivity.
  - exists r, fm'. split; [exact Hrun|]. split; [exact Htype|].
    apply Hout. apply (bool_decide_unpack _). vm_compute. exact I.
Defined.

End ActionExecutorFacts.

(** ** Session Orchestrator *)

Module StudyBotAgentFacts.
Import PyFacts.
Import Models.
Import ActionExecutor.
Import StudyBotAgent.

Ltac unfold_monad := unfold mbind, mret, result_bind, result_ret, Py.bind.

(** *** The automatic retrieval *)

(** [_auto_trigger_rag] always returns. It sends one query, leaves the
    tracker and the log alone, and either leaves the session alone or
    stores new suggestions for fields that are not filled, sets
    [awaiting_confirmation] and sets [rag_search_performed]. *)
Lemma auto_trigger_spec (a : t) :
  exists a',
    _auto_trigger_rag a = Ok a' /\
    field_manager a' = field_manager a /\
    conversation a' = conversation a /\
    rag_service a' = rag_service a /\
    saved a' = saved a /\
    (exists query, auto_rag_queries a' = auto_rag_queries a ++ [query]) /\
    (self_session a' = self_session a \/
     exists new,
       new <> [] /\
       self_session a' =
         with_rag_performed
           (with_awaiting (with_pending (self_session a) (Some new)) true) true /\
       forall k v,
         dict_get new k = Some v ->
         truthy (FieldManager.get_field (field_manager a) k) = false).
Proof.
  unfold _auto_trigger_rag.
  set (query := match FieldManager.get_field (field_manager a) "Problem" with
                | Some p => if str_truthy p then p else "study request"
                | None => "study request"
                end).
  cbn [rag_service field_manager self_session conversation auto_rag_queries saved].
  assert (Hs : exists results,
             RAGService.search (rag_service a) (Some query) = Ok results).
  { unfold RAGService.search. destruct (negb _); eexists; reflexivity. }
  destruct Hs as [results Hs]. rewrite Hs. unfold_monad.
  destruct (Nat.ltb 0 (RAGService.num_results results) &&
            dict_truthy (RAGService.found_fields results)).
  - destruct (new_suggestions_of (field_manager a) (RAGService.found_fields results))
      as [|item new] eqn:Hnew; cbn [dict_truthy].
    + eexists. split; [reflexivity|]. cbn.
      repeat split; [now exists query | now left].
    + eexists. split; [reflexivity|]. cbn.
      repeat split; [now exists query|]. right.
      exists (item :: new). split; [discriminate|]. split; [reflexivity|].
      intros k v Hget. rewrite <- Hnew in Hget. unfold new_suggestions_of in Hget.
      apply FieldManagerFacts.dict_get_filter in Hget as [_ Hunfilled].
      cbn in Hunfilled. now apply negb_true_iff in Hunfilled.
  - eexists. split; [reflexivity|]. cbn.
    repeat split; [now exists query | now left].
Qed.


(** *** The confirmation path *)

Lemma confirmed_flow
    (parse_detection : string -> result ConfirmationDetection)
    (a : t) (llm : result Llm.response) (message : string)
    (pending : dict string) :
  pending_suggestions (self_session a) = Some pending ->
  FieldManager.schema_keyed (field_manager a) ->
  is_confirmation
    (ConfirmationHandler.detect_confirmation parse_detection llm message
       (Some pending)) = true ->
  above_threshold
    (cd_confidence
       (ConfirmationHandler.detect_confirmation parse_detection llm message
          (Some pending))) = true ->
  exists r a',
    _handle_confirmation_flow parse_detection a llm message = Ok (r, a') /\
    r_type r = "apply_suggestions" /\
    confirmed_outcome a a' pending.
Proof.
  intros Hpending Hk Hconf Habove.
  unfold _handle_confirmation_flow. rewrite Hpending, Hconf, Habove.
  cbn [andb]. unfold_monad.
  set (fm := fst (FieldManager.update_fields (field_manager a) pending)).
  assert (Hk' : FieldManager.schema_keyed fm).
  { unfold FieldManager.schema_keyed, fm.
    now rewrite FieldManagerFacts.update_fields_keys. }
  destruct (FieldManagerFacts.calculate_progress_spec fm Hk') as (p & Hp & _).
  rewrite Hp.
  cbn [set_field_manager set_session self_session field_manager rag_service
       conversation auto_rag_queries saved with_awaiting with_pending
       with_progress rag_search_performed].
  destruct (rag_search_performed (self_session a)) eqn:Hrag; cbn [negb andb].
  - eexists. eexists. split; [reflexivity|]. split; [reflexivity|].
    unfold confirmed_outcome. cbn. repeat split; congruence.
  - destruct (FieldManager.is_complete fm) eqn:Hcomplete; cbn [negb].
    + eexists. eexists. split; [reflexivity|]. split; [reflexivity|].
      unfold confirmed_outcome. cbn. fold fm. rewrite Hrag.
      repeat split; congruence.
    + match goal with
      | |- context [_auto_trigger_rag ?x] =>
          destruct (auto_trigger_spec x)
            as (a' & Hauto & Hfm & Hcm & _ & _ & Hq & Hsession)
      end.
      rewrite Hauto.
      eexists. eexists. split; [reflexivity|]. split; [reflexivity|].
      unfold confirmed_outcome. cbn in Hfm, Hcm, Hq, Hsession.
      rewrite Hfm, Hcm. fold fm.
      split; [reflexivity|]. split; [reflexivity|]. split.
      { destruct Hsession as [->|(new & _ & -> & _)]; reflexivity. }
      split.
      { intros [H|H]; congruence. }
      intros _ _. split; [exact Hq|].
      destruct Hsession as [->|(new & Hne & -> & Hunfilled)].
      * left. cbn. now rewrite Hrag.
      * right. cbn. repeat split. exists new. now repeat split.
Qed.


(** *** One turn while a suggestion awaits confirmation *)

Lemma handle_message_awaiting
    (parse_detection : string -> result ConfirmationDetection)
    (parse_decision : string -> result AgentDecision)
    (a : t) (i : turn) (r : response) (a1 : t) :
  awaiting_confirmation (self_session a) = true ->
  _handle_confirmation_flow parse_detection
    (set_conversation a
       (ConversationManager.add_message (conversation a) (t_now_user i)
          "user" (t_message i) None))
    (t_llm i) (t_message i) = Ok (r, a1) ->
  handle_message parse_detection parse_decision a i =
  Ok (r,
      _save_checkpoint
        (set_conversation a1
           (ConversationManager.add_message (conversation a1) (t_now_reply i)
              "assistant" (r_message r) (last_action (self_session a1))))
        (t_now_saved i)).
Proof.
  intros Hawait Hflow. unfold handle_message. cbv zeta.
  change (awaiting_confirmation (self_session (set_conversation a
            (ConversationManager.add_message (conversation a) (t_now_user i)
               "user" (t_message i) None))))
    with (awaiting_confirmation (self_session a)).
  rewrite Hawait. unfold_monad. rewrite Hflow. reflexivity.
Qed.




(** C8 (amended). For every session state with [awaiting_confirmation]
    true, handling a message that is classified as a rejection, not as a
    modification, and not as a confirmation with confidence greater than
    0.6 sets [awaiting_confirmation] to false, clears
    [pending_suggestions] and leaves the Field Tracker as it was. *)
Theorem rejection_discards_pending
    (parse_detection : string -> result ConfirmationDetection)
    (parse_decision : string -> result AgentDecision)
    (a : t) (i : turn) :
  awaiting_confirmation (self_session a) = true ->
  is_rejection
    (ConfirmationHandler.detect_confirmation parse_detection (t_llm i)
       (t_message i) (pending_suggestions (self_session a))) = true ->
  is_modification_request
    (ConfirmationHandler.detect_confirmation parse_detection (t_llm i)
       (t_message i) (pending_suggestions (self_session a))) = false ->
  is_confirmation
    (ConfirmationHandler.detect_confirmation parse_detection (t_llm i)
       (t_message i) (pending_suggestions (self_session a))) &&
  above_threshold
    (cd_confidence
       (ConfirmationHandler.detect_confirmation parse_detection (t_llm i)
          (t_message i) (pending_suggestions (self_session a)))) = false ->
  exists r a',
    handle_message parse_detection parse_decision a i = Ok (r, a') /\
    r_type r = "rejection" /\
    awaiting_confirmation (self_session a') = false /\
    pending_suggestions (self_session a') = None /\
    field_manager a' = field_manager a.
Proof.
  intros Hawait Hrej Hmod Hconf.
  eexists. eexists. split.
  { apply handle_message_awaiting; [assumption|].
    unfold _handle_confirmation_flow.
    cbn [set_conversation self_session].
    rewrite Hconf, Hmod, Hrej. reflexivity. }
  repeat split.
Qed.

Lemma rejection_discards_pending_witness :
  exists r a',
    handle_message Scenarios.parse_detection Scenarios.parse_decision
      Scenarios.awaiting_acme (Scenarios.unanswered "no") = Ok (r, a') /\
    r_type r = "rejection" /\
    awaiting_confirmation (self_session a') = false /\
    pending_suggestions (self_session a') = None /\
    field_manager a' = field_manager Scenarios.awaiting_acme.
Proof.
  apply (rejection_discards_pending
           Scenarios.parse_detection Scenarios.parse_decision
           Scenarios.awaiting_acme (Scenarios.unanswered "no")).
  - reflexivity.
  - vm_compute. reflexivity.
  - vm_compute. reflexivity.
  - vm_compute. reflexivity.
Defined.

(** C8 (as stated) fails when the classifier reports a rejection and a
    confirmation at once. With [{"Client": "Acme"}] pending, the message
    "not correct" is classified by the rule-based fallback as a rejection
    ("no" occurs in it) and not as a modification, yet also as a
    confirmation ("correct" occurs in it) with confidence 0.7; the
    confirmation branch is tested first, and the suggestion is applied to
    the Field Tracker. *)
Lemma rejection_with_confirmation_applies :
  awaiting_confirmation (self_session Scenarios.awaiting_acme) = true /\
  pending_suggestions (self_session Scenarios.awaiting_acme) =
    Some [("Client", "Acme")] /\
  is_rejection (ConfirmationHandler._fallback_detection "not correct") = true /\
  is_modification_request
    (ConfirmationHandler._fallback_detection "not correct") = false /\
  FieldManager.get_field (field_manager Scenarios.awaiting_acme) "Client" = None /\
  exists r a',
    handle_message Scenarios.parse_detection Scenarios.parse_decision
      Scenarios.awaiting_acme (Scenarios.unanswered "not correct") = Ok (r, a') /\
    r_type r = "apply_suggestions" /\
    FieldManager.get_field (field_manager a') "Client" = Some "Acme".
Proof.
  split; [reflexivity|]. split; [reflexivity|].
  split; [vm_compute; reflexivity|]. split; [vm_compute; reflexivity|].
  split; [reflexivity|].
  eexists. eexists. split; [vm_compute; reflexivity|].
  repeat split.
Qed.

(** *** The automatic retrieval over a session's lifetime *)

(** While [rag_search_performed] is false, a confirmation that leaves the
    form incomplete sends a retrieval query, and when the search brings
    nothing new the flag is still false afterwards. *)
Lemma unproductive_retrieval_keeps_flag
    (a a' : t) (pending : dict string) :
  confirmed_outcome a a' pending ->
  rag_search_performed (self_session a) = false ->
  FieldManager.is_complete (field_manager a') = false ->
  pending_suggestions (self_session a') = None ->
  length (auto_rag_queries a') = S (length (auto_rag_queries a)) /\
  rag_search_performed (self_session a') = false.
Proof.
  intros (_ & _ & _ & _ & Hauto) Hrag Hinc Hnone.
  destruct (Hauto Hrag Hinc) as ((query & ->) & [H|H]).
  - rewrite length_app. simpl. split; [lia|]. now destruct H as (_ & _ & ?).
  - destruct H as (_ & _ & new & _ & Hsome & _). congruence.
Qed.

(** Once [rag_search_performed] is true it stays true, and no turn sends
    an automatic retrieval query any more. *)
Lemma retrieval_blocked_once_performed
    (parse_detection : string -> result ConfirmationDetection)
    (parse_decision : string -> result AgentDecision)
    (a : t) (i : turn) (r : response) (a' : t) :
  rag_search_performed (self_session a) = true ->
  handle_message parse_detection parse_decision a i = Ok (r, a') ->
  auto_rag_queries a' = auto_rag_queries a /\
  rag_search_performed (self_session a') = true.
Proof.
  intros Hrag. unfold handle_message. cbv zeta.
  set (a0 := set_conversation a _).
  assert (Hrag0 : rag_search_performed (self_session a0) = true) by exact Hrag.
  assert (Hq0 : auto_rag_queries a0 = auto_rag_queries a) by reflexivity.
  clearbody a0. rewrite <- Hq0. clear Hq0 Hrag a.
  assert (Hflow : forall r1 a1,
    (if awaiting_confirmation (self_session a0)
     then _handle_confirmation_flow parse_detection a0 (t_llm i) (t_message i)
     else _handle_regular_flow parse_decision a0 (t_llm i) (t_stamp i)
            (t_message i)) = Ok (r1, a1) ->
    auto_rag_queries a1 = auto_rag_queries a0 /\
    rag_search_performed (self_session a1) = true).
  { intros r1 a1. destruct (awaiting_confirmation (self_session a0)).
    - unfold _handle_confirmation_flow.
      destruct (is_confirmation _ && above_threshold _).
      + destruct (pending_suggestions (self_session a0)); unfold_monad;
          [|discriminate].
        destruct (FieldManager.calculate_progress _); [|discriminate].
        cbn [set_field_manager set_session self_session with_awaiting
             with_pending with_progress rag_search_performed].
        rewrite Hrag0. cbn [negb andb].
        intros [= <- <-]. cbn. now split.
      + destruct (is_modification_request _);
          [destruct (extracted_modifications _) as [[|m ms]|]|];
          try (destruct (is_rejection _); unfold_monad; intros [= <- <-];
               cbn; now split).
        unfold_monad. destruct (FieldManager.calculate_progress _); [|discriminate].
        intros [= <- <-]. cbn. now split.
    - unfold _handle_regular_flow, _get_agent_state. unfold_monad.
      destruct (FieldManager.calculate_progress _); [|discriminate].
      destruct (execute _ _ _ _) as [[r2 fm2]|]; [|discriminate].
      intros [= <- <-].
      destruct (suggested_fields _) as [[|s0 ss]|]; cbn; try (now split).
      destruct (String.eqb _ _); cbn; [|now split].
      destruct (negb _); cbn; now split. }
  unfold_monad.
  destruct (if awaiting_confirmation (self_session a0) then _ else _)
    as [[r1 a1]|] eqn:E; [|discriminate].
  destruct (Hflow r1 a1 eq_refl) as [Hq Hr].
  intros [= <- <-]. cbn. now split.
Qed.

(** A turn whose model call raises is handled the same whatever the
    parsers are. *)
Lemma unanswered_any_parser
    (pd pd' : string -> result ConfirmationDetection)
    (pdec pdec' : string -> result AgentDecision)
    (a : t) (i : turn) (e : exn) :
  t_llm i = Raise e ->
  handle_message pd pdec a i = handle_message pd' pdec' a i.
Proof.
  intros Hllm.
  unfold handle_message, _handle_confirmation_flow, _handle_regular_flow,
    ConfirmationHandler.detect_confirmation, DecisionMaker.decide_action.
  rewrite Hllm. reflexivity.
Qed.

(** Outside a confirmation, a turn depends on the decision parser only
    through what it makes of the model's answer. *)
Lemma answered_regular_any_parser
    (pd pd' : string -> result ConfirmationDetection)
    (pdec pdec' : string -> result AgentDecision)
    (a : t) (i : turn) (response : Llm.response) (text : string) :
  awaiting_confirmation (self_session a) = false ->
  t_llm i = Ok response ->
  Llm.extract_text response = Ok text ->
  pdec text = pdec' text ->
  handle_message pd pdec a i = handle_message pd' pdec' a i.
Proof.
  intros Hawait Hllm Htext Hagree. unfold handle_message. cbv zeta.
  change (awaiting_confirmation (self_session (set_conversation a
            (ConversationManager.add_message (conversation a) (t_now_user i)
               "user" (t_message i) None))))
    with (awaiting_confirmation (self_session a)).
  rewrite Hawait.
  unfold _handle_regular_flow, DecisionMaker.decide_action.
  rewrite Hllm. unfold_monad. rewrite Htext, Hagree. reflexivity.
Qed.

(** C2. The automatic retrieval fires at most once per session. The code
    breaks this: [rag_search_performed] is set only when the search
    brings values for unfilled fields. In a fresh session with the mock
    retrieval service the user states five field values and confirms
    them, then states the client and confirms it, the model's two answers
    being read as the two SUGGEST_FIELDS decisions. Both confirmations
    leave the form incomplete, the first retrieval finds nothing new, and
    the automatic retrieval is sent twice. *)
Theorem auto_retrieval_fires_twice
    (parse_detection : string -> result ConfirmationDetection)
    (parse_decision : string -> result AgentDecision) :
  parse_decision "A1" = Ok (Scenarios.suggest Scenarios.five_fields) ->
  parse_decision "A2" = Ok (Scenarios.suggest Scenarios.client_acme) ->
  exists a',
    handle_messages parse_detection parse_decision Scenarios.fresh
      Scenarios.two_confirmations = Ok a' /\
    auto_rag_queries a' = ["study request"; "study request"] /\
    rag_search_performed (self_session a') = false /\
    FieldManager.is_complete (field_manager a') = false.
Proof.
  intros H1 H2.
  assert (Hrun :
    handle_messages parse_detection parse_decision Scenarios.fresh
      Scenarios.two_confirmations =
    handle_messages Scenarios.parse_detection Scenarios.parse_decision
      Scenarios.fresh Scenarios.two_confirmations).
  { unfold Scenarios.two_confirmations. cbn [handle_messages].
    rewrite (answered_regular_any_parser
               parse_detection Scenarios.parse_detection
               parse_decision Scenarios.parse_decision
               Scenarios.fresh _ [Ok "A1"] "A1")
      by (reflexivity || exact H1).
    destruct (handle_message _ _ Scenarios.fresh _) as [[r1 a1]|] eqn:E1;
      [|reflexivity].
    vm_compute in E1. injection E1 as <- <-. unfold_monad.
    rewrite (unanswered_any_parser
               parse_detection Scenarios.parse_detection
               parse_decision Scenarios.parse_decision _ _ TimeoutError)
      by reflexivity.
    destruct (handle_message _ _ _ (Scenarios.unanswered "yes"))
      as [[r2 a2]|] eqn:E2; [|reflexivity].
    vm_compute in E2. injection E2 as <- <-.
    rewrite (answered_regular_any_parser
               parse_detection Scenarios.parse_detection
               parse_decision Scenarios.parse_decision
               _ _ [Ok "A2"] "A2")
      by (reflexivity || exact H2).
    destruct (handle_message _ _ _ (Scenarios.answered _ "A2"))
      as [[r3 a3]|] eqn:E3; [|reflexivity].
    vm_compute in E3. injection E3 as <- <-.
    rewrite (unanswered_any_parser
               parse_detection Scenarios.parse_detection
               parse_decision Scenarios.parse_decision _ _ TimeoutError)
      by reflexivity.
    reflexivity. }
  rewrite Hrun. eexists. split; [vm_compute; reflexivity|]. repeat split.
Qed.

Lemma auto_retrieval_fires_twice_witness :
  exists a',
    handle_messages Scenarios.parse_detection Scenarios.parse_decision
      Scenarios.fresh Scenarios.two_confirmations = Ok a' /\
    auto_rag_queries a' = ["study request"; "study request"] /\
    rag_search_performed (self_session a') = false /\
    FieldManager.is_complete (field_manager a') = false.
Proof.
  apply (auto_retrieval_fires_twice
           Scenarios.parse_detection Scenarios.parse_decision).
  - reflexivity.
  - reflexivity.
Defined.

(** *** The anatomy of a turn *)

(** The agent at the start of the flows: the user's message is logged. *)
Lemma handle_message_unfold
    (pd : string -> result ConfirmationDetection)
    (pdec : string -> result AgentDecision) (a : t) (i : turn) :
  handle_message pd pdec a i =
  match
    (if awaiting_confirmation (self_session a)
     then _handle_confirmation_flow pd
            (set_conversation a
               (ConversationManager.add_message (conversation a) (t_now_user i)
                  "user" (t_message i) None))
            (t_llm i) (t_message i)
     else _handle_regular_flow pdec
            (set_conversation a
               (ConversationManager.add_message (conversation a) (t_now_user i)
                  "user" (t_message i) None))
            (t_llm i) (t_stamp i) (t_message i))
  with
  | Ok (r, a1) =>
      Ok (r,
          _save_checkpoint
            (set_conversation a1
               (ConversationManager.add_message (conversation a1)
                  (t_now_reply i) "assistant" (r_message r)
                  (last_action (self_session a1))))
            (t_now_saved i))
  | Raise e => Raise e
  end.
Proof.
  unfold handle_message. cbv zeta.
  change (awaiting_confirmation (self_session (set_conversation a
            (ConversationManager.add_message (conversation a) (t_now_user i)
               "user" (t_message i) None))))
    with (awaiting_confirmation (self_session a)).
  unfold_monad.
  destruct (if awaiting_confirmation (self_session a) then _ else _)
    as [[r a1]|e]; reflexivity.
Qed.

(** What the regular flow does, in terms of the decision [d] taken for
    the message. *)
Lemma regular_flow_effect
    (pdec : string -> result AgentDecision)
    (a : t) (llm : result Llm.response) (stamp message : string)
    (d : AgentDecision) :
  FieldManager.schema_keyed (field_manager a) ->
  (forall st, DecisionMaker.decide_action pdec llm message st = d) ->
  match _handle_regular_flow pdec a llm stamp message with
  | Ok (r, a') =>
      execute (rag_service a) stamp d (field_manager a) = Ok (r, field_manager a') /\
      conversation a' = conversation a /\
      auto_rag_queries a' = auto_rag_queries a /\
      last_action (self_session a') = Some (value (action d)) /\
      progress_pct (self_session a') = progress_pct (self_session a) /\
      rag_search_performed (self_session a') =
        rag_search_performed (self_session a) /\
      match action d, suggested_fields d with
      | SUGGEST_FIELDS, Some ((_ :: _) as suggested) =>
          awaiting_confirmation (self_session a') = true /\
          pending_suggestions (self_session a') = Some suggested /\
          initial_extraction_done (self_session a') = true
      | _, _ =>
          awaiting_confirmation (self_session a') =
            awaiting_confirmation (self_session a) /\
          pending_suggestions (self_session a') =
            pending_suggestions (self_session a) /\
          initial_extraction_done (self_session a') =
            initial_extraction_done (self_session a)
      end
  | Raise e => execute (rag_service a) stamp d (field_manager a) = Raise e
  end.
Proof.
  intros Hk Hd. unfold _handle_regular_flow, _get_agent_state.
  destruct (FieldManagerFacts.calculate_progress_spec _ Hk) as (p & Hp & _).
  rewrite Hp. unfold_monad. rewrite Hd.
  cbn [set_session rag_service field_manager].
  destruct (execute (rag_service a) stamp d (field_manager a)) as [[r fm']|e];
    [|reflexivity].
  destruct (suggested_fields d) as [[|s0 ss]|] eqn:Hs;
    destruct (action d) eqn:Ha; cbn; try (repeat split; reflexivity).
  all: destruct (initial_extraction_done (self_session a)) eqn:E; cbn;
    rewrite ?E; repeat split; reflexivity.
Qed.

(** What the confirmation flow does in each of its branches. *)
Lemma confirmation_flow_effect
    (pd : string -> result ConfirmationDetection)
    (a : t) (llm : result Llm.response) (message : string) :
  FieldManager.schema_keyed (field_manager a) ->
  match _handle_confirmation_flow pd a llm message with
  | Ok (r, a') =>
      conversation a' = conversation a /\
      last_action (self_session a') = last_action (self_session a) /\
      (field_manager a' = field_manager a \/
       exists U,
         field_manager a' = fst (FieldManager.update_fields (field_manager a) U)) /\
      ((awaiting_confirmation (self_session a') = false /\
        pending_suggestions (self_session a') = None) \/
       (awaiting_confirmation (self_session a') = true /\
        exists new,
          new <> [] /\ pending_suggestions (self_session a') = Some new) \/
       (awaiting_confirmation (self_session a') =
          awaiting_confirmation (self_session a) /\
        pending_suggestions (self_session a') =
          pending_suggestions (self_session a)))
  | Raise e =>
      e = AttributeError /\ pending_suggestions (self_session a) = None
  end.
Proof.
  intros Hk.
  destruct (is_confirmation
              (ConfirmationHandler.detect_confirmation pd llm message
                 (pending_suggestions (self_session a))) &&
            above_threshold
              (cd_confidence
                 (ConfirmationHandler.detect_confirmation pd llm message
                    (pending_suggestions (self_session a))))) eqn:Hc.
  - destruct (pending_suggestions (self_session a)) as [pending|] eqn:Hp.
    + apply andb_true_iff in Hc as [Hc1 Hc2].
      destruct (confirmed_flow pd a llm message pending Hp Hk Hc1 Hc2)
        as (r & a' & Hrun & _ & Hfm & Hcm & Hla & Hdone & Hauto).
      rewrite Hrun. split; [assumption|]. split; [assumption|].
      split; [right; now exists pending|].
      destruct (rag_search_performed (self_session a)) eqn:Hrag.
      * left. destruct Hdone as (? & ? & _); [now left | now split].
      * destruct (FieldManager.is_complete (field_manager a')) eqn:Hcomp.
        -- left. destruct Hdone as (? & ? & _); [now right | now split].
        -- destruct (Hauto eq_refl eq_refl) as (_ & [(? & ? & _)|(? & _ & new & ? & ? & _)]).
           ++ left. now split.
           ++ right. left. split; [assumption|]. now exists new.
    + unfold _handle_confirmation_flow. rewrite Hp, Hc. now split.
  - unfold _handle_confirmation_flow. rewrite Hc.
    destruct (is_modification_request _);
      [destruct (extracted_modifications _) as [[|m ms]|]|].
    2: { assert (Hk' : FieldManager.schema_keyed
                         (fst (FieldManager.update_fields (field_manager a)
                                 (m :: ms)))).
         { unfold FieldManager.schema_keyed.
           now rewrite FieldManagerFacts.update_fields_keys. }
         destruct (FieldManagerFacts.calculate_progress_spec _ Hk') as (p & Hp & _).
         cbn [set_field_manager set_session field_manager self_session].
         unfold_monad. rewrite Hp. cbn.
         repeat split; [right; now exists (m :: ms) | left; now split]. }
    all: destruct (is_rejection _); unfold_monad; cbn;
      repeat split; [now left | | now left |]; tauto.
Qed.

(** *** Turns outside a confirmation *)

(** X17. Outside a confirmation, when the decision is SUGGEST_FIELDS with
    extracted values, the turn writes nothing to the tracker: the values
    become the pending suggestions, [awaiting_confirmation] and
    [initial_extraction_done] are set, and the response is
    "suggestion_pending". *)
Theorem suggestion_turn_awaits_confirmation
    (pd : string -> result ConfirmationDetection)
    (pdec : string -> result AgentDecision)
    (a : t) (i : turn) (d : AgentDecision) (suggested : dict string) :
  awaiting_confirmation (self_session a) = false ->
  FieldManager.schema_keyed (field_manager a) ->
  (forall st, DecisionMaker.decide_action pdec (t_llm i) (t_message i) st = d) ->
  action d = SUGGEST_FIELDS ->
  suggested_fields d = Some suggested ->
  suggested <> [] ->
  exists r a',
    handle_message pd pdec a i = Ok (r, a') /\
    r_type r = "suggestion_pending" /\
    r_suggestions r = Some suggested /\
    field_manager a' = field_manager a /\
    pending_suggestions (self_session a') = Some suggested /\
    awaiting_confirmation (self_session a') = true /\
    initial_extraction_done (self_session a') = true /\
    last_action (self_session a') = Some "suggest_fields".
Proof.
  intros Hawait Hk Hd Hact Hsug Hne.
  rewrite handle_message_unfold, Hawait.
  pose proof (regular_flow_effect pdec
                (set_conversation a
                   (ConversationManager.add_message (conversation a)
                      (t_now_user i) "user" (t_message i) None))
                (t_llm i) (t_stamp i) (t_message i) d Hk Hd) as Heff.
  cbn [set_conversation rag_service field_manager self_session] in Heff.
  unfold execute in Heff. rewrite Hact, Hsug in Heff.
  unfold _execute_suggest_fields in Heff. rewrite Hsug in Heff.
  destruct suggested as [|s0 ss]; [congruence|].
  destruct (_handle_regular_flow _ _ _ _ _) as [[r a1]|e]; [|discriminate].
  destruct Heff as (Hex & _ & _ & Hla & _ & _ & Haw & Hpend & Hdone).
  injection Hex as Hr Hfm. subst r.
  eexists. eexists. split; [reflexivity|]. cbn.
  repeat split; first [assumption | congruence | exact Hla].
Qed.

Lemma suggestion_turn_awaits_confirmation_witness :
  exists r a',
    handle_message Scenarios.parse_detection Scenarios.parse_decision
      Scenarios.fresh (Scenarios.answered "The client is Acme" "A2") =
    Ok (r, a') /\
    field_manager a' = field_manager Scenarios.fresh /\
    pending_suggestions (self_session a') = Some Scenarios.client_acme /\
    awaiting_confirmation (self_session a') = true.
Proof.
  destruct (suggestion_turn_awaits_confirmation
              Scenarios.parse_detection Scenarios.parse_decision
              Scenarios.fresh (Scenarios.answered "The client is Acme" "A2")
              (Scenarios.suggest Scenarios.client_acme) Scenarios.client_acme)
    as (r & a' & Hrun & _ & _ & Hfm & Hp & Haw & _).
  - reflexivity.
  - reflexivity.
  - intros st. reflexivity.
  - reflexivity.
  - reflexivity.
  - discriminate.
  - exists r, a'. repeat split; assumption.
Defined.

(** X18. Outside a confirmation, a SEARCH_RAG decision with a query answered
    by the mock retrieval returns a "suggestion_pending" response that
    carries the retrieved values, but nothing is stored for a later
    confirmation: [awaiting_confirmation] stays false,
    [pending_suggestions] stays absent, [rag_search_performed] keeps its
    value and the tracker is unchanged. *)
Theorem search_turn_does_not_await_confirmation
    (pd : string -> result ConfirmationDetection)
    (pdec : string -> result AgentDecision)
    (a : t) (i : turn) (d : AgentDecision) (query : string) :
  awaiting_confirmation (self_session a) = false ->
  FieldManager.schema_keyed (field_manager a) ->
  RAGService.rag_client (rag_service a) = false ->
  (forall st, DecisionMaker.decide_action pdec (t_llm i) (t_message i) st = d) ->
  action d = SEARCH_RAG ->
  search_query d = Some query ->
  exists r a',
    handle_message pd pdec a i = Ok (r, a') /\
    r_type r = "suggestion_pending" /\
    r_suggestions r =
      Some (RAGService.found_fields (RAGService._mock_search query)) /\
    field_manager a' = field_manager a /\
    awaiting_confirmation (self_session a') = false /\
    pending_suggestions (self_session a') = pending_suggestions (self_session a) /\
    rag_search_performed (self_session a') =
      rag_search_performed (self_session a).
Proof.
  intros Hawait Hk Hmock Hd Hact Hq.
  rewrite handle_message_unfold, Hawait.
  pose proof (regular_flow_effect pdec
                (set_conversation a
                   (ConversationManager.add_message (conversation a)
                      (t_now_user i) "user" (t_message i) None))
                (t_llm i) (t_stamp i) (t_message i) d Hk Hd) as Heff.
  cbn [set_conversation rag_service field_manager self_session] in Heff.
  unfold execute in Heff. rewrite Hact in Heff.
  unfold _execute_search_rag, RAGService.search in Heff.
  rewrite Hmock, Hq in Heff. cbn [negb] in Heff.
  unfold mbind, mret, result_bind, result_ret in Heff. cbn [Py.bind] in Heff.
  pose proof (RAGServiceFacts.mock_search_shaped query) as Hshape.
  unfold RAGService.mock_shaped in Hshape.
  do 4 (apply andb_true_iff in Hshape as [Hshape _]).
  apply andb_true_iff in Hshape as [Hlt Htruthy].
  rewrite Hlt, Htruthy in Heff. cbn [andb] in Heff.
  destruct (_handle_regular_flow _ _ _ _ _) as [[r a1]|e]; [|discriminate].
  destruct Heff as (Hex & _ & _ & _ & _ & Hrag & Hflags).
  injection Hex as Hr Hfm. subst r.
  eexists. eexists. split; [reflexivity|]. cbn.
  destruct (suggested_fields d) as [[|]|]; destruct Hflags as (Haw & Hp & _);
    repeat split; congruence.
Qed.

Lemma search_turn_does_not_await_confirmation_witness :
  exists r a',
    handle_message Scenarios.parse_detection
      (fun _ =>
         Ok (Decision SEARCH_RAG "problem described" None None
               (Some "yellowing of films") None "Searching" false (8 # 10)))
      Scenarios.fresh (Scenarios.answered "Our films turn yellow" "A3") =
    Ok (r, a') /\
    r_type r = "suggestion_pending" /\
    awaiting_confirmation (self_session a') = false.
Proof.
  destruct (search_turn_does_not_await_confirmation
              Scenarios.parse_detection
              (fun _ =>
                 Ok (Decision SEARCH_RAG "problem described" None None
                       (Some "yellowing of films") None "Searching" false
                       (8 # 10)))
              Scenarios.fresh (Scenarios.answered "Our films turn yellow" "A3")
              (Decision SEARCH_RAG "problem described" None None
                 (Some "yellowing of films") None "Searching" false (8 # 10))
              "yellowing of films")
    as (r & a' & Hrun & Htype & _ & _ & Haw & _).
  - reflexivity.
  - reflexivity.
  - reflexivity.
  - intros st. reflexivity.
  - reflexivity.
  - reflexivity.
  - exists r, a'. repeat split; assumption.
Defined.

(** X19. Outside a confirmation a turn never refreshes the session's
    [progress_pct], even when an UPDATE_FIELD decision fills a field: the
    stored percentage, the retrieval flag and the list of automatic
    queries are those of before, and [last_action] is the decision's
    action. *)
Theorem regular_turn_keeps_session_progress
    (pd : string -> result ConfirmationDetection)
    (pdec : string -> result AgentDecision)
    (a : t) (i : turn) (d : AgentDecision) (r : response) (a' : t) :
  awaiting_confirmation (self_session a) = false ->
  FieldManager.schema_keyed (field_manager a) ->
  (forall st, DecisionMaker.decide_action pdec (t_llm i) (t_message i) st = d) ->
  handle_message pd pdec a i = Ok (r, a') ->
  progress_pct (self_session a') = progress_pct (self_session a) /\
  rag_search_performed (self_session a') = rag_search_performed (self_session a) /\
  auto_rag_queries a' = auto_rag_queries a /\
  last_action (self_session a') = Some (value (action d)) /\
  execute (rag_service a) (t_stamp i) d (field_manager a) =
    Ok (r, field_manager a').
Proof.
  intros Hawait Hk Hd. rewrite handle_message_unfold, Hawait.
  pose proof (regular_flow_effect pdec
                (set_conversation a
                   (ConversationManager.add_message (conversation a)
                      (t_now_user i) "user" (t_message i) None))
                (t_llm i) (t_stamp i) (t_message i) d Hk Hd) as Heff.
  cbn [set_conversation rag_service field_manager self_session
       auto_rag_queries] in Heff.
  destruct (_handle_regular_flow _ _ _ _ _) as [[r1 a1]|e]; [|discriminate].
  destruct Heff as (Hex & _ & Hq & Hla & Hp & Hrag & _).
  intros [= <- <-]. cbn. repeat split; assumption.
Qed.

Lemma regular_turn_keeps_session_progress_witness :
  exists r a',
    handle_message Scenarios.parse_detection
      (fun _ =>
         Ok (Decision UPDATE_FIELD "single update" (Some "Client") (Some "Acme")
               None None "Updated" false (9 # 10)))
      Scenarios.fresh (Scenarios.answered "Client is Acme" "A4") = Ok (r, a') /\
    FieldManager.get_field (field_manager a') "Client" = Some "Acme" /\
    progress_pct (self_session a') = progress_pct (self_session Scenarios.fresh).
Proof.
  destruct (handle_message Scenarios.parse_detection
      (fun _ =>
         Ok (Decision UPDATE_FIELD "single update" (Some "Client") (Some "Acme")
               None None "Updated" false (9 # 10)))
      Scenarios.fresh (Scenarios.answered "Client is Acme" "A4"))
    as [[r a']|e] eqn:Hrun; [|vm_compute in Hrun; discriminate Hrun].
  exists r, a'. split; [reflexivity|].
  destruct (regular_turn_keeps_session_progress
              Scenarios.parse_detection
              (fun _ =>
                 Ok (Decision UPDATE_FIELD "single update" (Some "Client")
                       (Some "Acme") None None "Updated" false (9 # 10)))
              Scenarios.fresh (Scenarios.answered "Client is Acme" "A4")
              (Decision UPDATE_FIELD "single update" (Some "Client")
                 (Some "Acme") None None "Updated" false (9 # 10))
              r a') as (Hp & _ & _ & _ & _).
  - reflexivity.
  - reflexivity.
  - intros st. reflexivity.
  - exact Hrun.
  - split; [|exact Hp]. vm_compute in Hrun. injection Hrun as <- <-. reflexivity.
Defined.

(** *** The other branches of a confirmation *)

(** X20. While a confirmation is awaited, a message that is neither a
    confirmation above the threshold, nor a modification with extracted
    values, nor a rejection leaves everything as it was: the suggestions
    stay pending, [awaiting_confirmation] stays true and the tracker is
    unchanged; the response asks again. *)
Theorem unclear_reply_keeps_waiting
    (pd : string -> result ConfirmationDetection)
    (pdec : string -> result AgentDecision) (a : t) (i : turn) :
  awaiting_confirmation (self_session a) = true ->
  is_confirmation
    (ConfirmationHandler.detect_confirmation pd (t_llm i) (t_message i)
       (pending_suggestions (self_session a))) &&
  above_threshold
    (cd_confidence
       (ConfirmationHandler.detect_confirmation pd (t_llm i) (t_message i)
          (pending_suggestions (self_session a)))) = false ->
  is_modification_request
    (ConfirmationHandler.detect_confirmation pd (t_llm i) (t_message i)
       (pending_suggestions (self_session a))) = false ->
  is_rejection
    (ConfirmationHandler.detect_confirmation pd (t_llm i) (t_message i)
       (pending_suggestions (self_session a))) = false ->
  exists r a',
    handle_message pd pdec a i = Ok (r, a') /\
    r_type r = "unclear_confirmation" /\
    awaiting_confirmation (self_session a') = true /\
    pending_suggestions (self_session a') = pending_suggestions (self_session a) /\
    field_manager a' = field_manager a /\
    auto_rag_queries a' = auto_rag_queries a.
Proof.
  intros Hawait Hconf Hmod Hrej.
  rewrite handle_message_unfold, Hawait. unfold _handle_confirmation_flow.
  cbn [set_conversation self_session].
  rewrite Hconf, Hmod, Hrej. unfold_monad.
  eexists. eexists. split; [reflexivity|]. cbn. now repeat split.
Qed.

Lemma unclear_reply_keeps_waiting_witness :
  exists r a',
    handle_message Scenarios.parse_detection Scenarios.parse_decision
      Scenarios.awaiting_acme (Scenarios.unanswered "maybe later") = Ok (r, a') /\
    r_type r = "unclear_confirmation" /\
    awaiting_confirmation (self_session a') = true /\
    pending_suggestions (self_session a') = Some Scenarios.client_acme.
Proof.
  destruct (unclear_reply_keeps_waiting
              Scenarios.parse_detection Scenarios.parse_decision
              Scenarios.awaiting_acme (Scenarios.unanswered "maybe later"))
    as (r & a' & Hrun & Htype & Haw & Hp & _).
  - reflexivity.
  - vm_compute. reflexivity.
  - vm_compute. reflexivity.
  - vm_compute. reflexivity.
  - exists r, a'. repeat split; assumption.
Defined.

(** X21. While a confirmation is awaited, a modification request with
    extracted values (and no confirmation above the threshold) applies
    those values and nothing else: the pending suggestions are dropped
    without being applied, both flags are cleared, no automatic retrieval
    is sent, and this holds whether or not the message is also classified
    as a rejection. *)
Theorem modification_replaces_suggestions
    (pd : string -> result ConfirmationDetection)
    (pdec : string -> result AgentDecision)
    (a : t) (i : turn) (modifications : dict string) :
  awaiting_confirmation (self_session a) = true ->
  FieldManager.schema_keyed (field_manager a) ->
  is_confirmation
    (ConfirmationHandler.detect_confirmation pd (t_llm i) (t_message i)
       (pending_suggestions (self_session a))) &&
  above_threshold
    (cd_confidence
       (ConfirmationHandler.detect_confirmation pd (t_llm i) (t_message i)
          (pending_suggestions (self_session a)))) = false ->
  is_modification_request
    (ConfirmationHandler.detect_confirmation pd (t_llm i) (t_message i)
       (pending_suggestions (self_session a))) = true ->
  extracted_modifications
    (ConfirmationHandler.detect_confirmation pd (t_llm i) (t_message i)
       (pending_suggestions (self_session a))) = Some modifications ->
  modifications <> [] ->
  exists r a',
    handle_message pd pdec a i = Ok (r, a') /\
    r_type r = "modification" /\
    field_manager a' =
      fst (FieldManager.update_fields (field_manager a) modifications) /\
    awaiting_confirmation (self_session a') = false /\
    pending_suggestions (self_session a') = None /\
    auto_rag_queries a' = auto_rag_queries a /\
    rag_search_performed (self_session a') = rag_search_performed (self_session a).
Proof.
  intros Hawait Hk Hconf Hmod Hext Hne.
  rewrite handle_message_unfold, Hawait. unfold _handle_confirmation_flow.
  cbn [set_conversation self_session field_manager].
  rewrite Hconf, Hmod, Hext.
  destruct modifications as [|m ms]; [congruence|].
  assert (Hk' : FieldManager.schema_keyed
                  (fst (FieldManager.update_fields (field_manager a) (m :: ms)))).
  { unfold FieldManager.schema_keyed.
    now rewrite FieldManagerFacts.update_fields_keys. }
  destruct (FieldManagerFacts.calculate_progress_spec _ Hk') as (p & Hp & _).
  cbn [set_field_manager set_session field_manager self_session].
  unfold_monad. rewrite Hp.
  eexists. eexists. split; [reflexivity|]. cbn. now repeat split.
Qed.

Lemma modification_replaces_suggestions_witness :
  exists r a',
    handle_message
      (fun _ =>
         Ok (Detection false true true (9 # 10) "wants another client"
               (Some [("Client", "Zenith")])))
      Scenarios.parse_decision Scenarios.awaiting_acme
      (Scenarios.answered "no, the client is Zenith" "M1") = Ok (r, a') /\
    r_type r = "modification" /\
    FieldManager.get_field (field_manager a') "Client" = Some "Zenith" /\
    pending_suggestions (self_session a') = None.
Proof.
  destruct (modification_replaces_suggestions
              (fun _ =>
                 Ok (Detection false true true (9 # 10) "wants another client"
                       (Some [("Client", "Zenith")])))
              Scenarios.parse_decision Scenarios.awaiting_acme
              (Scenarios.answered "no, the client is Zenith" "M1")
              [("Client", "Zenith")])
    as (r & a' & Hrun & Htype & Hfm & _ & Hp & _).
  - reflexivity.
  - reflexivity.
  - reflexivity.
  - reflexivity.
  - reflexivity.
  - discriminate.
  - exists r, a'. repeat split; try assumption. rewrite Hfm. reflexivity.
Defined.

(** *** The log and the checkpoint of a turn *)

(** X22. Every turn that returns appends exactly two entries to the log: the
    user's message, and the reply tagged with the session's
    [last_action]; a confirmation turn leaves [last_action] as the
    preceding turn set it. *)
Theorem turn_logs_message_and_reply
    (pd : string -> result ConfirmationDetection)
    (pdec : string -> result AgentDecision)
    (a : t) (i : turn) (r : response) (a' : t) :
  FieldManager.schema_keyed (field_manager a) ->
  handle_message pd pdec a i = Ok (r, a') ->
  conversation a' =
    ConversationManager.add_all (conversation a) (turn_appends i r a') /\
  (awaiting_confirmation (self_session a) = true ->
   last_action (self_session a') = last_action (self_session a)) /\
  s_conversation_history (self_session a') =
    Some (ConversationManager.history (conversation a')).
Proof.
  intros Hk. rewrite handle_message_unfold.
  set (a0 := set_conversation a
               (ConversationManager.add_message (conversation a) (t_now_user i)
                  "user" (t_message i) None)).
  destruct (awaiting_confirmation (self_session a)) eqn:Hawait.
  - pose proof (confirmation_flow_effect pd a0 (t_llm i) (t_message i) Hk) as Heff.
    destruct (_handle_confirmation_flow _ _ _ _) as [[r1 a1]|e]; [|discriminate].
    destruct Heff as (Hcm & Hla & _). intros [= <- <-].
    cbn. rewrite Hcm. now repeat split.
  - pose proof (fun d Hd =>
                  regular_flow_effect pdec a0 (t_llm i) (t_stamp i) (t_message i)
                    d Hk Hd) as Heff.
    specialize (Heff (DecisionMaker.decide_action pdec (t_llm i) (t_message i)
                        (DecisionMaker.AgentState 0 [] [] false None false false))
                  (fun st => eq_refl)).
    destruct (_handle_regular_flow _ _ _ _ _) as [[r1 a1]|e]; [|discriminate].
    destruct Heff as (_ & Hcm & _). intros [= <- <-].
    cbn. rewrite Hcm. repeat split. discriminate.
Qed.

Lemma turn_logs_message_and_reply_witness :
  exists r a',
    handle_message Scenarios.parse_detection Scenarios.parse_decision
      Scenarios.awaiting_acme (Scenarios.unanswered "no") = Ok (r, a') /\
    conversation a' =
      ConversationManager.add_all (conversation Scenarios.awaiting_acme)
        (turn_appends (Scenarios.unanswered "no") r a').
Proof.
  destruct (handle_message Scenarios.parse_detection Scenarios.parse_decision
              Scenarios.awaiting_acme (Scenarios.unanswered "no"))
    as [[r a']|e] eqn:Hrun; [|vm_compute in Hrun; discriminate Hrun].
  exists r, a'. split; [reflexivity|].
  apply (turn_logs_message_and_reply
           Scenarios.parse_detection Scenarios.parse_decision
           Scenarios.awaiting_acme (Scenarios.unanswered "no") r a').
  - reflexivity.
  - exact Hrun.
Defined.

(** *** Invariants of a session *)

Lemma fresh_consistent (session_id now : string) (rag : RAGService.t) :
  consistent (_initialize_new_session session_id now rag).
Proof.
  split; [exact FieldManagerFacts.init_schema_keyed|].
  split; [discriminate | reflexivity].
Qed.

Lemma handle_message_consistent
    (pd : string -> result ConfirmationDetection)
    (pdec : string -> result AgentDecision)
    (a : t) (i : turn) (r : response) (a' : t) :
  consistent a ->
  handle_message pd pdec a i = Ok (r, a') ->
  consistent a'.
Proof.
  intros Hc. pose proof (proj1 Hc) as Hk. rewrite handle_message_unfold.
  set (a0 := set_conversation a
               (ConversationManager.add_message (conversation a) (t_now_user i)
                  "user" (t_message i) None)).
  assert (Hstep : forall r1 a1,
    (if awaiting_confirmation (self_session a)
     then _handle_confirmation_flow pd a0 (t_llm i) (t_message i)
     else _handle_regular_flow pdec a0 (t_llm i) (t_stamp i) (t_message i)) =
    Ok (r1, a1) -> consistent a1).
  { intros r1 a1. destruct (awaiting_confirmation (self_session a)) eqn:Hawait.
    - pose proof (confirmation_flow_effect pd a0 (t_llm i) (t_message i) Hk)
        as Heff.
      intros Hrun. rewrite Hrun in Heff.
      destruct Heff as (_ & _ & Hfm & Hflags). split.
      { destruct Hfm as [->|[U ->]]; [exact Hk|].
        unfold FieldManager.schema_keyed.
        now rewrite FieldManagerFacts.update_fields_keys. }
      destruct Hflags as [[Ha Hp]|[[Ha (new & Hne & Hp)]|[Ha Hp]]].
      + split; [congruence | now intros _].
      + split; [intros _; now exists new | congruence].
      + rewrite Ha, Hp. exact (proj2 Hc).
    - pose proof (regular_flow_effect pdec a0 (t_llm i) (t_stamp i) (t_message i)
                    (DecisionMaker.decide_action pdec (t_llm i) (t_message i)
                       (DecisionMaker.AgentState 0 [] [] false None false false))
                    Hk (fun st => eq_refl)) as Heff.
      set (d := DecisionMaker.decide_action pdec (t_llm i) (t_message i) _)
        in Heff.
      intros Hrun. rewrite Hrun in Heff.
      destruct Heff as (Hex & _ & _ & _ & _ & _ & Hflags). split.
      { apply ActionExecutorFacts.execute_tracker in Hex as [->|[U ->]];
          [exact Hk|].
        unfold FieldManager.schema_keyed.
        now rewrite FieldManagerFacts.update_fields_keys. }
      destruct (action d); destruct (suggested_fields d) as [[|s0 ss]|];
        try (destruct Hflags as (Ha & Hp & _); rewrite Ha, Hp;
             exact (proj2 Hc)).
      destruct Hflags as (Ha & Hp & _).
      split; [intros _; eexists; split; [exact Hp | discriminate] | congruence]. }
  destruct (if awaiting_confirmation (self_session a) then _ else _)
    as [[r1 a1]|e]; [|discriminate].
  specialize (Hstep r1 a1 eq_refl). intros [= <- <-].
  exact Hstep.
Qed.

(** X23. Over a session's lifetime the flags stay consistent: after any
    sequence of turns that returns, the tracker has the schema's keys,
    and [awaiting_confirmation] is true exactly when
    [pending_suggestions] holds a non-empty dictionary. *)
Theorem session_stays_consistent
    (pd : string -> result ConfirmationDetection)
    (pdec : string -> result AgentDecision)
    (turns : list turn) (a a' : t) :
  consistent a ->
  handle_messages pd pdec a turns = Ok a' ->
  consistent a'.
Proof.
  revert a. induction turns as [|i turns IH]; intros a Hc.
  - now intros [= <-].
  - cbn [handle_messages]. unfold_monad.
    destruct (handle_message pd pdec a i) as [[r a1]|e] eqn:Hrun; [|discriminate].
    apply IH. now apply (handle_message_consistent pd pdec a i r a1).
Qed.

Lemma session_stays_consistent_witness :
  exists a',
    handle_messages Scenarios.parse_detection Scenarios.parse_decision
      Scenarios.fresh Scenarios.two_confirmations = Ok a' /\
    consistent a'.
Proof.
  destruct (handle_messages Scenarios.parse_detection Scenarios.parse_decision
              Scenarios.fresh Scenarios.two_confirmations)
    as [a'|e] eqn:Hrun; [|vm_compute in Hrun; discriminate Hrun].
  exists a'. split; [reflexivity|].
  apply (session_stays_consistent
           Scenarios.parse_detection Scenarios.parse_decision
           Scenarios.two_confirmations Scenarios.fresh a').
  - split; [exact FieldManagerFacts.init_schema_keyed|].
    split; [discriminate | reflexivity].
  - exact Hrun.
Defined.

(** X24. In a consistent session a turn raises in one case only: outside a
    confirmation, when the decision is SEARCH_RAG without a query and the
    retrieval service has no client. In a confirmation no turn raises. *)
Theorem turn_raises_only_on_search_without_query
    (pd : string -> result ConfirmationDetection)
    (pdec : string -> result AgentDecision)
    (a : t) (i : turn) (d : AgentDecision) (e : exn) :
  consistent a ->
  (forall st, DecisionMaker.decide_action pdec (t_llm i) (t_message i) st = d) ->
  (handle_message pd pdec a i = Raise e <->
   awaiting_confirmation (self_session a) = false /\
   action d = SEARCH_RAG /\
   search_query d = None /\
   RAGService.rag_client (rag_service a) = false /\
   e = AttributeError).
Proof.
  intros Hc Hd. pose proof (proj1 Hc) as Hk. rewrite handle_message_unfold.
  set (a0 := set_conversation a
               (ConversationManager.add_message (conversation a) (t_now_user i)
                  "user" (t_message i) None)).
  destruct (awaiting_confirmation (self_session a)) eqn:Hawait.
  - pose proof (confirmation_flow_effect pd a0 (t_llm i) (t_message i) Hk)
      as Heff.
    destruct (_handle_confirmation_flow _ _ _ _) as [[r1 a1]|e1].
    + split; [discriminate | intros (H & _); discriminate H].
    + destruct Heff as (_ & Hnone). destruct (proj1 (proj2 Hc) Hawait) as (p & Hp & _).
      cbn in Hnone. congruence.
  - pose proof (regular_flow_effect pdec a0 (t_llm i) (t_stamp i) (t_message i)
                  d Hk Hd) as Heff.
    destruct (_handle_regular_flow _ _ _ _ _) as [[r1 a1]|e1].
    + destruct Heff as (Hex & _). split; [discriminate|].
      intros (_ & Hact & Hq & Hcl & _).
      rewrite (ActionExecutorFacts.execute_search_without_query
                 _ _ _ _ Hact Hq Hcl) in Hex. discriminate Hex.
    + apply ActionExecutorFacts.execute_raise_inv in Heff
        as (Hact & Hq & Hcl & ->); [|exact Hk].
      split.
      * intros [= <-]. now repeat split.
      * now intros (_ & _ & _ & _ & ->).
Qed.

Lemma turn_raises_only_on_search_without_query_witness :
  handle_message Scenarios.parse_detection
    (fun _ =>
       Ok (Decision SEARCH_RAG "problem described" None None None None
             "Searching" false (8 # 10)))
    Scenarios.fresh (Scenarios.answered "the films turn yellow" "S1") =
  Raise AttributeError.
Proof.
  apply (turn_raises_only_on_search_without_query
           Scenarios.parse_detection
           (fun _ =>
              Ok (Decision SEARCH_RAG "problem described" None None None None
                    "Searching" false (8 # 10)))
           Scenarios.fresh (Scenarios.answered "the films turn yellow" "S1")
           (Decision SEARCH_RAG "problem described" None None None None
              "Searching" false (8 # 10))
           AttributeError).
  - split; [exact FieldManagerFacts.init_schema_keyed|].
    split; [discriminate | reflexivity].
  - reflexivity.
  - repeat split.
Defined.

(** *** A restart after a turn *)

Lemma handle_message_sound
    (pd : string -> result ConfirmationDetection)
    (pdec : string -> result AgentDecision)
    (a : t) (i : turn) (r : response) (a' : t) :
  sound a ->
  handle_message pd pdec a i = Ok (r, a') ->
  sound a' /\
  exists a2,
    a' = _save_checkpoint a2 (t_now_saved i) /\ sound a2.
Proof.
  intros (Hfm & Hcm & Hcap). rewrite handle_message_unfold.
  pose proof (FieldManagerFacts.reachable_schema_keyed _ Hfm) as Hk.
  set (a0 := set_conversation a
               (ConversationManager.add_message (conversation a) (t_now_user i)
                  "user" (t_message i) None)).
  assert (Hstep : forall r1 a1,
    (if awaiting_confirmation (self_session a)
     then _handle_confirmation_flow pd a0 (t_llm i) (t_message i)
     else _handle_regular_flow pdec a0 (t_llm i) (t_stamp i) (t_message i)) =
    Ok (r1, a1) ->
    FieldManager.reachable (field_manager a1) /\
    conversation a1 = conversation a0).
  { intros r1 a1. destruct (awaiting_confirmation (self_session a)).
    - pose proof (confirmation_flow_effect pd a0 (t_llm i) (t_message i) Hk)
        as Heff.
      intros Hrun. rewrite Hrun in Heff.
      destruct Heff as (Hc & _ & Hf & _). split; [|exact Hc].
      destruct Hf as [->|[U ->]]; [exact Hfm|].
      now apply FieldManager.reach_update.
    - pose proof (regular_flow_effect pdec a0 (t_llm i) (t_stamp i) (t_message i)
                    (DecisionMaker.decide_action pdec (t_llm i) (t_message i)
                       (DecisionMaker.AgentState 0 [] [] false None false false))
                    Hk (fun st => eq_refl)) as Heff.
      intros Hrun. rewrite Hrun in Heff.
      destruct Heff as (Hex & Hc & _). split; [|exact Hc].
      apply ActionExecutorFacts.execute_tracker in Hex as [->|[U ->]];
        [exact Hfm|].
      now apply FieldManager.reach_update. }
  destruct (if awaiting_confirmation (self_session a) then _ else _)
    as [[r1 a1]|e]; [|discriminate].
  destruct (Hstep r1 a1 eq_refl) as (Hfm1 & Hc1). intros [= <- <-].
  assert (Hs2 : sound
                  (set_conversation a1
                     (ConversationManager.add_message (conversation a1)
                        (t_now_reply i) "assistant" (r_message r1)
                        (last_action (self_session a1))))).
  { split; [exact Hfm1|]. cbn [conversation set_conversation]. rewrite Hc1.
    split.
    - apply ConversationManager.reach_add. cbn.
      now apply ConversationManager.reach_add.
    - rewrite ConversationManagerFacts.add_message_cap. unfold a0.
      cbn [conversation set_conversation].
      now rewrite ConversationManagerFacts.add_message_cap. }
  split; [|eexists; split; [reflexivity | exact Hs2]].
  exact Hs2.
Qed.

(** X25. After every turn that returns, the checkpoint the turn wrote brings
    the session back: restoring it at a restart returns an agent with
    the same tracker, the same log, the same pending suggestions and the
    same flags as the agent had at the end of the turn. *)
Theorem turn_survives_restart
    (pd : string -> result ConfirmationDetection)
    (pdec : string -> result AgentDecision)
    (a : t) (i : turn) (r : response) (a' : t) :
  sound a ->
  handle_message pd pdec a i = Ok (r, a') ->
  exists cp restored,
    saved a' = Some cp /\
    _restore_from_checkpoint cp (rag_service a') = Ok restored /\
    field_manager restored = field_manager a' /\
    conversation restored = conversation a' /\
    pending_suggestions (self_session restored) =
      pending_suggestions (self_session a') /\
    awaiting_confirmation (self_session restored) =
      awaiting_confirmation (self_session a') /\
    rag_search_performed (self_session restored) =
      rag_search_performed (self_session a').
Proof.
  intros Hs Hrun.
  destruct (handle_message_sound pd pdec a i r a' Hs Hrun)
    as (_ & a2 & -> & Hfm & Hcm & Hcap).
  exact (SnapshotFacts.restore_after_save a2 (t_now_saved i) Hfm Hcm Hcap).
Qed.

Lemma turn_survives_restart_witness :
  exists r a' cp restored,
    handle_message Scenarios.parse_detection Scenarios.parse_decision
      Scenarios.awaiting_acme (Scenarios.unanswered "yes") = Ok (r, a') /\
    saved a' = Some cp /\
    _restore_from_checkpoint cp (rag_service a') = Ok restored /\
    field_manager restored = field_manager a' /\
    conversation restored = conversation a'.
Proof.
  destruct (handle_message Scenarios.parse_detection Scenarios.parse_decision
              Scenarios.awaiting_acme (Scenarios.unanswered "yes"))
    as [[r a']|e] eqn:Hrun; [|vm_compute in Hrun; discriminate Hrun].
  destruct (turn_survives_restart
              Scenarios.parse_detection Scenarios.parse_decision
              Scenarios.awaiting_acme (Scenarios.unanswered "yes") r a')
    as (cp & restored & Hcp & Hres & Hfm & Hcm & _).
  - split; [apply FieldManager.reach_init|].
    split; [|reflexivity].
    apply ConversationManager.reach_add, ConversationManager.reach_init.
  - exact Hrun.
  - exists r, a', cp, restored. repeat split; assumption.
Defined.

(** *** The retrieval flag over the rest of a session *)

(** X26. Once [rag_search_performed] is true it stays true for the rest of
    the session, and no later turn sends an automatic retrieval query. *)
Theorem no_automatic_retrieval_after_flag
    (pd : string -> result ConfirmationDetection)
    (pdec : string -> result AgentDecision)
    (turns : list turn) (a a' : t) :
  rag_search_performed (self_session a) = true ->
  handle_messages pd pdec a turns = Ok a' ->
  auto_rag_queries a' = auto_rag_queries a /\
  rag_search_performed (self_session a') = true.
Proof.
  revert a. induction turns as [|i turns IH]; intros a Hrag.
  - intros [= <-]. now split.
  - cbn [handle_messages]. unfold_monad.
    destruct (handle_message pd pdec a i) as [[r a1]|e] eqn:Hrun; [|discriminate].
    destruct (retrieval_blocked_once_performed pd pdec a i r a1 Hrag Hrun)
      as [Hq Hr].
    intros Hrest. destruct (IH a1 Hr Hrest) as [Hq' Hr'].
    split; [congruence | exact Hr'].
Qed.
Lemma no_automatic_retrieval_after_flag_witness :
  let a :=
    set_session Scenarios.awaiting_acme
      (with_rag_performed (self_session Scenarios.awaiting_acme) true) in
  exists a',
    handle_messages Scenarios.parse_detection Scenarios.parse_decision a
      [Scenarios.unanswered "yes"; Scenarios.unanswered "hello"] = Ok a' /\
    auto_rag_queries a' = auto_rag_queries a /\
    rag_search_performed (self_session a') = true.
Proof.
  intros a.
  destruct (handle_messages Scenarios.parse_detection Scenarios.parse_decision a
              [Scenarios.unanswered "yes"; Scenarios.unanswered "hello"])
    as [a'|e] eqn:Hrun; [|vm_compute in Hrun; discriminate Hrun].
  exists a'. split; [reflexivity|].
  apply (no_automatic_retrieval_after_flag
           Scenarios.parse_detection Scenarios.parse_decision
           [Scenarios.unanswered "yes"; Scenarios.unanswered "hello"] a a').
  - reflexivity.
  - exact Hrun.
Defined.

End StudyBotAgentFacts.
